(** * mersin-proxy: the manifest rewriter, the fetcher and the two routes

    A shallow embedding of [src/main.py].  Python text ([str]) is a list of
    Unicode code points, [bytes] a list of [Byte.byte]; the two process-wide
    globals [SEGMENT_MAP] and [CACHED_COOKIES] and the log of outbound HTTP
    requests are threaded through a state-and-exception monad. *)

From Stdlib Require Import ZArith NArith List String Ascii Bool Lia DecimalString.
From stdpp Require Import base option list gmap fin_maps.

Local Open Scope N_scope.

(** ** Python built-ins used by the program *)

Module Py.

(** A [str] is a sequence of code points. *)
Abbreviation str := (list N).
Abbreviation bytes := (list Byte.byte).

(** Literal text: the code points of an ASCII literal. *)
Fixpoint u (s : string) : str :=
  match s with
  | EmptyString => []
  | String c s' => N_of_ascii c :: u s'
  end.

(** [s.startswith(p)] *)
Fixpoint startswith (p s : str) : bool :=
  match p, s with
  | [], _ => true
  | _ :: _, [] => false
  | a :: p', b :: s' => (a =? b) && startswith p' s'
  end.

(** [s.endswith(p)] *)
Definition endswith (p s : str) : bool := startswith (rev p) (rev s).

(** [p in s] *)
Fixpoint contains (p s : str) : bool :=
  startswith p s ||
  match s with
  | [] => false
  | _ :: s' => contains p s'
  end.

(** [s.partition(sep)], [None] when [sep] does not occur: the text before
    the first occurrence of [sep] and the text after it. *)
Fixpoint partition (sep s : str) : option (str * str) :=
  if startswith sep s then Some ([], drop (length sep) s)
  else match s with
       | [] => None
       | c :: s' =>
           match partition sep s' with
           | Some (a, b) => Some (c :: a, b)
           | None => None
           end
       end.

(** [s.split(sep)] for a non-empty [sep]: cut at the occurrences of [sep],
    found from left to right without overlap.  The recursion is on a
    counter that starts above the length of the text. *)
Fixpoint split_fuel (n : nat) (sep s : str) : list str :=
  match n with
  | O => [s]
  | S n' =>
      match partition sep s with
      | None => [s]
      | Some (a, b) => a :: split_fuel n' sep b
      end
  end.

Definition split (sep s : str) : list str := split_fuel (S (length s)) sep s.

(** [sep.join(l)] *)
Fixpoint join (sep : str) (l : list str) : str :=
  match l with
  | [] => []
  | [x] => x
  | x :: l' => x ++ sep ++ join sep l'
  end.

(** [s.replace(old, new)]: every occurrence, left to right; an empty [old]
    matches before every character and at the end. *)
Definition replace (old new s : str) : str :=
  match old with
  | [] => new ++ flat_map (fun c => c :: new) s
  | _ :: _ => join new (split old s)
  end.

(** [l[i]] and [l[-1]] on a list raise [IndexError] out of range: [None]. *)
Definition item {A} (l : list A) (i : nat) : option A := l !! i.
Definition last_item {A} (l : list A) : option A := last l.

(** [s.lstrip(chars)] *)
Fixpoint lstrip_chars (chars s : str) : str :=
  match s with
  | [] => []
  | c :: s' => if existsb (N.eqb c) chars then lstrip_chars chars s' else s
  end.

(** [c.isspace()]: the code points CPython treats as whitespace. *)
Definition isspace (c : N) : bool :=
  ((0x09 <=? c) && (c <=? 0x0D)) || ((0x1C <=? c) && (c <=? 0x20))
  || (c =? 0x85) || (c =? 0xA0) || (c =? 0x1680)
  || ((0x2000 <=? c) && (c <=? 0x200A))
  || (c =? 0x2028) || (c =? 0x2029) || (c =? 0x202F) || (c =? 0x205F)
  || (c =? 0x3000).

Fixpoint lstrip (s : str) : str :=
  match s with
  | [] => []
  | c :: s' => if isspace c then lstrip s' else s
  end.

Definition rstrip (s : str) : str := rev (lstrip (rev s)).

(** [s.strip()] *)
Definition strip (s : str) : str := rstrip (lstrip s).

(** The line boundaries of [str.splitlines]. *)
Definition islinebreak (c : N) : bool :=
  ((0x0A <=? c) && (c <=? 0x0D)) || ((0x1C <=? c) && (c <=? 0x1E))
  || (c =? 0x85) || (c =? 0x2028) || (c =? 0x2029).

(** [s.splitlines()]: [cur] is the line being read, reversed; CR LF is one
    boundary, and a final boundary opens no empty last line. *)
Fixpoint splitlines_aux (cur : str) (s : str) : list str :=
  match s with
  | [] => match cur with [] => [] | _ :: _ => [rev cur] end
  | c :: s' =>
      if islinebreak c then
        match s' with
        | c' :: s'' =>
            if (c =? 0x0D) && (c' =? 0x0A)
            then rev cur :: splitlines_aux [] s''
            else rev cur :: splitlines_aux [] s'
        | [] => [rev cur]
        end
      else splitlines_aux (c :: cur) s'
  end.

Definition splitlines (s : str) : list str := splitlines_aux [] s.

(** [str(n)] for an integer, as an f-string renders it. *)
Definition str_of_Z (n : Z) : str := u (NilEmpty.string_of_int (Z.to_int n)).

(** Truthiness of a string and of an optional string ([None] is falsy). *)
Definition truthy (s : str) : bool :=
  match s with [] => false | _ :: _ => true end.

Definition truthy_opt (o : option str) : bool :=
  match o with None => false | Some s => truthy s end.

(** *** [bytes.decode("utf-8")]

    Strict decoding of the well-formed byte sequences of UTF-8; [None]
    stands for [UnicodeDecodeError]. *)
Definition cont (b : N) : bool := (0x80 <=? b) && (b <=? 0xBF).

Fixpoint decode_N (bs : list N) : option str :=
  match bs with
  | [] => Some []
  | b0 :: r0 =>
      if b0 <? 0x80 then cons b0 <$> decode_N r0
      else
        match r0 with
        | [] => None
        | b1 :: r1 =>
            if (0xC2 <=? b0) && (b0 <=? 0xDF) then
              if cont b1
              then cons ((b0 - 0xC0) * 64 + (b1 - 0x80)) <$> decode_N r1
              else None
            else
              match r1 with
              | [] => None
              | b2 :: r2 =>
                  if (0xE0 <=? b0) && (b0 <=? 0xEF) then
                    if (if b0 =? 0xE0 then (0xA0 <=? b1) && (b1 <=? 0xBF)
                        else if b0 =? 0xED then (0x80 <=? b1) && (b1 <=? 0x9F)
                        else cont b1) && cont b2
                    then cons ((b0 - 0xE0) * 4096 + (b1 - 0x80) * 64
                               + (b2 - 0x80)) <$> decode_N r2
                    else None
                  else
                    match r2 with
                    | [] => None
                    | b3 :: r3 =>
                        if (0xF0 <=? b0) && (b0 <=? 0xF4) then
                          if (if b0 =? 0xF0
                              then (0x90 <=? b1) && (b1 <=? 0xBF)
                              else if b0 =? 0xF4
                              then (0x80 <=? b1) && (b1 <=? 0x8F)
                              else cont b1) && cont b2 && cont b3
                          then cons ((b0 - 0xF0) * 262144
                                     + (b1 - 0x80) * 4096
                                     + (b2 - 0x80) * 64
                                     + (b3 - 0x80)) <$> decode_N r3
                          else None
                        else None
                    end
              end
        end
  end.

Definition decode_utf8 (body : bytes) : option str :=
  decode_N (map Byte.to_N body).

(** The bytes of an ASCII literal. *)
Fixpoint ub (s : string) : bytes :=
  match s with
  | EmptyString => []
  | String c s' => byte_of_ascii c :: ub s'
  end.

End Py.

Import Py.

(** ** The HTTP client, the library functions and the state *)

Inductive Method := GET | POST.

(** An outbound request as [httpx] sends it. *)
Record OutRequest := {
  out_method : Method;
  out_url : str;
  out_headers : gmap str str;
  out_json : option (list (str * str))
}.

(** An upstream response; header names are in lower case, as
    [response.headers.get] looks them up without regard to case. *)
Record UpResponse := {
  status_code : Z;
  up_headers : gmap str str;
  content : bytes;
  text : str
}.

(** What one outbound call does: it raises an [httpx.HTTPError] (transport
    failure), raises an exception of another class, or returns. *)
Inductive NetResult :=
| NetHTTPError
| NetOtherError
| NetResponse (r : UpResponse).

(** Library functions the program calls: [urllib.parse.unquote],
    [urllib.parse.urlparse] (its scheme and netloc) and
    [urllib.parse.urljoin], where [None] stands for the [ValueError] they
    raise on a malformed URL; [re.search] with the pattern of
    [fetch_m3u8_url]; and whether [response.raise_for_status()] raises for
    a status code. *)
Record Lib := {
  unquote : str -> str;
  urlparse : str -> option (str * str);
  urljoin : str -> str -> option str;
  search_m3u8 : str -> option str;
  raise_for_status : Z -> bool
}.

Inductive Exc :=
| IndexError
| ValueError
| UnicodeDecodeError
| ClientError
| HTTPException (status : Z) (detail : Detail)
with Detail :=
| Msg (s : str)
| MsgOf (prefix : str) (e : Exc).

(** The process-wide globals and the log of outbound requests. *)
Record World := {
  SEGMENT_MAP : gmap str str;
  CACHED_COOKIES : option str;
  sent : list OutRequest
}.

Definition initial : World :=
  {| SEGMENT_MAP := ∅; CACHED_COOKIES := None; sent := [] |}.

Inductive Res (A : Type) :=
| Ok (a : A)
| Raise (e : Exc).
Arguments Ok {A} a.
Arguments Raise {A} e.

Definition M (A : Type) : Type := World -> Res A * World.

Definition ret {A} (a : A) : M A := fun w => (Ok a, w).

Definition raise {A} (e : Exc) : M A := fun w => (Raise e, w).

Definition bind {A B} (c : M A) (k : A -> M B) : M B :=
  fun w =>
    match c w with
    | (Ok a, w') => k a w'
    | (Raise e, w') => (Raise e, w')
    end.

(** [try: c except Exception as e: h e] *)
Definition try_except {A} (c : M A) (h : Exc -> M A) : M A :=
  fun w =>
    match c w with
    | (Ok a, w') => (Ok a, w')
    | (Raise e, w') => h e w'
    end.

Declare Scope py_scope.
Delimit Scope py_scope with py.
Notation "'let*' x := c 'in' k" := (bind c (fun x => k))
  (at level 10, x binder, c at level 100, k at level 200) : py_scope.

(** [l[i]], raising [IndexError]. *)
Definition index {A} (o : option A) : M A :=
  match o with
  | Some a => ret a
  | None => raise IndexError
  end.

(** A library call that may raise [ValueError]. *)
Definition or_ValueError {A} (o : option A) : M A :=
  match o with
  | Some a => ret a
  | None => raise ValueError
  end.

Definition segment_map_clear : M unit :=
  fun w => (Ok tt, {| SEGMENT_MAP := ∅;
                      CACHED_COOKIES := CACHED_COOKIES w;
                      sent := sent w |}).

Definition segment_map_set (k v : str) : M unit :=
  fun w => (Ok tt, {| SEGMENT_MAP := <[k := v]> (SEGMENT_MAP w);
                      CACHED_COOKIES := CACHED_COOKIES w;
                      sent := sent w |}).

Definition segment_map_read : M (gmap str str) :=
  fun w => (Ok (SEGMENT_MAP w), w).

Definition cached_cookies_get : M (option str) :=
  fun w => (Ok (CACHED_COOKIES w), w).

Definition cached_cookies_set (c : str) : M unit :=
  fun w => (Ok tt, {| SEGMENT_MAP := SEGMENT_MAP w;
                      CACHED_COOKIES := Some c;
                      sent := sent w |}).

(** ** Constants *)

Definition quote : str := [34].

Definition SOURCE_URL : str := u "https://fishy.streamed.su/".
Definition COOKIE_URL : str := u "https://fishy.streamed.su/api/event".

Definition HEADERS : gmap str str :=
  list_to_map [
    (u "User-Agent", u "Mozilla/5.0 (Linux; Android 10; K) AppleWebKit/537.36 (KHTML, like Gecko) Chrome/132.0.0.0 Mobile Safari/537.36");
    (u "Referer", u "https://embedstreams.top/");
    (u "Origin", u "https://embedstreams.top");
    (u "Accept", u "*/*");
    (u "Accept-Encoding", u "identity");
    (u "Accept-Language", u "en-GB,en-US;q=0.9,en;q=0.8");
    (u "Sec-Ch-Ua", quote ++ u "Not A(Brand" ++ quote ++ u ";v=" ++ quote
                    ++ u "8" ++ quote ++ u ", " ++ quote ++ u "Chromium"
                    ++ quote ++ u ";v=" ++ quote ++ u "132" ++ quote);
    (u "Sec-Ch-Ua-Mobile", u "?1");
    (u "Sec-Ch-Ua-Platform", quote ++ u "Android" ++ quote);
    (u "Sec-Fetch-Dest", u "empty");
    (u "Sec-Fetch-Mode", u "cors");
    (u "Sec-Fetch-Site", u "cross-site");
    (u "Content-Type", u "application/json");
    (u "X-Requested-With", u "XMLHttpRequest");
    (u "X-Forwarded-For", u "127.0.0.1")
  ].

(** The response a route handler returns. *)
Inductive Body :=
| BodyText (s : str)
| BodyBytes (c : bytes)
| BodyJson (j : list (str * str)).

Record Response := {
  resp_content : Body;
  resp_status : Z;
  media_type : str;
  resp_headers : gmap str str
}.

(** The parts of the inbound request [get_resource] reads. *)
Record Request := {
  query_cookies : option str;
  header_range : option str
}.

(** ** The program *)

Section Program.

Context (lib : Lib).
(** The upstream world: given the requests sent so far and the request
    being sent, what the call does. *)
Context (net : list OutRequest -> OutRequest -> NetResult).

Local Open Scope py_scope.

(** [await client.get(...)] and [await client.post(...)]: the call is
    logged, then the upstream answers. *)
Definition send (r : OutRequest) : M NetResult :=
  fun w => (Ok (net (sent w) r),
            {| SEGMENT_MAP := SEGMENT_MAP w;
               CACHED_COOKIES := CACHED_COOKIES w;
               sent := sent w ++ [r] |}).

Definition client_get (url : str) (headers : gmap str str) : M NetResult :=
  send {| out_method := GET; out_url := url; out_headers := headers;
          out_json := None |}.

Definition client_post (url : str) (json : list (str * str))
    (headers : gmap str str) : M NetResult :=
  send {| out_method := POST; out_url := url; out_headers := headers;
          out_json := Some json |}.

Definition ping : M Response :=
  ret {| resp_content := BodyJson [(u "status", u "ok")];
         resp_status := 200;
         media_type := u "application/json";
         resp_headers := ∅ |}.

(** The body of the loop over [cookies.split(",")]. *)
Definition parse_cookie (cookie_dict : gmap str str) (cookie : str)
    : gmap str str :=
  match split (u "=") (strip (hd [] (split (u ";") cookie))) with
  | [name; value] =>
      <[lstrip_chars (u "_") (strip name) := strip value]> cookie_dict
  | _ => cookie_dict
  end.

Definition required_cookies : list str :=
  [u "ddg8_"; u "ddg10_"; u "ddg9_"; u "ddg1_"].

Definition format_cookies (cookie_dict : gmap str str) : str :=
  join (u "; ")
    (map (fun key => key ++ u "=" ++ default (u "None") (cookie_dict !! key))
       (filter (fun key => is_Some (cookie_dict !! key)) required_cookies)).

Definition fetch_cookies : M (option str) :=
  let* cached := cached_cookies_get in
  if truthy_opt cached then ret cached
  else
    let* r := client_post COOKIE_URL [(u "event", u "pageview")] HEADERS in
    match r with
    | NetHTTPError => ret None
    | NetOtherError => raise ClientError
    | NetResponse response =>
        let cookies := up_headers response !! u "set-cookie" in
        match cookies with
        | None => ret None
        | Some cookies =>
            if negb (truthy cookies) then ret None
            else
              let cookie_dict :=
                foldl parse_cookie ∅ (split (u ",") cookies) in
              let formatted_cookies := format_cookies cookie_dict in
              if negb (truthy formatted_cookies) then ret None
              else
                let* _ := cached_cookies_set formatted_cookies in
                ret (Some formatted_cookies)
        end
    end.

Definition fetch_m3u8_url : M (option str) :=
  let* r := client_get SOURCE_URL HEADERS in
  match r with
  | NetHTTPError => ret None
  | NetOtherError => raise ClientError
  | NetResponse response => ret (search_m3u8 lib (text response))
  end.

(** One pass of [for attempt in range(1, retries + 1)] over the attempts
    left; [Some] is the [return] inside the loop, [None] its end or the
    [break]. *)
Fixpoint fetch_attempts (source_url : str) (headers : gmap str str)
    (retries : nat) (attempts : list nat) : M (option (bytes * str)) :=
  match attempts with
  | [] => ret None
  | attempt :: rest =>
      let* r := client_get source_url headers in
      match r with
      | NetOtherError => raise ClientError
      | NetHTTPError =>
          if Nat.eqb attempt retries then ret None
          else fetch_attempts source_url headers retries rest
      | NetResponse response =>
          if raise_for_status lib (status_code response) then
            if Nat.eqb attempt retries then ret None
            else fetch_attempts source_url headers retries rest
          else
            let content_type :=
              default (u "application/octet-stream")
                (up_headers response !! u "content-type") in
            let content_type :=
              if endswith (u ".ts") source_url || endswith (u ".js") source_url
              then u "video/mp2t" else content_type in
            ret (Some (content response, content_type))
      end
  end.

(** [for source_url in sources] *)
Fixpoint fetch_sources (sources : list str) (headers : gmap str str)
    (retries : nat) : M (option (bytes * str)) :=
  match sources with
  | [] => ret None
  | source_url :: rest =>
      let* r := fetch_attempts source_url headers retries (seq 1 retries) in
      match r with
      | Some result => ret (Some result)
      | None => fetch_sources rest headers retries
      end
  end.

Definition fetch_resource (url cookies : str) (retries : nat)
    : M (option (bytes * str)) :=
  let sources := [
    url;
    replace (u "rr.buytommy.top") (u "p2-panel.streamed.su") url;
    replace (u "rr.buytommy.top") (u "flu.streamed.su") url
  ] in
  let headers := <[u "Cookie" := cookies]> HEADERS in
  fetch_sources sources headers retries.

(** The cookie normalisation at the head of [get_playlist]. *)
Definition normalize_pair (pair_ : str) : M str :=
  let* name := index (item (split (u "=") pair_) 0) in
  let* value := index (item (split (u "=") pair_) 1) in
  ret (lstrip_chars (u "_") name ++ u "=" ++ value).

Fixpoint normalize_pairs (pairs : list str) : M (list str) :=
  match pairs with
  | [] => ret []
  | pair_ :: rest =>
      if truthy pair_ then
        let* p := normalize_pair pair_ in
        let* ps := normalize_pairs rest in
        ret (p :: ps)
      else normalize_pairs rest
  end.

Definition decode_cookies (cookies : str) : str :=
  replace (u "%3D") (u "=")
    (replace (u "%3B+") (u "; ") (unquote lib cookies)).

Definition normalize_cookies (cookies : str) : M str :=
  let cookies := decode_cookies cookies in
  let* ps := normalize_pairs (split (u "; ") cookies) in
  ret (join (u "; ") ps).

(** The body of the loop over the manifest lines: the line that replaces
    [m3u8_lines[i]]. *)
Definition rewrite_line (url line : str) : M str :=
  if startswith (u "#EXT-X-KEY") line && contains (u "URI=") line then
    let* after := index (item (split (u "URI=" ++ quote) line) 1) in
    let* original_uri := index (item (split quote after) 0) in
    let key_path := lstrip_chars (u "/") original_uri in
    let new_uri := u "/" ++ key_path in
    let new_line := replace original_uri new_uri line in
    let* full_key_url := or_ValueError (urljoin lib url original_uri) in
    let* _ := segment_map_set key_path full_key_url in
    ret new_line
  else if startswith (u "https://") line then
    let original_url := strip line in
    let* name := index (last_item (split (u "/") original_url)) in
    let segment_name := replace (u ".js") (u ".ts") name in
    let new_url := u "/" ++ segment_name in
    let direct_url :=
      replace (u "https://corsproxy.io/?url=") [] original_url in
    if startswith (u "https://flu.streamed.su") direct_url then
      let* _ := segment_map_set segment_name direct_url in
      ret new_url
    else
      let segment_name_base := replace (u ".ts") (u ".js") segment_name in
      let direct_url :=
        u "https://p2-panel.streamed.su/bucket-44677-gjnru5ktoa/"
        ++ segment_name_base in
      let* _ := segment_map_set segment_name direct_url in
      ret new_url
  else ret line.

Fixpoint rewrite_lines (url : str) (m3u8_lines : list str) : M (list str) :=
  match m3u8_lines with
  | [] => ret []
  | line :: rest =>
      let* l := rewrite_line url line in
      let* ls := rewrite_lines url rest in
      ret (l :: ls)
  end.

Definition InvalidManifest : Exc :=
  HTTPException 500 (Msg (u "Invalid M3U8 content")).

(** The manifest rewriter: the part of [get_playlist] from the decoding of
    the fetched body to the joined text. *)
Definition rewrite (url : str) (body : bytes) : M str :=
  match decode_utf8 body with
  | None => raise UnicodeDecodeError
  | Some m3u8_content =>
      if negb (contains (u "#EXTM3U") m3u8_content) then raise InvalidManifest
      else
        let* _ := segment_map_clear in
        let m3u8_lines := splitlines m3u8_content in
        let* base_url :=
          or_ValueError
            (match urlparse lib url with
             | Some (scheme, netloc) => Some (scheme ++ u "://" ++ netloc)
             | None => None
             end) in
        let* ls := rewrite_lines url m3u8_lines in
        ret (join [10] ls)
  end.

(** The first half of [get_playlist]: the cookies are normalised and the
    manifest is fetched, from the supplied URL or, when that fails, from a
    freshly located URL with fresh cookies. *)
Definition obtain_manifest (url cookies : str) : M (bytes * str) :=
  let* cookies := normalize_cookies cookies in
  let* result := fetch_resource url cookies 3 in
  match result with
  | Some r => ret r
  | None =>
      let* m3u8_url := fetch_m3u8_url in
      let* cookies := fetch_cookies in
      match m3u8_url, cookies with
      | Some m3u8_url, Some cookies =>
          if negb (truthy m3u8_url) || negb (truthy cookies) then
            raise (HTTPException 500
                     (Msg (u "Could not fetch M3U8 URL or cookies")))
          else
            let* result := fetch_resource m3u8_url cookies 3 in
            match result with
            | Some r => ret r
            | None =>
                raise (HTTPException 500 (Msg (u "Error fetching M3U8")))
            end
      | _, _ =>
          raise (HTTPException 500
                   (Msg (u "Could not fetch M3U8 URL or cookies")))
      end
  end.

Definition get_playlist (url cookies : str) : M Response :=
  try_except
    (let* result := obtain_manifest url cookies in
     let* m3u8_content := rewrite url (fst result) in
     ret {| resp_content := BodyText m3u8_content;
            resp_status := 200;
            media_type := u "application/vnd.apple.mpegurl";
            resp_headers := {[ u "Access-Control-Allow-Origin" := u "*" ]} |})
    (fun e =>
       raise (HTTPException 500 (MsgOf (u "Error fetching M3U8: ") e))).

(** The upstream URL of a requested path: its [SEGMENT_MAP] entry, or the
    guess on the relay host when there is none. *)
Definition resolve (segment_map : gmap str str) (path : str) : str :=
  let resource_url := segment_map !! path in
  if negb (truthy_opt resource_url)
  then u "https://rr.buytommy.top/" ++ replace (u ".ts") (u ".js") path
  else default [] resource_url.

Definition get_resource (path : str) (request : Request) : M Response :=
  try_except
    (let cookies := default [] (query_cookies request) in
     let* segment_map := segment_map_read in
     let resource_url := resolve segment_map path in
     let range_header := header_range request in
     let headers := HEADERS in
     let headers :=
       if truthy cookies then <[u "Cookie" := unquote lib cookies]> headers
       else headers in
     let headers :=
       if truthy_opt range_header
       then <[u "Range" := default [] range_header]> headers
       else headers in
     let* result := fetch_resource resource_url cookies 3 in
     match result with
     | None => raise (HTTPException 500 (Msg (u "Error fetching resource")))
     | Some (content, content_type) =>
         let response_headers : gmap str str :=
           <[u "Accept-Ranges" := u "bytes"]>
             {[ u "Access-Control-Allow-Origin" := u "*" ]} in
         if truthy_opt range_header then
           let response_headers :=
             <[u "Content-Range" :=
                 u "bytes 0-" ++ str_of_Z (Z.of_nat (length content) - 1)
                 ++ u "/" ++ str_of_Z (Z.of_nat (length content))]>
               response_headers in
           ret {| resp_content := BodyBytes content;
                  resp_status := 206;
                  media_type := content_type;
                  resp_headers := response_headers |}
         else
           ret {| resp_content := BodyBytes content;
                  resp_status := 200;
                  media_type := content_type;
                  resp_headers := response_headers |}
     end)
    (fun e =>
       raise (HTTPException 500 (MsgOf (u "Error fetching resource: ") e))).

End Program.

(** ** Runs of the program *)

(** The operations of the program: the three routes and the three helpers
    they call. *)
Inductive Op :=
| OpPing
| OpFetchCookies
| OpFetchM3u8Url
| OpFetchResource (url cookies : str) (retries : nat)
| OpGetPlaylist (url cookies : str)
| OpGetResource (path : str) (request : Request).

(** The state an operation leaves behind. *)
Definition run (lib : Lib) (net : list OutRequest -> OutRequest -> NetResult)
    (op : Op) (w : World) : World :=
  match op with
  | OpPing => snd (ping w)
  | OpFetchCookies => snd (fetch_cookies net w)
  | OpFetchM3u8Url => snd (fetch_m3u8_url lib net w)
  | OpFetchResource url cookies retries =>
      snd (fetch_resource lib net url cookies retries w)
  | OpGetPlaylist url cookies => snd (get_playlist lib net url cookies w)
  | OpGetResource path request => snd (get_resource lib net path request w)
  end.

(** The states the process can be in: it starts with both globals empty and
    runs operations one after the other. *)
Inductive reachable (lib : Lib)
    (net : list OutRequest -> OutRequest -> NetResult) : World -> Prop :=
| reachable_initial : reachable lib net initial
| reachable_run op w :
    reachable lib net w -> reachable lib net (run lib net op w).

(** The requests an operation sent: what it appended to the log. *)
Definition log (w : World) (l : list OutRequest) : World :=
  {| SEGMENT_MAP := SEGMENT_MAP w;
     CACHED_COOKIES := CACHED_COOKIES w;
     sent := sent w ++ l |}.

Definition with_segment_map (m : gmap str str) (w : World) : World :=
  {| SEGMENT_MAP := m;
     CACHED_COOKIES := CACHED_COOKIES w;
     sent := sent w |}.

(** An outbound attempt of [fetch_resource] fails when the call raises an
    [httpx.HTTPError] or the status makes [raise_for_status] raise. *)
Definition attempt_fails (lib : Lib) (r : NetResult) : bool :=
  match r with
  | NetHTTPError => true
  | NetOtherError => false
  | NetResponse response => raise_for_status lib (status_code response)
  end.

(** The request [fetch_resource] sends to a mirror. *)
Definition mirror_request (source_url cookies : str) : OutRequest :=
  {| out_method := GET;
     out_url := source_url;
     out_headers := <[u "Cookie" := cookies]> HEADERS;
     out_json := None |}.

(** [p in body] on bytes. *)
Definition bytes_contain (p body : bytes) : bool :=
  contains (map Byte.to_N p) (map Byte.to_N body).

(** The quoted URI attribute of a key-declaration line, as [rewrite_line]
    reads it: what follows the first [URI=] with its opening quote, up to
    the next quote. *)
Definition uri_attr (line : str) : option str :=
  match item (split (u "URI=" ++ quote) line) 1 with
  | Some after => item (split quote after) 0
  | None => None
  end.

(** A key-declaration line, by the test of [rewrite_line]. *)
Definition is_key_line (line : str) : bool :=
  startswith (u "#EXT-X-KEY") line && contains (u "URI=") line.

(** [c] keeps the property [P] of the state, whether it returns or raises. *)
Definition preserves {A} (P : World -> Prop) (c : M A) : Prop :=
  forall w, P w -> P (snd (c w)).

(** The cache never holds the empty string. *)
Definition cache_ok (w : World) : Prop :=
  forall c, CACHED_COOKIES w = Some c -> truthy c = true.

(** The opening of the URI attribute: [URI=] and the quote. *)
Definition URI_open : str := u "URI=" ++ quote.

(** The key URI of the example and the path it is served under. *)
Definition key_uri : str := u "/a/b/key.bin".
Definition key_path : str := u "a/b/key.bin".

(** The fixed-bucket URL on the panel host for a segment name. *)
Definition bucket_url (name : str) : str :=
  u "https://p2-panel.streamed.su/bucket-44677-gjnru5ktoa/" ++ name.

(** A key-declaration line the rewriter can process: the URI attribute is
    quoted and its value resolves against the request URL. *)
Definition key_line_ok (lib : Lib) (url line : str) : Prop :=
  contains URI_open line = true
  /\ forall uri, uri_attr line = Some uri -> is_Some (urljoin lib url uri).

(** The [SEGMENT_MAP] key a line makes [rewrite_line] write, if any. *)
Definition written_key (line : str) : option str :=
  if is_key_line line then lstrip_chars (u "/") <$> uri_attr line
  else if startswith (u "https://") line then
    replace (u ".js") (u ".ts") <$> last_item (split (u "/") (strip line))
  else None.

(** ** A concrete instance of the library functions

    Small models of the library functions, for running the program on
    concrete requests. *)

Definition hexval (c : N) : option N :=
  if (48 <=? c) && (c <=? 57) then Some (c - 48)
  else if (65 <=? c) && (c <=? 70) then Some (c - 55)
  else if (97 <=? c) && (c <=? 102) then Some (c - 87)
  else None.

(** Percent-decoding of the escapes below [%80], which stand for one ASCII
    character each; other escapes are left as they are.  On text whose
    escapes are all below [%80] this is [urllib.parse.unquote]. *)
Fixpoint unquote_ascii (s : str) : str :=
  match s with
  | [] => []
  | c :: rest =>
      if c =? 37 then
        match rest with
        | h :: l :: rest' =>
            match hexval h, hexval l with
            | Some a, Some b =>
                if a * 16 + b <? 128 then (a * 16 + b) :: unquote_ascii rest'
                else c :: unquote_ascii rest
            | _, _ => c :: unquote_ascii rest
            end
        | _ => c :: unquote_ascii rest
        end
      else c :: unquote_ascii rest
  end.

(** Scheme and netloc of a URL of the shape [scheme://netloc/...]. *)
Definition urlparse_simple (url : str) : option (str * str) :=
  match partition (u "://") url with
  | Some (scheme, rest) => Some (scheme, hd [] (split (u "/") rest))
  | None => Some ([], [])
  end.

(** Resolution of a reference that is an absolute URL or an absolute path;
    any other reference is appended to the base up to its last slash. *)
Definition urljoin_simple (base ref : str) : option str :=
  match urlparse_simple base with
  | Some (scheme, netloc) =>
      if contains (u "://") ref then Some ref
      else if startswith (u "/") ref
      then Some (scheme ++ u "://" ++ netloc ++ ref)
      else Some (join (u "/") (removelast (split (u "/") base)) ++ u "/" ++ ref)
  | None => None
  end.

(** [raise_for_status] raises for every status that is not a 2xx. *)
Definition not_2xx (status : Z) : bool :=
  negb ((200 <=? status)%Z && (status <? 300)%Z).

(** The landing page of the concrete runs names no manifest URL. *)
Definition lib_simple : Lib :=
  {| unquote := unquote_ascii;
     urlparse := urlparse_simple;
     urljoin := urljoin_simple;
     search_m3u8 := fun _ => None;
     raise_for_status := not_2xx |}.

(** An upstream that refuses every connection. *)
Definition net_down (_ : list OutRequest) (_ : OutRequest) : NetResult :=
  NetHTTPError.

(** An upstream that answers every request with the same payload. *)
Definition net_serving (payload : bytes) (_ : list OutRequest)
    (_ : OutRequest) : NetResult :=
  NetResponse {| status_code := 200;
                 up_headers := ∅;
                 content := payload;
                 text := [] |}.

(** An upstream whose handshake endpoint sets one of the required cookies
    and whose other endpoints are down. *)
Definition net_handshake (_ : list OutRequest) (r : OutRequest) : NetResult :=
  match out_method r with
  | POST =>
      NetResponse {| status_code := 200;
                     up_headers := {[ u "set-cookie" := u "__ddg8_=abc; Path=/" ]};
                     content := [];
                     text := [] |}
  | GET => NetHTTPError
  end.

(** An upstream that serves a manifest to the first request it sees and a
    page that is no manifest to every later one. *)
Definition manifest_body : bytes :=
  ub "#EXTM3U" ++ [Byte.x0a]
  ++ ub "#EXT-X-KEY:METHOD=AES-128,URI=" ++ [Byte.x22] ++ ub "/a/b/key.bin"
  ++ [Byte.x22; Byte.x0a]
  ++ ub "https://x/seg1.js" ++ [Byte.x0a].

Definition manifest_text : str :=
  u "#EXTM3U" ++ [10]
  ++ u "#EXT-X-KEY:METHOD=AES-128,URI=" ++ quote ++ u "/a/b/key.bin"
  ++ quote ++ [10]
  ++ u "https://x/seg1.js" ++ [10].

Definition net_manifest_once (h : list OutRequest) (_ : OutRequest)
    : NetResult :=
  match h with
  | [] => net_serving manifest_body h
            {| out_method := GET; out_url := []; out_headers := ∅;
               out_json := None |}
  | _ :: _ => net_serving (ub "<html>gone</html>") h
                {| out_method := GET; out_url := []; out_headers := ∅;
                   out_json := None |}
  end.

(** The state after the handshake has filled the cookie cache. *)
Definition world_with_cookies : World :=
  run lib_simple net_handshake OpFetchCookies initial.

(** The state after one manifest has been served. *)
Definition world_after_manifest : World :=
  run lib_simple net_manifest_once
    (OpGetPlaylist (u "https://x/live.m3u8") (u "a=1")) initial.

(** A manifest whose key line gives its URI without quotes. *)
Definition unquoted_key_body : bytes :=
  ub "#EXTM3U" ++ [Byte.x0a] ++ ub "#EXT-X-KEY:METHOD=AES-128,URI=key.bin".

(** ** The fetcher as one pass over its attempts *)

(** The mirror candidates of a URL, in the order [fetch_resource] tries
    them. *)
Definition candidates (url : str) : list str :=
  [url;
   replace (u "rr.buytommy.top") (u "p2-panel.streamed.su") url;
   replace (u "rr.buytommy.top") (u "flu.streamed.su") url].

(** The URLs of the attempts of one fetch: every candidate as many times
    as there are retries. *)
Definition attempt_urls (url : str) (retries : nat) : list str :=
  flat_map (fun source_url => repeat source_url retries) (candidates url).

(** The requests of the first [n] attempts of a fetch. *)
Definition attempts_sent (url cookies : str) (retries n : nat)
    : list OutRequest :=
  map (fun source_url => mirror_request source_url cookies)
    (take n (attempt_urls url retries)).

(** The content type [fetch_resource] returns with a response. *)
Definition resolved_content_type (source_url : str) (response : UpResponse)
    : str :=
  if endswith (u ".ts") source_url || endswith (u ".js") source_url
  then u "video/mp2t"
  else default (u "application/octet-stream")
         (up_headers response !! u "content-type").

(** One GET per URL of a list, in order, until one returns a response that
    passes [raise_for_status]; the two loops of [fetch_resource] are shown
    to be this pass over [attempt_urls]. *)
Fixpoint try_each (lib : Lib)
    (net : list OutRequest -> OutRequest -> NetResult)
    (headers : gmap str str) (urls : list str) : M (option (bytes * str)) :=
  match urls with
  | [] => ret None
  | source_url :: rest =>
      bind (client_get net source_url headers) (fun r =>
        match r with
        | NetOtherError => raise ClientError
        | NetHTTPError => try_each lib net headers rest
        | NetResponse response =>
            if raise_for_status lib (status_code response)
            then try_each lib net headers rest
            else ret (Some (content response,
                            resolved_content_type source_url response))
        end)
  end.

(** ** The requests of the fallback *)

(** The handshake [fetch_cookies] posts. *)
Definition handshake : OutRequest :=
  {| out_method := POST; out_url := COOKIE_URL; out_headers := HEADERS;
     out_json := Some [(u "event", u "pageview")] |}.

(** The request [fetch_m3u8_url] sends for the landing page. *)
Definition landing : OutRequest :=
  {| out_method := GET; out_url := SOURCE_URL; out_headers := HEADERS;
     out_json := None |}.

(** The state with [c] stored in the cookie cache. *)
Definition cache_store (c : str) (w : World) : World :=
  {| SEGMENT_MAP := SEGMENT_MAP w; CACHED_COOKIES := Some c;
     sent := sent w |}.

(** What the cache holds has been put together by [format_cookies]. *)
Definition cache_formatted (w : World) : Prop :=
  forall c, CACHED_COOKIES w = Some c ->
    truthy c = true /\ exists cookie_dict, c = format_cookies cookie_dict.

(** A cookie name or value: no whitespace, no [=], no [;]. *)
Definition cookie_token (s : str) : Prop :=
  Forall (fun c => isspace c = false) s
  /\ contains (u "=") s = false /\ contains (u ";") s = false.

(** ** Exceptions *)

(** [c] raises nothing but exceptions of [S]. *)
Definition raises_only {A} (S : Exc -> Prop) (c : M A) : Prop :=
  forall w e w', c w = (Raise e, w') -> S e.

(** What can make the manifest route fail. *)
Definition playlist_cause (e : Exc) : Prop :=
  e = IndexError \/ e = ValueError \/ e = UnicodeDecodeError
  \/ e = ClientError \/ e = InvalidManifest
  \/ e = HTTPException 500 (Msg (u "Could not fetch M3U8 URL or cookies"))
  \/ e = HTTPException 500 (Msg (u "Error fetching M3U8")).

(** What can make the resource route fail. *)
Definition resource_cause (e : Exc) : Prop :=
  e = ClientError \/ e = HTTPException 500 (Msg (u "Error fetching resource")).

(** What can make the loop body of the rewriter fail. *)
Definition line_cause (e : Exc) : Prop := e = IndexError \/ e = ValueError.

(** ** More upstreams for concrete runs *)

(** An upstream where only the direct-media host answers. *)
Definition net_flu_only (h : list OutRequest) (r : OutRequest) : NetResult :=
  if startswith (u "https://flu.streamed.su") (out_url r)
  then net_serving (ub "payload") h r else NetHTTPError.

(** An upstream whose client fails outside [httpx.HTTPError] on the
    second request. *)
Definition net_breaks_second (h : list OutRequest) (_ : OutRequest)
    : NetResult :=
  match h with
  | [_] => NetOtherError
  | _ => NetHTTPError
  end.

(** A second manifest, with one segment and no key. *)
Definition second_manifest_body : bytes :=
  ub "#EXTM3U" ++ [Byte.x0a] ++ ub "#EXTINF:4.0," ++ [Byte.x0a]
  ++ ub "https://flu.streamed.su/live/seg2.js" ++ [Byte.x0a].

Definition second_manifest_text : str :=
  u "#EXTM3U" ++ [10] ++ u "#EXTINF:4.0," ++ [10]
  ++ u "https://flu.streamed.su/live/seg2.js" ++ [10].

(** The library of the concrete runs, with a landing page that names a
    manifest URL. *)
Definition lib_found : Lib :=
  {| unquote := unquote_ascii;
     urlparse := urlparse_simple;
     urljoin := urljoin_simple;
     search_m3u8 := fun _ => Some (u "https://fresh/live.m3u8");
     raise_for_status := not_2xx |}.

(** An upstream where the landing page and the manifest it names answer
    and every other endpoint is down. *)
Definition net_fallback (h : list OutRequest) (r : OutRequest) : NetResult :=
  if startswith (u "https://fresh/") (out_url r)
  then net_serving second_manifest_body h r
  else if startswith SOURCE_URL (out_url r)
       then net_serving (ub "<html>page</html>") h r
       else NetHTTPError.

(** The same upstream, with the manifest of the key line behind the URL
    the landing page names. *)
Definition net_fallback_key (h : list OutRequest) (r : OutRequest)
    : NetResult :=
  if startswith (u "https://fresh/") (out_url r)
  then net_serving manifest_body h r
  else if startswith SOURCE_URL (out_url r)
       then net_serving (ub "<html>page</html>") h r
       else NetHTTPError.

(** A key line with an attribute of its own before the URI attribute. *)
Definition alt_uri_key_line : str :=
  u "#EXT-X-KEY:METHOD=AES-128,X-ALT-URI=" ++ quote ++ u "/other.bin" ++ quote
  ++ u ",URI=" ++ quote ++ u "/a/b/key.bin" ++ quote.

(** ** An invariant of the segment map *)

(** No key of [SEGMENT_MAP] begins with a slash. *)
Definition keys_relative (w : World) : Prop :=
  forall k, is_Some (SEGMENT_MAP w !! k) -> startswith (u "/") k = false.

(** ** Facts about the built-ins *)

Module PyFacts.

Example split_ex :
  split (u "; ") (u "a=1; b=2; c") = [u "a=1"; u "b=2"; u "c"].
Proof. reflexivity. Qed.

Example split_overlap_ex : split (u "aa") (u "aaa") = [[]; u "a"].
Proof. reflexivity. Qed.

Example replace_ex : replace (u ".js") (u ".ts") (u "seg.js") = u "seg.ts".
Proof. reflexivity. Qed.

Example replace_empty_ex : replace [] (u "/") (u "abc") = u "/a/b/c/".
Proof. reflexivity. Qed.

Example strip_ex : strip (u "  a b" ++ [9; 10]) = u "a b".
Proof. reflexivity. Qed.

Example lstrip_chars_ex : lstrip_chars (u "_") (u "__ddg8_") = u "ddg8_".
Proof. reflexivity. Qed.

Example splitlines_ex :
  splitlines (u "#EXTM3U" ++ [10] ++ u "a" ++ [13; 10; 10] ++ u "b" ++ [10])
  = [u "#EXTM3U"; u "a"; []; u "b"].
Proof. reflexivity. Qed.

Example str_of_Z_ex :
  str_of_Z (-1) = u "-1" /\ str_of_Z 0 = u "0" /\ str_of_Z 120 = u "120".
Proof. repeat split; reflexivity. Qed.

Example decode_utf8_ex :
  decode_utf8 (ub "a" ++ [Byte.xe2; Byte.x82; Byte.xac]) = Some [97; 0x20AC]
  /\ decode_utf8 [Byte.xff] = None
  /\ decode_utf8 [Byte.xc0; Byte.x80] = None
  /\ decode_utf8 [Byte.xed; Byte.xa0; Byte.x80] = None.
Proof. repeat split; reflexivity. Qed.

Example unquote_ascii_ex :
  unquote_ascii (u "a%3D1%3B+b%zz") = u "a=1;+b%zz".
Proof. reflexivity. Qed.

Lemma startswith_app (p t : str) : startswith p (p ++ t) = true.
Proof.
  induction p as [|a p IH]; simpl; [reflexivity|].
  rewrite N.eqb_refl. exact IH.
Qed.

Lemma startswith_inv (p s : str) :
  startswith p s = true -> s = p ++ drop (length p) s.
Proof.
  revert s. induction p as [|a p IH]; intros [|c s] H; simpl in *;
    try reflexivity; try discriminate.
  apply andb_true_iff in H as [Hac Hps].
  apply N.eqb_eq in Hac. subst c. f_equal. apply IH, Hps.
Qed.

Lemma startswith_length (p s : str) :
  startswith p s = true -> (length p <= length s)%nat.
Proof.
  intros H. apply startswith_inv in H.
  rewrite H at 1. rewrite length_app. lia.
Qed.

Lemma partition_inv (sep s a t : str) :
  partition sep s = Some (a, t) -> s = a ++ sep ++ t.
Proof.
  revert a t. induction s as [|c s IH]; intros a t; simpl.
  - destruct (startswith sep []) eqn:E; [|discriminate].
    intros [= <- <-]. simpl. apply (startswith_inv sep [] E).
  - destruct (startswith sep (c :: s)) eqn:E.
    + intros [= <- <-]. simpl. apply (startswith_inv sep (c :: s) E).
    + destruct (partition sep s) as [[a' t']|]; [|discriminate].
      intros [= <- <-]. simpl. f_equal. apply IH. reflexivity.
Qed.

Lemma partition_shorter (sep s a t : str) :
  sep <> [] -> partition sep s = Some (a, t) -> (length t < length s)%nat.
Proof.
  intros Hsep H. apply partition_inv in H. subst s.
  rewrite !length_app. destruct sep; [congruence|]. simpl. lia.
Qed.

Lemma split_fuel_enough (sep : str) (n m : nat) (s : str) :
  sep <> [] -> (length s < n)%nat -> (length s < m)%nat ->
  split_fuel n sep s = split_fuel m sep s.
Proof.
  intros Hsep. revert m s. induction n as [|n IH]; intros m s Hn Hm; [lia|].
  destruct m as [|m]; [lia|]. simpl.
  destruct (partition sep s) as [[a t]|] eqn:E; [|reflexivity].
  f_equal. pose proof (partition_shorter sep s a t Hsep E).
  apply IH; lia.
Qed.

(** The equation of [split]: cut at the first separator, go on after it. *)
Lemma split_unfold (sep s : str) :
  sep <> [] ->
  split sep s = match partition sep s with
                | None => [s]
                | Some (a, t) => a :: split sep t
                end.
Proof.
  intros Hsep. unfold split at 1. cbn [split_fuel].
  destruct (partition sep s) as [[a t]|] eqn:E; [|reflexivity].
  f_equal. pose proof (partition_shorter sep s a t Hsep E).
  unfold split. apply split_fuel_enough; [assumption|lia..].
Qed.

Lemma split_nonempty (sep s : str) : split sep s <> [].
Proof.
  unfold split. simpl. destruct (partition sep s) as [[a t]|]; discriminate.
Qed.

Lemma split_item0 (sep s : str) : is_Some (item (split sep s) 0).
Proof.
  unfold split, item. simpl.
  destruct (partition sep s) as [[a t]|]; simpl; eauto.
Qed.

Lemma join_cons (sep x : str) (l : list str) :
  l <> [] -> join sep (x :: l) = x ++ sep ++ join sep l.
Proof. destruct l; [congruence|reflexivity]. Qed.

(** Joining the pieces with the separator gives the text back. *)
Lemma join_split (sep s : str) : sep <> [] -> join sep (split sep s) = s.
Proof.
  intros Hsep.
  induction s as [s IH] using (induction_ltof1 _ (@length N)).
  unfold ltof in IH.
  rewrite split_unfold by assumption.
  destruct (partition sep s) as [[a t]|] eqn:E; [|reflexivity].
  rewrite join_cons by apply split_nonempty.
  rewrite IH by (eapply partition_shorter; eassumption).
  symmetry. apply partition_inv, E.
Qed.

(** Replacing a non-empty text by itself changes nothing. *)
Lemma replace_same (old s : str) : old <> [] -> replace old old s = s.
Proof.
  intros H. unfold replace. destruct old; [congruence|].
  apply join_split. discriminate.
Qed.

Lemma contains_startswith (p s : str) :
  startswith p s = true -> contains p s = true.
Proof. intros H. destruct s; simpl; rewrite H; reflexivity. Qed.

Lemma contains_app (p a t : str) : contains p (a ++ p ++ t) = true.
Proof.
  induction a as [|c a IH].
  - change ([] ++ p ++ t) with (p ++ t).
    apply contains_startswith, startswith_app.
  - simpl. rewrite IH. apply orb_true_r.
Qed.

Lemma contains_inv (p s : str) :
  contains p s = true -> exists a t, s = a ++ p ++ t.
Proof.
  induction s as [|c s IH]; simpl; intros H.
  - rewrite orb_false_r in H. exists [], (drop (length p) []).
    apply (startswith_inv p [] H).
  - apply orb_true_iff in H as [H|H].
    + exists [], (drop (length p) (c :: s)). apply (startswith_inv _ _ H).
    + destruct (IH H) as (a & t & ->). exists (c :: a), t. reflexivity.
Qed.

(** [partition] finds a separator exactly when it occurs. *)
Lemma partition_None (sep s : str) :
  partition sep s = None <-> contains sep s = false.
Proof.
  induction s as [|c s IH]; simpl.
  - destruct (startswith sep []); simpl; split; congruence.
  - destruct (startswith sep (c :: s)); simpl; [split; congruence|].
    rewrite <- IH. destruct (partition sep s) as [[a t]|]; split; congruence.
Qed.

Lemma split_no_sep (sep s : str) :
  contains sep s = false -> split sep s = [s].
Proof.
  intros H. apply partition_None in H. unfold split. cbn [split_fuel].
  rewrite H. reflexivity.
Qed.

Lemma item1_split (sep s : str) :
  sep <> [] -> contains sep s = true -> is_Some (item (split sep s) 1).
Proof.
  intros Hsep Hc. rewrite split_unfold by assumption.
  destruct (partition sep s) as [[a t]|] eqn:E.
  - apply (split_item0 sep t).
  - apply partition_None in E. congruence.
Qed.

Lemma last_item_split (sep s : str) : is_Some (last_item (split sep s)).
Proof. apply last_is_Some, split_nonempty. Qed.

(** *** Stripping text that neither starts nor ends with whitespace *)

Lemma lstrip_nonspace (c : N) (s : str) :
  isspace c = false -> lstrip (c :: s) = c :: s.
Proof. intros H. cbn [lstrip]. rewrite H. reflexivity. Qed.

Lemma rstrip_nonspace (s : str) (d : N) :
  isspace d = false -> rstrip (s ++ [d]) = s ++ [d].
Proof.
  intros H. unfold rstrip. rewrite rev_unit, lstrip_nonspace by assumption.
  cbn [rev]. rewrite rev_involutive. reflexivity.
Qed.

Lemma strip_nonspace (c d : N) (s : str) :
  isspace c = false -> isspace d = false ->
  strip (c :: s ++ [d]) = c :: s ++ [d].
Proof.
  intros Hc Hd. unfold strip. rewrite lstrip_nonspace by assumption.
  apply (rstrip_nonspace (c :: s) d Hd).
Qed.

(** *** Splitting at a single character *)

Lemma split1_cons_eq (c : N) (s : str) :
  split [c] (c :: s) = [] :: split [c] s.
Proof.
  rewrite split_unfold by discriminate. cbn [partition startswith].
  rewrite N.eqb_refl. reflexivity.
Qed.

Lemma split1_cons_ne (c x : N) (s : str) :
  x <> c ->
  split [c] (x :: s)
  = match split [c] s with
    | a :: l => (x :: a) :: l
    | [] => []
    end.
Proof.
  intros Hne. rewrite (split_unfold [c] (x :: s)) by discriminate.
  rewrite (split_unfold [c] s) by discriminate.
  cbn [partition startswith].
  assert ((c =? x) = false) as -> by (apply N.eqb_neq; congruence).
  cbn [andb]. destruct (partition [c] s) as [[a t]|]; reflexivity.
Qed.

Lemma split1_app (c : N) (a t : str) :
  split [c] (a ++ c :: t) = split [c] a ++ split [c] t.
Proof.
  induction a as [|x a IH].
  - cbn [app]. rewrite split1_cons_eq. reflexivity.
  - cbn [app]. destruct (N.eq_dec x c) as [->|Hne].
    + rewrite !split1_cons_eq, IH. reflexivity.
    + rewrite !split1_cons_ne, IH by assumption.
      pose proof (split_nonempty [c] a).
      destruct (split [c] a); [congruence|reflexivity].
Qed.

(** The last piece is what follows the last separator. *)
Lemma last_split1 (c : N) (a t : str) :
  contains [c] t = false ->
  last_item (split [c] (a ++ c :: t)) = Some t.
Proof.
  intros Ht. rewrite split1_app, (split_no_sep [c] t Ht).
  unfold last_item. apply last_snoc.
Qed.

End PyFacts.

Import PyFacts.

(** ** The state-and-exception monad *)

Lemma log_nil (w : World) : log w [] = w.
Proof. destruct w. unfold log. simpl. rewrite app_nil_r. reflexivity. Qed.

Lemma log_log (w : World) (l1 l2 : list OutRequest) :
  log (log w l1) l2 = log w (l1 ++ l2).
Proof. unfold log. simpl. rewrite app_assoc. reflexivity. Qed.

Lemma bind_ok {A B} (c : M A) (k : A -> M B) (w w' : World) (a : A) :
  c w = (Ok a, w') -> bind c k w = k a w'.
Proof. intros H. unfold bind. rewrite H. reflexivity. Qed.

Lemma bind_raise {A B} (c : M A) (k : A -> M B) (w w' : World) (e : Exc) :
  c w = (Raise e, w') -> bind c k w = (Raise e, w').
Proof. intros H. unfold bind. rewrite H. reflexivity. Qed.

(** ** The fetcher *)

Section FetcherFacts.

Context (lib : Lib) (net : list OutRequest -> OutRequest -> NetResult).

Lemma client_get_run (url : str) (headers : gmap str str) (w : World) :
  client_get net url headers w
  = (Ok (net (sent w)
           {| out_method := GET; out_url := url; out_headers := headers;
              out_json := None |}),
     log w [{| out_method := GET; out_url := url; out_headers := headers;
               out_json := None |}]).
Proof. reflexivity. Qed.

(** When every attempt fails, the loop over the attempts makes all of them
    and ends without a result. *)
Lemma fetch_attempts_all_fail (source_url : str) (headers : gmap str str)
    (retries : nat) :
  let req := {| out_method := GET; out_url := source_url;
                out_headers := headers; out_json := None |} in
  (forall h, attempt_fails lib (net h req) = true) ->
  forall (n a : nat) (w : World),
    (a + n = S retries)%nat ->
    fetch_attempts lib net source_url headers retries (seq a n) w
    = (Ok None, log w (repeat req n)).
Proof.
  intros req Hfail n. induction n as [|n IH]; intros a w Han.
  - simpl. rewrite log_nil. reflexivity.
  - cbn [seq fetch_attempts repeat].
    unfold bind at 1. rewrite client_get_run. fold req.
    specialize (Hfail (sent w)).
    assert (Hnext :
      (if Nat.eqb a retries then ret None
       else fetch_attempts lib net source_url headers retries (seq (S a) n))
        (log w [req])
      = (Ok None, log w (req :: repeat req n))).
    { destruct (Nat.eqb_spec a retries) as [->|Hne].
      - assert (n = 0%nat) as -> by lia. reflexivity.
      - rewrite IH by lia. rewrite log_log. reflexivity. }
    destruct (net (sent w) req) as [| |response]; simpl in Hfail.
    + exact Hnext.
    + discriminate.
    + rewrite Hfail. exact Hnext.
Qed.

Lemma fetch_sources_all_fail (headers : gmap str str) (retries : nat)
    (sources : list str) :
  (forall h r, out_method r = GET -> attempt_fails lib (net h r) = true) ->
  forall w : World,
    fetch_sources lib net sources headers retries w
    = (Ok None,
       log w (flat_map
                (fun source_url =>
                   repeat {| out_method := GET; out_url := source_url;
                             out_headers := headers; out_json := None |}
                     retries)
                sources)).
Proof.
  intros Hfail. induction sources as [|source_url rest IH]; intros w.
  - simpl. rewrite log_nil. reflexivity.
  - cbn [fetch_sources flat_map].
    erewrite bind_ok; cycle 1.
    { apply (fetch_attempts_all_fail source_url headers retries);
        [intros h; apply Hfail; reflexivity | lia]. }
    rewrite IH, log_log. reflexivity.
Qed.

End FetcherFacts.

(** C5.  When every outbound GET fails, by an [httpx.HTTPError] or by a
    status for which [raise_for_status] raises, [fetch_resource] with its
    three retries sends exactly nine requests, three to each of the three
    mirror candidates in candidate order, and then returns [None]; it
    raises nothing. *)
Theorem fetch_resource_all_fail
    (lib : Lib) (net : list OutRequest -> OutRequest -> NetResult)
    (url cookies : str) (w : World) :
  (forall h r, out_method r = GET -> attempt_fails lib (net h r) = true) ->
  let c1 := mirror_request url cookies in
  let c2 := mirror_request
              (replace (u "rr.buytommy.top") (u "p2-panel.streamed.su") url)
              cookies in
  let c3 := mirror_request
              (replace (u "rr.buytommy.top") (u "flu.streamed.su") url)
              cookies in
  fetch_resource lib net url cookies 3 w
  = (Ok None, log w [c1; c1; c1; c2; c2; c2; c3; c3; c3])
  /\ length [c1; c1; c1; c2; c2; c2; c3; c3; c3] = 9%nat.
Proof.
  intros Hfail c1 c2 c3. split; [|reflexivity].
  unfold fetch_resource.
  rewrite (fetch_sources_all_fail lib net _ 3 _ Hfail).
  reflexivity.
Qed.

(** The mirror candidates of a relay URL, tried in order until the last
    one answers; a segment URL forces the transport-stream content type. *)
Example fetch_resource_third_mirror :
  fetch_resource lib_simple
    (fun h r =>
       if startswith (u "https://flu.streamed.su") (out_url r)
       then net_serving (ub "payload") h r else NetHTTPError)
    (u "https://rr.buytommy.top/seg1.js") (u "a=1") 3 initial
  = (Ok (Some (ub "payload", u "video/mp2t")),
     log initial
       [mirror_request (u "https://rr.buytommy.top/seg1.js") (u "a=1");
        mirror_request (u "https://rr.buytommy.top/seg1.js") (u "a=1");
        mirror_request (u "https://rr.buytommy.top/seg1.js") (u "a=1");
        mirror_request (u "https://p2-panel.streamed.su/seg1.js") (u "a=1");
        mirror_request (u "https://p2-panel.streamed.su/seg1.js") (u "a=1");
        mirror_request (u "https://p2-panel.streamed.su/seg1.js") (u "a=1");
        mirror_request (u "https://flu.streamed.su/seg1.js") (u "a=1")]).
Proof. vm_compute. reflexivity. Qed.

Lemma fetch_resource_all_fail_witness :
  fst (fetch_resource lib_simple net_down
         (u "https://rr.buytommy.top/x") (u "a=1") 3 initial) = Ok None
  /\ length (sent (snd (fetch_resource lib_simple net_down
                          (u "https://rr.buytommy.top/x") (u "a=1") 3
                          initial))) = 9%nat.
Proof.
  destruct (fetch_resource_all_fail lib_simple net_down
              (u "https://rr.buytommy.top/x") (u "a=1") initial)
    as [H _].
  - intros h r _. reflexivity.
  - rewrite H. split; reflexivity.
Defined.

(** ** What the operations leave unchanged *)

Lemma preserves_ret {A} (P : World -> Prop) (a : A) : preserves P (ret a).
Proof. intros w Hw. exact Hw. Qed.

Lemma preserves_raise {A} (P : World -> Prop) (e : Exc) :
  preserves P (@raise A e).
Proof. intros w Hw. exact Hw. Qed.

Lemma preserves_bind {A B} (P : World -> Prop) (c : M A) (k : A -> M B) :
  preserves P c -> (forall a, preserves P (k a)) -> preserves P (bind c k).
Proof.
  intros Hc Hk w Hw. unfold bind. specialize (Hc w Hw).
  destruct (c w) as [[a|e] w']; simpl in *; [apply Hk|]; assumption.
Qed.

Lemma preserves_try_except {A} (P : World -> Prop) (c : M A)
    (h : Exc -> M A) :
  preserves P c -> (forall e, preserves P (h e)) ->
  preserves P (try_except c h).
Proof.
  intros Hc Hh w Hw. unfold try_except. specialize (Hc w Hw).
  destruct (c w) as [[a|e] w']; simpl in *; [|apply Hh]; assumption.
Qed.

Lemma preserves_index {A} (P : World -> Prop) (o : option A) :
  preserves P (index o).
Proof. destruct o; [apply preserves_ret|apply preserves_raise]. Qed.

Lemma preserves_or_ValueError {A} (P : World -> Prop) (o : option A) :
  preserves P (or_ValueError o).
Proof. destruct o; [apply preserves_ret|apply preserves_raise]. Qed.

Create HintDb pres.
#[export] Hint Resolve preserves_ret preserves_raise preserves_index
  preserves_or_ValueError : pres.

(** One step of a preservation proof: follow the structure of the code. *)
Ltac pres_step :=
  lazymatch goal with
  | |- preserves _ (bind _ _) => apply preserves_bind; [|intros ?]
  | |- preserves _ (try_except _ _) =>
      apply preserves_try_except; [|intros ?]
  | |- preserves _ (match ?x with _ => _ end) => destruct x
  | |- preserves _ (let x := _ in _) => intros x
  | |- _ => solve [auto with pres]
  end.

Ltac pres := repeat pres_step.

Section FrameOfRewriter.

Context (lib : Lib).
Context (P : World -> Prop).
(** [P] does not look at [SEGMENT_MAP]. *)
Hypothesis P_map : forall w m, P w -> P (with_segment_map m w).

Lemma preserves_segment_map_clear : preserves P segment_map_clear.
Proof. intros w Hw. apply (P_map w ∅ Hw). Qed.

Lemma preserves_segment_map_set (k v : str) :
  preserves P (segment_map_set k v).
Proof. intros w Hw. apply (P_map w _ Hw). Qed.

Hint Resolve preserves_segment_map_clear preserves_segment_map_set : pres.

Lemma preserves_rewrite_line (url line : str) :
  preserves P (rewrite_line lib url line).
Proof. unfold rewrite_line. pres. Qed.

Hint Resolve preserves_rewrite_line : pres.

Lemma preserves_rewrite_lines (url : str) (m3u8_lines : list str) :
  preserves P (rewrite_lines lib url m3u8_lines).
Proof.
  induction m3u8_lines as [|line rest IH]; cbn [rewrite_lines]; pres.
Qed.

Hint Resolve preserves_rewrite_lines : pres.

Lemma preserves_rewrite (url : str) (body : bytes) :
  preserves P (rewrite lib url body).
Proof. unfold rewrite. pres. Qed.

End FrameOfRewriter.

Section Frame.

Context (lib : Lib) (net : list OutRequest -> OutRequest -> NetResult).
Context (P : World -> Prop).
(** [P] does not look at the log of outbound requests. *)
Hypothesis P_log : forall w l, P w -> P (log w l).

Lemma preserves_send (r : OutRequest) : preserves P (send net r).
Proof. intros w Hw. apply (P_log w [r] Hw). Qed.

Lemma preserves_client_get (url : str) (headers : gmap str str) :
  preserves P (client_get net url headers).
Proof. apply preserves_send. Qed.

Lemma preserves_client_post (url : str) (json : list (str * str))
    (headers : gmap str str) :
  preserves P (client_post net url json headers).
Proof. apply preserves_send. Qed.

Hint Resolve preserves_client_get preserves_client_post : pres.

Lemma preserves_fetch_m3u8_url : preserves P (fetch_m3u8_url lib net).
Proof. unfold fetch_m3u8_url. pres. Qed.

Lemma preserves_fetch_attempts (source_url : str) (headers : gmap str str)
    (retries : nat) (attempts : list nat) :
  preserves P (fetch_attempts lib net source_url headers retries attempts).
Proof.
  induction attempts as [|attempt rest IH]; cbn [fetch_attempts]; pres.
Qed.

Hint Resolve preserves_fetch_attempts : pres.

Lemma preserves_fetch_sources (sources : list str) (headers : gmap str str)
    (retries : nat) :
  preserves P (fetch_sources lib net sources headers retries).
Proof.
  induction sources as [|source_url rest IH]; cbn [fetch_sources]; pres.
Qed.

Lemma preserves_fetch_resource (url cookies : str) (retries : nat) :
  preserves P (fetch_resource lib net url cookies retries).
Proof. apply preserves_fetch_sources. Qed.

Lemma preserves_normalize_pairs (pairs : list str) :
  preserves P (normalize_pairs pairs).
Proof.
  induction pairs as [|p rest IH]; cbn [normalize_pairs];
    unfold normalize_pair; pres.
Qed.

Lemma preserves_normalize_cookies (cookies : str) :
  preserves P (normalize_cookies lib cookies).
Proof.
  unfold normalize_cookies.
  apply preserves_bind; [apply preserves_normalize_pairs|intros; pres].
Qed.

Hint Resolve preserves_fetch_m3u8_url preserves_fetch_resource
  preserves_normalize_cookies : pres.

(** On top of that, [fetch_cookies] keeps [P]. *)
Hypothesis P_fetch_cookies : preserves P (fetch_cookies net).

Hint Resolve P_fetch_cookies : pres.

Lemma preserves_obtain_manifest (url cookies : str) :
  preserves P (obtain_manifest lib net url cookies).
Proof. unfold obtain_manifest. pres. Qed.

(** And [P] does not look at [SEGMENT_MAP]. *)
Hypothesis P_map : forall w m, P w -> P (with_segment_map m w).

Lemma preserves_segment_map_read : preserves P segment_map_read.
Proof. intros w Hw. exact Hw. Qed.

Lemma preserves_rewrite_here (url : str) (body : bytes) :
  preserves P (rewrite lib url body).
Proof. apply preserves_rewrite, P_map. Qed.

Hint Resolve preserves_segment_map_read preserves_obtain_manifest
  preserves_rewrite_here : pres.

Lemma preserves_get_playlist (url cookies : str) :
  preserves P (get_playlist lib net url cookies).
Proof. unfold get_playlist. pres. Qed.

Lemma preserves_get_resource (path : str) (request : Request) :
  preserves P (get_resource lib net path request).
Proof. unfold get_resource. pres. Qed.

Lemma preserves_run (op : Op) (w : World) : P w -> P (run lib net op w).
Proof.
  intros Hw. destruct op; cbn [run].
  - exact Hw.
  - apply P_fetch_cookies, Hw.
  - apply preserves_fetch_m3u8_url, Hw.
  - apply preserves_fetch_resource, Hw.
  - apply preserves_get_playlist, Hw.
  - apply preserves_get_resource, Hw.
Qed.

End Frame.

(** ** The cookie cache *)

Section CookieCache.

Context (lib : Lib) (net : list OutRequest -> OutRequest -> NetResult).

(** With a non-empty cached value, [fetch_cookies] returns it at once:
    the state and the log of outbound requests are as they were. *)
Lemma fetch_cookies_cached (w : World) (c : str) :
  CACHED_COOKIES w = Some c -> truthy c = true ->
  fetch_cookies net w = (Ok (Some c), w).
Proof.
  intros Hc Ht. unfold fetch_cookies, bind, cached_cookies_get.
  rewrite Hc. cbn [truthy_opt]. rewrite Ht. reflexivity.
Qed.

Lemma fetch_cookies_keeps_cache (c : str) :
  truthy c = true ->
  preserves (fun w => CACHED_COOKIES w = Some c) (fetch_cookies net).
Proof.
  intros Ht w Hw. rewrite (fetch_cookies_cached w c Hw Ht). exact Hw.
Qed.

Lemma fetch_cookies_cache_ok : preserves cache_ok (fetch_cookies net).
Proof.
  intros w Hw. unfold fetch_cookies, bind, cached_cookies_get.
  destruct (truthy_opt (CACHED_COOKIES w)); [exact Hw|].
  unfold client_post, send.
  destruct (net _ _) as [| |response]; try exact Hw.
  destruct (up_headers response !! u "set-cookie") as [cookies|];
    [|exact Hw].
  destruct (truthy cookies); [|exact Hw]. cbn [negb].
  destruct (truthy (format_cookies _)) eqn:Hf; [|exact Hw].
  intros c [= <-]. exact Hf.
Qed.

Lemma reachable_cache_ok (w : World) : reachable lib net w -> cache_ok w.
Proof.
  induction 1 as [|op w Hr IH].
  - intros c [=].
  - apply (preserves_run lib net cache_ok); try assumption.
    + intros w' l Hw'. exact Hw'.
    + apply fetch_cookies_cache_ok.
    + intros w' m Hw'. exact Hw'.
Qed.

Lemma run_keeps_cache (c : str) (op : Op) (w : World) :
  truthy c = true -> CACHED_COOKIES w = Some c ->
  CACHED_COOKIES (run lib net op w) = Some c.
Proof.
  intros Ht.
  apply (preserves_run lib net (fun w => CACHED_COOKIES w = Some c)).
  - intros w' l Hw'. exact Hw'.
  - apply fetch_cookies_keeps_cache, Ht.
  - intros w' m Hw'. exact Hw'.
Qed.

End CookieCache.

(** C7.  In every state the process can reach with the cookie cache
    populated, [fetch_cookies] returns the cached value at once, sending no
    request and changing nothing; and whatever operations run afterwards,
    whether their fetches fail or not, the cache still holds that value. *)
Theorem cookie_cache_kept
    (lib : Lib) (net : list OutRequest -> OutRequest -> NetResult)
    (w : World) (c : str) :
  reachable lib net w ->
  CACHED_COOKIES w = Some c ->
  fetch_cookies net w = (Ok (Some c), w)
  /\ forall ops : list Op,
       CACHED_COOKIES (foldl (fun w' op => run lib net op w') w ops) = Some c.
Proof.
  intros Hr Hc.
  assert (Ht : truthy c = true) by (apply (reachable_cache_ok lib net w Hr c Hc)).
  split; [apply fetch_cookies_cached; assumption|].
  intros ops. revert w Hc Hr. induction ops as [|op ops IH]; intros w Hc Hr.
  - exact Hc.
  - cbn [foldl]. apply IH.
    + apply run_keeps_cache; assumption.
    + apply reachable_run, Hr.
Qed.

Lemma cookie_cache_kept_witness :
  CACHED_COOKIES world_with_cookies = Some (u "ddg8_=abc")
  /\ fetch_cookies net_handshake world_with_cookies
     = (Ok (Some (u "ddg8_=abc")), world_with_cookies)
  /\ CACHED_COOKIES
       (run lib_simple net_handshake
          (OpFetchResource (u "https://rr.buytommy.top/x") (u "a=1") 3)
          world_with_cookies)
     = Some (u "ddg8_=abc").
Proof.
  assert (Hc : CACHED_COOKIES world_with_cookies = Some (u "ddg8_=abc"))
    by reflexivity.
  destruct (cookie_cache_kept lib_simple net_handshake world_with_cookies
              (u "ddg8_=abc")) as [H1 H2].
  - apply reachable_run, reachable_initial.
  - exact Hc.
  - split; [exact Hc|]. split; [exact H1|].
    exact (H2 [OpFetchResource (u "https://rr.buytommy.top/x") (u "a=1") 3]).
Defined.

(** ** Decoding keeps ASCII text in place *)

Ltac bool_to_prop :=
  repeat match goal with
  | H : _ && _ = true |- _ => apply andb_true_iff in H as [? ?]
  | H : (_ <=? _) = true |- _ => apply N.leb_le in H
  | H : (_ <? _) = true |- _ => apply N.ltb_lt in H
  | H : (_ <? _) = false |- _ => apply N.ltb_ge in H
  | H : (_ =? _) = true |- _ => apply N.eqb_eq in H
  | H : (_ =? _) = false |- _ => apply N.eqb_neq in H
  end.

(** The first code point comes from a first chunk of one to four bytes,
    and a code point below 128 from the one byte equal to it. *)
Lemma decode_N_cons (bs : list N) (c : N) (cps : str) :
  decode_N bs = Some (c :: cps) ->
  exists chunk rest,
    bs = chunk ++ rest /\ decode_N rest = Some cps
    /\ (c < 128 -> chunk = [c]).
Proof.
  destruct bs as [|b0 r0]; cbn [decode_N]; [discriminate|].
  destruct (b0 <? 128) eqn:E0.
  { destruct (decode_N r0) eqn:D; [|discriminate]. intros [= <- <-].
    exists [b0], r0. auto. }
  destruct r0 as [|b1 r1]; [discriminate|].
  destruct ((194 <=? b0) && (b0 <=? 223)) eqn:E1.
  { destruct (cont b1) eqn:C1; [|discriminate].
    destruct (decode_N r1) eqn:D; [|discriminate]. intros [= <- <-].
    exists [b0; b1], r1. repeat split; [assumption|].
    unfold cont in *. bool_to_prop. lia. }
  destruct r1 as [|b2 r2]; [discriminate|].
  destruct ((224 <=? b0) && (b0 <=? 239)) eqn:E2.
  { match goal with
    | |- (if ?t then _ else _) = _ -> _ => destruct t eqn:C
    end; [|discriminate].
    destruct (decode_N r2) eqn:D; [|discriminate]. intros [= <- <-].
    exists [b0; b1; b2], r2. repeat split; [assumption|].
    unfold cont in *.
    destruct (b0 =? 224) eqn:?; [|destruct (b0 =? 237) eqn:?];
      bool_to_prop; lia. }
  destruct r2 as [|b3 r3]; [discriminate|].
  destruct ((240 <=? b0) && (b0 <=? 244)) eqn:E3; [|discriminate].
  match goal with
  | |- (if ?t then _ else _) = _ -> _ => destruct t eqn:C
  end; [|discriminate].
  destruct (decode_N r3) eqn:D; [|discriminate]. intros [= <- <-].
  exists [b0; b1; b2; b3], r3. repeat split; [assumption|].
  unfold cont in *.
  destruct (b0 =? 240) eqn:?; [|destruct (b0 =? 244) eqn:?];
    bool_to_prop; lia.
Qed.

Lemma decode_N_app (a x : str) (bs : list N) :
  decode_N bs = Some (a ++ x) ->
  exists a' bs', bs = a' ++ bs' /\ decode_N bs' = Some x.
Proof.
  revert bs. induction a as [|c a IH]; intros bs H.
  - exists [], bs. auto.
  - destruct (decode_N_cons bs c (a ++ x) H) as (chunk & rest & -> & Hr & _).
    destruct (IH rest Hr) as (a' & bs' & -> & Hx).
    exists (chunk ++ a'), bs'. rewrite app_assoc. auto.
Qed.

Lemma decode_N_ascii_prefix (p t : str) (bs : list N) :
  Forall (fun c => c < 128) p ->
  decode_N bs = Some (p ++ t) -> exists t', bs = p ++ t'.
Proof.
  intros Hp. revert bs. induction Hp as [|c p Hc Hp IH]; intros bs H.
  - exists bs. reflexivity.
  - destruct (decode_N_cons bs c (p ++ t) H) as (chunk & rest & -> & Hr & Hk).
    rewrite (Hk Hc). destruct (IH rest Hr) as (t' & ->).
    exists t'. reflexivity.
Qed.

(** ASCII text found in the decoded text is in the bytes. *)
Lemma decode_N_contains (p cps : str) (bs : list N) :
  Forall (fun c => c < 128) p ->
  decode_N bs = Some cps -> contains p cps = true -> contains p bs = true.
Proof.
  intros Hp Hd Hc.
  destruct (PyFacts.contains_inv p cps Hc) as (a & t & ->).
  destruct (decode_N_app a (p ++ t) bs Hd) as (a' & bs' & -> & Hd').
  destruct (decode_N_ascii_prefix p t bs' Hp Hd') as (t' & ->).
  apply PyFacts.contains_app.
Qed.

(** A body whose bytes lack the marker decodes, if it decodes at all, to a
    text that lacks it. *)
Lemma marker_in_text_in_bytes (body : bytes) (m3u8_content : str) :
  decode_utf8 body = Some m3u8_content ->
  contains (u "#EXTM3U") m3u8_content = true ->
  bytes_contain (ub "#EXTM3U") body = true.
Proof.
  intros Hd Hc. unfold bytes_contain.
  apply (decode_N_contains (u "#EXTM3U") m3u8_content _); try assumption.
  repeat constructor.
Qed.

(** ** The manifest rewriter *)

Section RewriterFacts.

Context (lib : Lib).

Lemma rewrite_undecodable (url : str) (body : bytes) (w : World) :
  decode_utf8 body = None ->
  rewrite lib url body w = (Raise UnicodeDecodeError, w).
Proof. intros H. unfold rewrite. rewrite H. reflexivity. Qed.

Lemma rewrite_no_marker (url : str) (body : bytes) (m3u8_content : str)
    (w : World) :
  decode_utf8 body = Some m3u8_content ->
  contains (u "#EXTM3U") m3u8_content = false ->
  rewrite lib url body w = (Raise InvalidManifest, w).
Proof. intros H Hc. unfold rewrite. rewrite H, Hc. reflexivity. Qed.

(** Without the marker in its bytes, the body is refused before the
    segment map is touched. *)
Lemma rewrite_refuses (url : str) (body : bytes) (w : World) :
  bytes_contain (ub "#EXTM3U") body = false ->
  rewrite lib url body w
  = (Raise (match decode_utf8 body with
            | Some _ => InvalidManifest
            | None => UnicodeDecodeError
            end), w).
Proof.
  intros Hb. destruct (decode_utf8 body) as [m3u8_content|] eqn:Hd.
  - apply (rewrite_no_marker url body m3u8_content w Hd).
    destruct (contains (u "#EXTM3U") m3u8_content) eqn:Hc; [|reflexivity].
    rewrite (marker_in_text_in_bytes body m3u8_content Hd Hc) in Hb.
    discriminate.
  - apply rewrite_undecodable, Hd.
Qed.

End RewriterFacts.

(** Fetching the manifest, fallback included, leaves [SEGMENT_MAP] alone. *)
Lemma fetch_cookies_keeps_segment_map
    (net : list OutRequest -> OutRequest -> NetResult) (m : gmap str str) :
  preserves (fun w => SEGMENT_MAP w = m) (fetch_cookies net).
Proof.
  intros w Hw. unfold fetch_cookies, bind, cached_cookies_get.
  destruct (truthy_opt (CACHED_COOKIES w)); [exact Hw|].
  unfold client_post, send.
  destruct (net _ _) as [| |response]; try exact Hw.
  destruct (up_headers response !! u "set-cookie") as [c|]; [|exact Hw].
  destruct (truthy c); [|exact Hw]. cbn [negb].
  destruct (truthy (format_cookies _)); exact Hw.
Qed.

Lemma obtain_manifest_keeps_segment_map
    (lib : Lib) (net : list OutRequest -> OutRequest -> NetResult)
    (url cookies : str) (w : World) :
  SEGMENT_MAP (snd (obtain_manifest lib net url cookies w)) = SEGMENT_MAP w.
Proof.
  apply (preserves_obtain_manifest lib net
           (fun w' => SEGMENT_MAP w' = SEGMENT_MAP w)).
  - intros w' l Hw'. exact Hw'.
  - apply fetch_cookies_keeps_segment_map.
  - reflexivity.
Qed.

(** C9.  When the body the manifest route has fetched lacks the marker,
    the route fails with status 500 and [SEGMENT_MAP] is what it was before
    the request: every entry of the previously served manifest is still
    there. *)
Theorem invalid_manifest_keeps_segment_map
    (lib : Lib) (net : list OutRequest -> OutRequest -> NetResult)
    (url cookies : str) (w w1 : World) (body : bytes) (content_type : str) :
  obtain_manifest lib net url cookies w = (Ok (body, content_type), w1) ->
  bytes_contain (ub "#EXTM3U") body = false ->
  (exists e,
     get_playlist lib net url cookies w
     = (Raise (HTTPException 500 (MsgOf (u "Error fetching M3U8: ") e)), w1))
  /\ SEGMENT_MAP (snd (get_playlist lib net url cookies w)) = SEGMENT_MAP w
  /\ forall k v,
       SEGMENT_MAP w !! k = Some v ->
       SEGMENT_MAP (snd (get_playlist lib net url cookies w)) !! k = Some v.
Proof.
  intros Hf Hb.
  assert (Hg : get_playlist lib net url cookies w
               = (Raise (HTTPException 500
                           (MsgOf (u "Error fetching M3U8: ")
                              (match decode_utf8 body with
                               | Some _ => InvalidManifest
                               | None => UnicodeDecodeError
                               end))), w1)).
  { unfold get_playlist, try_except.
    rewrite (bind_ok _ _ w w1 (body, content_type) Hf).
    cbn [fst]. erewrite bind_raise by (apply rewrite_refuses, Hb).
    reflexivity. }
  assert (Hm : SEGMENT_MAP w1 = SEGMENT_MAP w).
  { pose proof (obtain_manifest_keeps_segment_map lib net url cookies w)
      as Hp.
    rewrite Hf in Hp. exact Hp. }
  rewrite Hg. cbn [snd]. split; [eauto|]. split; [exact Hm|].
  intros k v Hk. rewrite Hm. exact Hk.
Qed.

(** *** The rewriter returns on well-formed manifests *)

Section RewriterReturns.

Context (lib : Lib).

Lemma rewrite_line_returns (url line : str) (w : World) :
  (is_key_line line = true -> key_line_ok lib url line) ->
  exists l w', rewrite_line lib url line w = (Ok l, w').
Proof.
  intros Hok. unfold rewrite_line.
  change (startswith (u "#EXT-X-KEY") line && contains (u "URI=") line)
    with (is_key_line line).
  destruct (is_key_line line).
  - destruct (Hok eq_refl) as [Hq Hj].
    unfold uri_attr in Hj. fold URI_open in Hj |- *.
    destruct (item1_split URI_open line) as [after Ha];
      [discriminate|assumption|].
    rewrite Ha in Hj.
    destruct (split_item0 quote after) as [uri Hu].
    destruct (Hj uri Hu) as [full Hf].
    unfold bind. rewrite Ha. cbn [index ret]. rewrite Hu. cbn [index ret].
    rewrite Hf. cbn. eauto.
  - destruct (startswith (u "https://") line); [|unfold ret; eauto].
    destruct (last_item_split (u "/") (strip line)) as [name Hn].
    unfold bind. rewrite Hn. cbn [index ret].
    destruct (startswith _ _); cbn; eauto.
Qed.

Lemma rewrite_lines_returns (url : str) (m3u8_lines : list str)
    (w : World) :
  (forall line, line ∈ m3u8_lines ->
                is_key_line line = true -> key_line_ok lib url line) ->
  exists ls w', rewrite_lines lib url m3u8_lines w = (Ok ls, w').
Proof.
  revert w. induction m3u8_lines as [|line rest IH]; intros w Hok.
  - cbn. unfold ret. eauto.
  - cbn [rewrite_lines].
    destruct (rewrite_line_returns url line w) as (l & w1 & Hl).
    { apply Hok. left. }
    destruct (IH w1) as (ls & w2 & Hls).
    { intros line' Hin. apply Hok. right. exact Hin. }
    erewrite bind_ok by exact Hl. erewrite bind_ok by exact Hls.
    unfold ret. eauto.
Qed.

Lemma rewrite_returns (url : str) (body : bytes) (m3u8_content : str)
    (w : World) :
  decode_utf8 body = Some m3u8_content ->
  contains (u "#EXTM3U") m3u8_content = true ->
  is_Some (urlparse lib url) ->
  (forall line, line ∈ splitlines m3u8_content ->
                is_key_line line = true -> key_line_ok lib url line) ->
  exists out w', rewrite lib url body w = (Ok out, w').
Proof.
  intros Hd Hc [[scheme netloc] Hp] Hok. unfold rewrite.
  rewrite Hd, Hc. cbn [negb].
  unfold bind at 1. cbn [segment_map_clear].
  rewrite Hp. unfold bind at 1. cbn [or_ValueError ret].
  destruct (rewrite_lines_returns url (splitlines m3u8_content)
              {| SEGMENT_MAP := ∅; CACHED_COOKIES := CACHED_COOKIES w;
                 sent := sent w |} Hok) as (ls & w' & Hls).
  erewrite bind_ok by exact Hls. unfold ret. eauto.
Qed.

(** The rewriter touches neither the cookie cache nor the request log. *)
Lemma rewrite_frame (url : str) (body : bytes) (w : World) :
  CACHED_COOKIES (snd (rewrite lib url body w)) = CACHED_COOKIES w
  /\ sent (snd (rewrite lib url body w)) = sent w.
Proof.
  apply (preserves_rewrite lib
           (fun w' => CACHED_COOKIES w' = CACHED_COOKIES w
                      /\ sent w' = sent w)).
  - intros w' m Hw'. exact Hw'.
  - split; reflexivity.
Qed.

(** Past the validity check the rewriter starts from an empty map. *)
Lemma rewrite_from_empty (url : str) (body : bytes) (m3u8_content : str)
    (w : World) :
  decode_utf8 body = Some m3u8_content ->
  contains (u "#EXTM3U") m3u8_content = true ->
  rewrite lib url body w = rewrite lib url body (with_segment_map ∅ w).
Proof. intros Hd Hc. unfold rewrite. rewrite Hd, Hc. reflexivity. Qed.

Lemma rewrite_again (url : str) (body : bytes) (w : World) :
  rewrite lib url body (snd (rewrite lib url body w))
  = rewrite lib url body w.
Proof.
  destruct (decode_utf8 body) as [m3u8_content|] eqn:Hd.
  - destruct (contains (u "#EXTM3U") m3u8_content) eqn:Hc.
    + rewrite (rewrite_from_empty url body m3u8_content _ Hd Hc).
      rewrite (rewrite_from_empty url body m3u8_content w Hd Hc).
      f_equal. destruct (rewrite_frame url body w) as [H1 H2].
      rewrite <- (rewrite_from_empty url body m3u8_content w Hd Hc).
      unfold with_segment_map. rewrite H1, H2. reflexivity.
    + rewrite !(rewrite_no_marker lib url body m3u8_content _ Hd Hc).
      reflexivity.
  - rewrite !(rewrite_undecodable lib url body _ Hd). reflexivity.
Qed.

End RewriterReturns.

(** C8.  Running the rewriter a second time on the same body and URL,
    from the state the first run left, gives the same result (the same
    rewritten text, or the same failure) and leaves [SEGMENT_MAP] as the
    first run left it. *)
Theorem rewrite_idempotent (lib : Lib) (url : str) (body : bytes)
    (w : World) :
  let first := rewrite lib url body w in
  let second := rewrite lib url body (snd first) in
  fst second = fst first
  /\ SEGMENT_MAP (snd second) = SEGMENT_MAP (snd first).
Proof.
  intros first second. unfold second, first.
  rewrite rewrite_again. split; reflexivity.
Qed.

(** C4, as amended.  For a body that decodes as UTF-8: when the text lacks
    the marker the rewriter fails with [InvalidManifest], changing nothing;
    when the text holds the marker, the request URL parses, and every
    key-declaration line carries a quoted URI that resolves against the
    request URL, the rewriter returns a text and raises nothing. *)
Theorem rewrite_raises_only_on_malformed
    (lib : Lib) (url : str) (body : bytes) (m3u8_content : str) (w : World) :
  decode_utf8 body = Some m3u8_content ->
  (contains (u "#EXTM3U") m3u8_content = false ->
   rewrite lib url body w = (Raise InvalidManifest, w))
  /\ (contains (u "#EXTM3U") m3u8_content = true ->
      is_Some (urlparse lib url) ->
      (forall line, line ∈ splitlines m3u8_content ->
                    is_key_line line = true -> key_line_ok lib url line) ->
      exists out w', rewrite lib url body w = (Ok out, w')).
Proof.
  intros Hd. split.
  - apply rewrite_no_marker, Hd.
  - intros Hc. apply (rewrite_returns lib url body m3u8_content w Hd Hc).
Qed.

Example manifest_body_decodes : decode_utf8 manifest_body = Some manifest_text.
Proof. reflexivity. Qed.

Lemma rewrite_raises_only_on_malformed_witness :
  rewrite lib_simple (u "https://x/live.m3u8") (ub "<html>gone</html>")
    initial
  = (Raise InvalidManifest, initial)
  /\ exists out w',
       rewrite lib_simple (u "https://x/live.m3u8") manifest_body initial
       = (Ok out, w').
Proof.
  split.
  - apply (rewrite_raises_only_on_malformed lib_simple
             (u "https://x/live.m3u8") (ub "<html>gone</html>")
             (u "<html>gone</html>") initial);
      reflexivity.
  - apply (rewrite_raises_only_on_malformed lib_simple
             (u "https://x/live.m3u8") manifest_body manifest_text initial).
    + reflexivity.
    + reflexivity.
    + vm_compute. eauto.
    + intros line Hin.
      change (splitlines manifest_text)
        with [u "#EXTM3U";
              u "#EXT-X-KEY:METHOD=AES-128,URI=" ++ quote
              ++ u "/a/b/key.bin" ++ quote;
              u "https://x/seg1.js"] in Hin.
      repeat (apply elem_of_cons in Hin as [->|Hin]);
        [..|apply elem_of_nil in Hin; contradiction];
        intros Hk; try discriminate Hk.
      split; [reflexivity|].
      intros uri Hu. vm_compute in Hu. injection Hu as <-.
      vm_compute. eauto.
Defined.

(** C4, the claim as stated fails: a body with the marker whose key line
    gives its URI without quotes makes the rewriter raise [IndexError]. *)
Lemma rewrite_raises_on_unquoted_uri :
  bytes_contain (ub "#EXTM3U") unquoted_key_body = true
  /\ fst (rewrite lib_simple (u "https://x/live.m3u8") unquoted_key_body
            initial)
     = Raise IndexError.
Proof. split; reflexivity. Qed.

(** The route turns that failure into a 500 response. *)
Example get_playlist_unquoted_uri :
  fst (get_playlist lib_simple (net_serving unquoted_key_body)
         (u "https://x/live.m3u8") (u "a=1") initial)
  = Raise (HTTPException 500 (MsgOf (u "Error fetching M3U8: ") IndexError)).
Proof. reflexivity. Qed.

Lemma invalid_manifest_keeps_segment_map_witness :
  SEGMENT_MAP world_after_manifest !! u "seg1.ts"
  = Some (bucket_url (u "seg1.js"))
  /\ SEGMENT_MAP
       (snd (get_playlist lib_simple net_manifest_once
               (u "https://x/live.m3u8") (u "a=1") world_after_manifest))
     = SEGMENT_MAP world_after_manifest.
Proof.
  split; [reflexivity|].
  apply (invalid_manifest_keeps_segment_map lib_simple net_manifest_once
           (u "https://x/live.m3u8") (u "a=1") world_after_manifest
           (snd (obtain_manifest lib_simple net_manifest_once
                   (u "https://x/live.m3u8") (u "a=1")
                   world_after_manifest))
           (ub "<html>gone</html>") (u "application/octet-stream")).
  - vm_compute. reflexivity.
  - reflexivity.
Defined.

(** ** Segment lines *)

(** What [rewrite_line] does with a line [https://host/seg123.js]. *)
Lemma direct_url_line_run (lib : Lib) (url host : str) (w : World) :
  let line := u "https://" ++ host ++ u "/seg123.js" in
  let direct_url := replace (u "https://corsproxy.io/?url=") [] line in
  rewrite_line lib url line w
  = (Ok (u "/seg123.ts"),
     with_segment_map
       (<[u "seg123.ts" :=
            if startswith (u "https://flu.streamed.su") direct_url
            then direct_url else bucket_url (u "seg123.js")]>
          (SEGMENT_MAP w)) w).
Proof.
  intros line direct_url.
  assert (Hs : strip line = line).
  { unfold line.
    change (u "https://" ++ host ++ u "/seg123.js")
      with (104 :: (u "ttps://" ++ host ++ u "/seg123.js")).
    replace (u "ttps://" ++ host ++ u "/seg123.js")
      with ((u "ttps://" ++ host ++ u "/seg123.j") ++ [115])
      by (rewrite <- !app_assoc; reflexivity).
    apply strip_nonspace; reflexivity. }
  assert (Hn : last_item (split (u "/") line) = Some (u "seg123.js")).
  { unfold line.
    replace (u "https://" ++ host ++ u "/seg123.js")
      with ((u "https://" ++ host) ++ 47 :: u "seg123.js")
      by (rewrite <- !app_assoc; reflexivity).
    apply (last_split1 47). reflexivity. }
  unfold rewrite_line.
  assert (startswith (u "#EXT-X-KEY") line = false) as -> by reflexivity.
  assert (startswith (u "https://") line = true) as ->
    by apply startswith_app.
  cbn [andb]. rewrite Hs. unfold bind. rewrite Hn. cbn [index ret].
  fold direct_url. unfold bucket_url.
  destruct (startswith (u "https://flu.streamed.su") direct_url);
    reflexivity.
Qed.

(** What the code does with a line [https://host/seg123.js], whatever
    [host] is: the line is replaced by [/seg123.ts], and [SEGMENT_MAP] then
    maps [seg123.ts] to the line with every CORS-proxy prefix removed when
    that text begins with [https://flu.streamed.su], and to the
    fixed-bucket URL for [seg123.js] on the panel host otherwise. *)
Theorem direct_url_line_rewritten (lib : Lib) (url host : str) (w : World) :
  let line := u "https://" ++ host ++ u "/seg123.js" in
  let direct_url := replace (u "https://corsproxy.io/?url=") [] line in
  let target :=
    if startswith (u "https://flu.streamed.su") direct_url
    then direct_url else bucket_url (u "seg123.js") in
  rewrite_line lib url line w
  = (Ok (u "/seg123.ts"),
     with_segment_map (<[u "seg123.ts" := target]> (SEGMENT_MAP w)) w)
  /\ SEGMENT_MAP (snd (rewrite_line lib url line w)) !! u "seg123.ts"
     = Some target
  /\ (forall rest,
        direct_url = u "https://flu.streamed.su" ++ rest ->
        target = direct_url)
  /\ (startswith (u "https://flu.streamed.su") direct_url = false ->
      target = bucket_url (u "seg123.js")).
Proof.
  intros line direct_url target.
  pose proof (direct_url_line_run lib url host w) as Hr.
  cbv zeta in Hr. fold line direct_url target in Hr.
  split; [exact Hr|]. split; [|split].
  - rewrite Hr. cbn [snd with_segment_map SEGMENT_MAP].
    apply lookup_insert_eq.
  - intros rest Hd. unfold target. rewrite Hd, startswith_app. reflexivity.
  - intros Hd. unfold target. rewrite Hd. reflexivity.
Qed.

(** C2, the code against the claim: the host
    [flu.streamed.su.evil.example] is not the direct-media host, but the
    URL begins with [https://flu.streamed.su] and the test of the code is
    a test of that prefix, with nothing that ends the host name; so the
    entry of [seg123.ts] is the URL itself, where the claim has the
    fixed-bucket URL. *)
Lemma direct_url_line_host_prefix :
  urlparse_simple (u "https://flu.streamed.su.evil.example/seg123.js")
  = Some (u "https", u "flu.streamed.su.evil.example")
  /\ u "flu.streamed.su.evil.example" <> u "flu.streamed.su"
  /\ SEGMENT_MAP
       (snd (rewrite_line lib_simple (u "https://x/live.m3u8")
               (u "https://" ++ u "flu.streamed.su.evil.example"
                ++ u "/seg123.js") initial))
     !! u "seg123.ts"
     = Some (u "https://flu.streamed.su.evil.example/seg123.js")
  /\ u "https://flu.streamed.su.evil.example/seg123.js"
     <> bucket_url (u "seg123.js").
Proof.
  split; [reflexivity|]. split; [discriminate|].
  split; [reflexivity|discriminate].
Qed.

(** The three cases on concrete hosts: the direct-media host, the same
    behind the CORS proxy, and any other host. *)
Example direct_url_line_flu :
  SEGMENT_MAP
    (snd (rewrite_line lib_simple (u "https://x/live.m3u8")
            (u "https://flu.streamed.su/seg123.js") initial))
  !! u "seg123.ts"
  = Some (u "https://flu.streamed.su/seg123.js").
Proof. reflexivity. Qed.

Example direct_url_line_cors :
  SEGMENT_MAP
    (snd (rewrite_line lib_simple (u "https://x/live.m3u8")
            (u "https://corsproxy.io/?url=https://flu.streamed.su/seg123.js")
            initial))
  !! u "seg123.ts"
  = Some (u "https://flu.streamed.su/seg123.js").
Proof. reflexivity. Qed.

Example direct_url_line_other :
  rewrite_line lib_simple (u "https://x/live.m3u8")
    (u "https://rr.buytommy.top/seg123.js") initial
  = (Ok (u "/seg123.ts"),
     with_segment_map
       {[ u "seg123.ts" :=
            u "https://p2-panel.streamed.su/bucket-44677-gjnru5ktoa/seg123.js" ]}
       initial).
Proof. reflexivity. Qed.

(** ** Key-declaration lines *)

Lemma URI_open_eq : URI_open = [85; 82; 73; 61; 34].
Proof. reflexivity. Qed.

(** The five characters of the opening differ, so no occurrence of it can
    begin in a text and end in the opening that follows the text. *)
Lemma URI_open_no_straddle (pre rest : str) :
  pre <> [] ->
  startswith URI_open (pre ++ URI_open ++ rest) = true ->
  startswith URI_open pre = true.
Proof.
  rewrite URI_open_eq. intros Hne.
  destruct pre as [|c0 [|c1 [|c2 [|c3 [|c4 pre]]]]]; [congruence|..];
    cbn [startswith app]; intros H; try exact H;
    repeat (apply andb_true_iff in H as [? H]);
    bool_to_prop; subst; discriminate.
Qed.

Lemma partition_URI_open (pre rest : str) :
  contains URI_open pre = false ->
  partition URI_open (pre ++ URI_open ++ rest) = Some (pre, rest).
Proof.
  induction pre as [|c pre IH]; intros Hc.
  - rewrite URI_open_eq. reflexivity.
  - cbn [contains] in Hc. apply orb_false_iff in Hc as [Hs Hc].
    cbn [app partition].
    destruct (startswith URI_open (c :: pre ++ URI_open ++ rest)) eqn:E.
    + apply (URI_open_no_straddle (c :: pre) rest) in E;
        [congruence|discriminate].
    + rewrite (IH Hc). reflexivity.
Qed.

Lemma key_uri_eq :
  key_uri = [47; 97; 47; 98; 47; 107; 101; 121; 46; 98; 105; 110].
Proof. reflexivity. Qed.

(** What follows the opening is read up to the closing quote. *)
Lemma uri_value_read (post : str) :
  exists after,
    item (split URI_open (key_uri ++ quote ++ post)) 0 = Some after
    /\ item (split quote after) 0 = Some key_uri.
Proof.
  rewrite (split_unfold URI_open) by discriminate.
  assert (Hp : partition URI_open (key_uri ++ quote ++ post)
               = match partition URI_open post with
                 | Some (a, t) => Some (key_uri ++ quote ++ a, t)
                 | None => None
                 end).
  { rewrite URI_open_eq, key_uri_eq. cbn.
    destruct (partition _ post) as [[a t]|]; reflexivity. }
  rewrite Hp.
  assert (Hq : forall x,
             item (split quote (key_uri ++ quote ++ x)) 0 = Some key_uri).
  { intros x. rewrite (split_unfold quote) by discriminate. reflexivity. }
  destruct (partition URI_open post) as [[a t]|]; eexists; split;
    try reflexivity; apply Hq.
Qed.

(** X25.  The loop body on a key line.  A line that starts with
    [#EXT-X-KEY] and in which the first [URI=] followed by a quote opens
    the value [/a/b/key.bin] is rewritten to a line whose URI attribute is
    that value without its leading slash behind exactly one slash, which
    is [/a/b/key.bin] again, and [SEGMENT_MAP] then maps [a/b/key.bin] to
    what [urljoin] gives for the original URI against the URL the request
    supplied, whichever URL the manifest was fetched from. *)
Theorem key_line_rewritten (lib : Lib) (url mid post full : str)
    (w : World) :
  let line :=
    u "#EXT-X-KEY" ++ mid ++ URI_open ++ u "/a/b/key.bin" ++ quote ++ post in
  contains URI_open (u "#EXT-X-KEY" ++ mid) = false ->
  urljoin lib url (u "/a/b/key.bin") = Some full ->
  rewrite_line lib url line w
  = (Ok line, with_segment_map (<[key_path := full]> (SEGMENT_MAP w)) w)
  /\ uri_attr line = Some (u "/" ++ lstrip_chars (u "/") (u "/a/b/key.bin"))
  /\ u "/" ++ lstrip_chars (u "/") (u "/a/b/key.bin") = u "/a/b/key.bin"
  /\ lstrip_chars (u "/") (u "/a/b/key.bin") = u "a/b/key.bin"
  /\ SEGMENT_MAP (snd (rewrite_line lib url line w)) !! u "a/b/key.bin"
     = Some full.
Proof.
  fold key_uri. intros line Hpre Hjoin.
  assert (Hk : startswith (u "#EXT-X-KEY") line = true)
    by apply startswith_app.
  assert (Hc : contains (u "URI=") line = true).
  { unfold line, URI_open.
    replace (u "#EXT-X-KEY" ++ mid ++ (u "URI=" ++ quote) ++ key_uri
             ++ quote ++ post)
      with ((u "#EXT-X-KEY" ++ mid) ++ u "URI="
            ++ (quote ++ key_uri ++ quote ++ post))
      by (rewrite <- !app_assoc; reflexivity).
    apply contains_app. }
  assert (Hsplit : split URI_open line
                   = (u "#EXT-X-KEY" ++ mid)
                     :: split URI_open (key_uri ++ quote ++ post)).
  { rewrite (split_unfold URI_open line) by discriminate.
    unfold line. rewrite app_assoc.
    rewrite (partition_URI_open _ _ Hpre). reflexivity. }
  destruct (uri_value_read post) as (after & Ha & Hu).
  assert (Hattr : uri_attr line = Some key_uri).
  { unfold uri_attr. fold URI_open. rewrite Hsplit.
    change (item (?x :: ?l) 1) with (item l 0). rewrite Ha. exact Hu. }
  assert (Hr : rewrite_line lib url line w
               = (Ok line,
                  with_segment_map (<[key_path := full]> (SEGMENT_MAP w)) w)).
  { unfold rewrite_line. rewrite Hk, Hc. cbn [andb].
    fold URI_open. rewrite Hsplit.
    change (item (?x :: ?l) 1) with (item l 0).
    unfold bind. rewrite Ha. cbn [index ret]. rewrite Hu. cbn [index ret].
    rewrite Hjoin. cbn [or_ValueError ret].
    change (u "/" ++ lstrip_chars (u "/") key_uri) with key_uri.
    rewrite replace_same by discriminate. reflexivity. }
  split; [exact Hr|]. split; [exact Hattr|].
  split; [reflexivity|]. split; [reflexivity|].
  rewrite Hr. apply lookup_insert_eq.
Qed.

Lemma key_line_rewritten_witness :
  rewrite_line lib_simple (u "https://x/live.m3u8")
    (u "#EXT-X-KEY" ++ u ":METHOD=AES-128," ++ URI_open ++ u "/a/b/key.bin"
     ++ quote ++ u ",IV=0x01")
    initial
  = (Ok (u "#EXT-X-KEY" ++ u ":METHOD=AES-128," ++ URI_open
         ++ u "/a/b/key.bin" ++ quote ++ u ",IV=0x01"),
     with_segment_map {[ key_path := u "https://x/a/b/key.bin" ]} initial).
Proof.
  apply (key_line_rewritten lib_simple (u "https://x/live.m3u8")
           (u ":METHOD=AES-128,") (u ",IV=0x01") (u "https://x/a/b/key.bin")
           initial);
    reflexivity.
Defined.

(** C3, the code against the claim, on the fallback path.  The nine
    attempts for the supplied URL [https://x/live.m3u8] fail, the landing
    page names [https://fresh/live.m3u8], and the manifest is fetched from
    there: the last request goes to the named URL and the route answers.
    The key line of that manifest has the URI [/a/b/key.bin], and
    [SEGMENT_MAP] maps [a/b/key.bin] to [https://x/a/b/key.bin], the
    resolution against the supplied URL, where resolution against the
    manifest's source URL gives [https://fresh/a/b/key.bin]. *)
Theorem fallback_key_resolved_against_supplied_url :
  map out_url
    (sent (snd (get_playlist lib_found net_fallback_key
                  (u "https://x/live.m3u8") (u "a=1") world_with_cookies)))
  = map out_url (sent world_with_cookies)
    ++ repeat (u "https://x/live.m3u8") 9
    ++ [SOURCE_URL; u "https://fresh/live.m3u8"]
  /\ (exists response,
        fst (get_playlist lib_found net_fallback_key
               (u "https://x/live.m3u8") (u "a=1") world_with_cookies)
        = Ok response)
  /\ SEGMENT_MAP
       (snd (get_playlist lib_found net_fallback_key
               (u "https://x/live.m3u8") (u "a=1") world_with_cookies))
     !! u "a/b/key.bin"
     = Some (u "https://x/a/b/key.bin")
  /\ urljoin lib_found (u "https://fresh/live.m3u8") (u "/a/b/key.bin")
     = Some (u "https://fresh/a/b/key.bin")
  /\ u "https://x/a/b/key.bin" <> u "https://fresh/a/b/key.bin".
Proof.
  split; [vm_compute; reflexivity|].
  split; [eexists; vm_compute; reflexivity|].
  split; [vm_compute; reflexivity|].
  split; [reflexivity|discriminate].
Qed.

(** A key line in which an earlier attribute ends in [URI=] and a quote:
    the code reads the value of that attribute, [/other.bin], files the
    key under [other.bin] and has no entry for [a/b/key.bin]. *)
Example key_line_earlier_uri_text :
  SEGMENT_MAP
    (snd (rewrite_line lib_simple (u "https://x/live.m3u8") alt_uri_key_line
            initial))
  = {[ u "other.bin" := u "https://x/other.bin" ]}
  /\ fst (rewrite_line lib_simple (u "https://x/live.m3u8") alt_uri_key_line
            initial)
     = Ok alt_uri_key_line.
Proof. split; vm_compute; reflexivity. Qed.

(** ** The resource route *)

(** C6, as amended.  For a request whose Range header has a non-empty
    value and whose fetch returns a payload, the response has status 206,
    the whole payload as body, the content type the fetcher resolved, and
    the headers [Content-Range: bytes 0-{len-1}/{len}] for the length of
    the whole payload, [Accept-Ranges: bytes] and
    [Access-Control-Allow-Origin: *]. *)
Theorem range_request_served_whole
    (lib : Lib) (net : list OutRequest -> OutRequest -> NetResult)
    (path : str) (request : Request) (w w' : World)
    (range_header : str) (content : bytes) (content_type : str) :
  header_range request = Some range_header ->
  truthy range_header = true ->
  fetch_resource lib net (resolve (SEGMENT_MAP w) path)
    (default [] (query_cookies request)) 3 w
  = (Ok (Some (content, content_type)), w') ->
  exists response,
    get_resource lib net path request w = (Ok response, w')
    /\ resp_status response = 206%Z
    /\ resp_content response = BodyBytes content
    /\ media_type response = content_type
    /\ resp_headers response !! u "Content-Range"
       = Some (u "bytes 0-" ++ str_of_Z (Z.of_nat (length content) - 1)
               ++ u "/" ++ str_of_Z (Z.of_nat (length content)))
    /\ resp_headers response !! u "Accept-Ranges" = Some (u "bytes")
    /\ resp_headers response !! u "Access-Control-Allow-Origin"
       = Some (u "*").
Proof.
  intros Hr Ht Hf. eexists. split.
  - unfold get_resource, try_except, bind, segment_map_read.
    rewrite Hf, Hr. cbn [truthy_opt]. rewrite Ht. reflexivity.
  - cbn [resp_status resp_content media_type resp_headers].
    split; [reflexivity|]. split; [reflexivity|]. split; [reflexivity|].
    split; [apply lookup_insert_eq|]. split.
    + rewrite lookup_insert_ne by discriminate. apply lookup_insert_eq.
    + rewrite !lookup_insert_ne by discriminate.
      apply lookup_singleton_eq.
Qed.

Lemma range_request_served_whole_witness :
  exists response,
    get_resource lib_simple (net_serving (ub "0123456789")) (u "seg1.ts")
      {| query_cookies := Some (u "a=1");
         header_range := Some (u "bytes=2-5") |}
      world_after_manifest
    = (Ok response,
       snd (fetch_resource lib_simple (net_serving (ub "0123456789"))
              (bucket_url (u "seg1.js")) (u "a=1") 3 world_after_manifest))
    /\ resp_status response = 206%Z
    /\ resp_content response = BodyBytes (ub "0123456789")
    /\ media_type response = u "video/mp2t"
    /\ resp_headers response !! u "Content-Range" = Some (u "bytes 0-9/10")
    /\ resp_headers response !! u "Accept-Ranges" = Some (u "bytes")
    /\ resp_headers response !! u "Access-Control-Allow-Origin"
       = Some (u "*").
Proof.
  apply (range_request_served_whole lib_simple
           (net_serving (ub "0123456789")) (u "seg1.ts")
           {| query_cookies := Some (u "a=1");
              header_range := Some (u "bytes=2-5") |}
           world_after_manifest _ (u "bytes=2-5")).
  - reflexivity.
  - reflexivity.
  - vm_compute. reflexivity.
Defined.

(** C6, the claim as stated fails: a request that carries a Range header
    with an empty value is answered with status 200 and no
    [Content-Range]. *)
Lemma empty_range_header_gets_200 :
  header_range {| query_cookies := Some (u "a=1"); header_range := Some [] |}
  = Some []
  /\ match fst (get_resource lib_simple (net_serving (ub "0123456789"))
                  (u "seg1.ts")
                  {| query_cookies := Some (u "a=1");
                     header_range := Some [] |}
                  world_after_manifest) with
     | Ok response =>
         resp_status response = 200%Z
         /\ resp_headers response !! u "Content-Range" = None
     | Raise _ => False
     end.
Proof. split; [reflexivity|]. vm_compute. split; reflexivity. Qed.

(** With an empty payload the header reads [bytes 0--1/0]. *)
Example content_range_of_empty_payload :
  match fst (get_resource lib_simple (net_serving []) (u "seg1.ts")
               {| query_cookies := None;
                  header_range := Some (u "bytes=0-") |} initial) with
  | Ok response =>
      resp_headers response !! u "Content-Range" = Some (u "bytes 0--1/0")
  | Raise _ => False
  end.
Proof. vm_compute. reflexivity. Qed.

(** *** What the resource route sends upstream *)

Section Outbound.

Context (lib : Lib) (net : list OutRequest -> OutRequest -> NetResult).

Lemma fetch_attempts_log (source_url : str) (headers : gmap str str)
    (retries : nat) (attempts : list nat) (w : World) :
  exists n,
    snd (fetch_attempts lib net source_url headers retries attempts w)
    = log w (repeat {| out_method := GET; out_url := source_url;
                       out_headers := headers; out_json := None |} n).
Proof.
  revert w. induction attempts as [|attempt rest IH]; intros w.
  - exists 0%nat. cbn. rewrite log_nil. reflexivity.
  - cbn [fetch_attempts]. unfold bind at 1. rewrite client_get_run.
    set (req := {| out_method := GET; out_url := source_url;
                   out_headers := headers; out_json := None |}).
    assert (Hnext : exists n,
      snd ((if Nat.eqb attempt retries then ret None
            else fetch_attempts lib net source_url headers retries rest)
             (log w [req]))
      = log w (repeat req n)).
    { destruct (Nat.eqb attempt retries).
      - exists 1%nat. reflexivity.
      - destruct (IH (log w [req])) as [n Hn]. exists (S n).
        rewrite Hn, log_log. reflexivity. }
    destruct (net (sent w) req) as [| |response].
    + exact Hnext.
    + exists 1%nat. reflexivity.
    + destruct (raise_for_status lib (status_code response));
        [exact Hnext|]. exists 1%nat. reflexivity.
Qed.

Lemma Forall_repeat {A} (Q : A -> Prop) (x : A) (n : nat) :
  Q x -> Forall Q (repeat x n).
Proof. intros Hx. induction n; cbn; constructor; assumption. Qed.

(** Every request of a fetch goes out with the headers the fetcher built. *)
Lemma fetch_sources_log (sources : list str) (headers : gmap str str)
    (retries : nat) (w : World) :
  exists l,
    snd (fetch_sources lib net sources headers retries w) = log w l
    /\ Forall (fun r => out_method r = GET /\ out_headers r = headers) l.
Proof.
  revert w. induction sources as [|source_url rest IH]; intros w.
  - exists []. cbn. rewrite log_nil. auto.
  - cbn [fetch_sources]. unfold bind.
    destruct (fetch_attempts_log source_url headers retries (seq 1 retries) w)
      as [n Hn].
    destruct (fetch_attempts _ _ _ _ _ _ w) as [[[result|]|e] w1];
      cbn [snd] in Hn; subst w1.
    + eexists. split; [reflexivity|].
      apply Forall_repeat. auto.
    + destruct (IH (log w (repeat {| out_method := GET;
                                    out_url := source_url;
                                    out_headers := headers;
                                    out_json := None |} n)))
        as (l & Hl & Hall).
      eexists. rewrite Hl, log_log. split; [reflexivity|].
      apply Forall_app. split; [|exact Hall].
      apply Forall_repeat. auto.
    + eexists. split; [reflexivity|].
      apply Forall_repeat. auto.
Qed.

Lemma HEADERS_no_Range (cookies : str) :
  (<[u "Cookie" := cookies]> HEADERS : gmap str str) !! u "Range" = None.
Proof. rewrite lookup_insert_ne by discriminate. reflexivity. Qed.

(** Whatever the inbound request carries, the requests the resource route
    sends have the shared headers and the cookie string as supplied: none
    has a Range header. *)
Lemma get_resource_outbound (path : str) (request : Request) (w : World) :
  exists l,
    snd (get_resource lib net path request w) = log w l
    /\ Forall (fun r =>
                 out_headers r
                 = <[u "Cookie" := default [] (query_cookies request)]>
                     HEADERS
                 /\ out_headers r !! u "Range" = None) l.
Proof.
  unfold get_resource, try_except, bind, segment_map_read, fetch_resource.
  match goal with
  | |- context [fetch_sources lib net ?s ?h ?n w] =>
      destruct (fetch_sources_log s h n w) as (l & Hl & Hall);
      destruct (fetch_sources lib net s h n w) as [[[[c ct]|]|e] w1]
  end; cbn [snd] in Hl; subst w1;
    (exists l; split;
     [destruct (truthy_opt (header_range request)); reflexivity|]);
    (eapply Forall_impl; [exact Hall|]);
    intros r [_ ->]; (split; [reflexivity|apply HEADERS_no_Range]).
Qed.

End Outbound.

(** C1, the code against the claim: a request for [seg1.ts] with the
    cookie string [a%3D1] and the header [Range: bytes=0-99] makes one
    outbound request, to the guessed URL, whose headers hold no Range and
    whose Cookie is the string as supplied, not its URL-decoded form. *)
Theorem get_resource_drops_range :
  sent (snd (get_resource lib_simple (net_serving (ub "0123456789"))
               (u "seg1.ts")
               {| query_cookies := Some (u "a%3D1");
                  header_range := Some (u "bytes=0-99") |}
               initial))
  = [mirror_request (u "https://rr.buytommy.top/seg1.js") (u "a%3D1")]
  /\ out_headers
       (mirror_request (u "https://rr.buytommy.top/seg1.js") (u "a%3D1"))
     !! u "Range" = None
  /\ out_headers
       (mirror_request (u "https://rr.buytommy.top/seg1.js") (u "a%3D1"))
     !! u "Cookie" = Some (u "a%3D1")
  /\ unquote lib_simple (u "a%3D1") = u "a=1".
Proof.
  split; [vm_compute; reflexivity|].
  split; [apply HEADERS_no_Range|].
  split; [apply lookup_insert_eq|reflexivity].
Qed.

(** ** Cookie normalisation in the manifest route *)

Lemma normalize_pair_run (p : str) (w : World) :
  normalize_pair p w
  = (if contains (u "=") p
     then fst (normalize_pair p w)
     else Raise IndexError, w)
  /\ (contains (u "=") p = true -> exists q, fst (normalize_pair p w) = Ok q).
Proof.
  unfold normalize_pair, bind.
  destruct (split_item0 (u "=") p) as [name Hn]. rewrite Hn. cbn [index ret].
  destruct (contains (u "=") p) eqn:Hc.
  - destruct (item1_split (u "=") p) as [value Hv];
      [discriminate|assumption|].
    rewrite Hv. cbn. eauto.
  - rewrite (split_no_sep _ _ Hc). cbn. split; [reflexivity|discriminate].
Qed.

(** A non-empty pair without [=] makes the normalisation raise
    [IndexError], whatever the other pairs are. *)
Lemma normalize_pairs_raises (pairs : list str) (p : str) (w : World) :
  p ∈ pairs -> truthy p = true -> contains (u "=") p = false ->
  normalize_pairs pairs w = (Raise IndexError, w).
Proof.
  intros Hin Ht Hc. induction pairs as [|q rest IH].
  - apply elem_of_nil in Hin. contradiction.
  - cbn [normalize_pairs].
    destruct (normalize_pair_run q w) as [Hq Hok].
    apply elem_of_cons in Hin as [<-|Hin].
    + rewrite Ht. unfold bind. rewrite Hq, Hc. reflexivity.
    + destruct (truthy q); [|apply IH, Hin].
      unfold bind. rewrite Hq.
      destruct (contains (u "=") q); [|reflexivity].
      destruct (Hok eq_refl) as [q' ->]. rewrite (IH Hin). reflexivity.
Qed.

(** C10, as amended.  When the cookies parameter, after the decoding at
    the head of the route (URL-decoding, then [%3B+] and [%3D] replaced by
    [; ] and [=]), holds a non-empty pair without [=], the route raises the
    500 that wraps [IndexError] and the state is untouched: no request has
    been sent to any mirror. *)
Theorem get_playlist_malformed_cookies
    (lib : Lib) (net : list OutRequest -> OutRequest -> NetResult)
    (url cookies p : str) (w : World) :
  p ∈ split (u "; ") (decode_cookies lib cookies) ->
  p <> [] ->
  contains (u "=") p = false ->
  get_playlist lib net url cookies w
  = (Raise (HTTPException 500 (MsgOf (u "Error fetching M3U8: ") IndexError)),
     w)
  /\ sent (snd (get_playlist lib net url cookies w)) = sent w.
Proof.
  intros Hin Hne Hc.
  assert (Ht : truthy p = true) by (destruct p; [congruence|reflexivity]).
  assert (Hg : get_playlist lib net url cookies w
               = (Raise (HTTPException 500
                           (MsgOf (u "Error fetching M3U8: ") IndexError)),
                  w)).
  { unfold get_playlist, try_except, obtain_manifest, normalize_cookies, bind.
    rewrite (normalize_pairs_raises _ p w Hin Ht Hc). reflexivity. }
  rewrite Hg. split; reflexivity.
Qed.

Lemma get_playlist_malformed_cookies_witness :
  get_playlist lib_simple (net_serving manifest_body)
    (u "https://x/live.m3u8") (u "abc") initial
  = (Raise (HTTPException 500 (MsgOf (u "Error fetching M3U8: ") IndexError)),
     initial)
  /\ sent (snd (get_playlist lib_simple (net_serving manifest_body)
                  (u "https://x/live.m3u8") (u "abc") initial))
     = sent initial.
Proof.
  apply (get_playlist_malformed_cookies lib_simple
           (net_serving manifest_body) (u "https://x/live.m3u8") (u "abc")
           (u "abc") initial).
  - vm_compute. left.
  - discriminate.
  - reflexivity.
Defined.

(** C10, the claim as stated fails: the URL-decoded form of the parameter
    [a%253D1] is [a%3D1], one non-empty pair without [=]; the route
    replaces the [%3D] that is left, normalises the cookies to [a=1] and
    goes on to contact the mirrors. *)
Lemma get_playlist_double_encoded_cookies :
  unquote lib_simple (u "a%253D1") = u "a%3D1"
  /\ split (u "; ") (u "a%3D1") = [u "a%3D1"]
  /\ contains (u "=") (u "a%3D1") = false
  /\ contains (u "=") (u "a%253D1") = false
  /\ fst (normalize_cookies lib_simple (u "a%253D1") initial) = Ok (u "a=1")
  /\ sent (snd (get_playlist lib_simple net_down (u "https://x/live.m3u8")
                  (u "a%253D1") initial))
     <> sent initial
  /\ hd_error (sent (snd (get_playlist lib_simple net_down
                            (u "https://x/live.m3u8") (u "a%253D1")
                            initial)))
     = Some (mirror_request (u "https://x/live.m3u8") (u "a=1")).
Proof.
  repeat split; try reflexivity.
  vm_compute. discriminate.
Qed.

(** ** A line inside a whole manifest *)

Section WholeManifest.

Context (lib : Lib).

(** A line changes no entry of [SEGMENT_MAP] but the one it writes. *)
Lemma rewrite_line_other_key (url line k : str) (w : World) :
  written_key line <> Some k ->
  SEGMENT_MAP (snd (rewrite_line lib url line w)) !! k = SEGMENT_MAP w !! k.
Proof.
  unfold written_key, rewrite_line, uri_attr.
  change (startswith (u "#EXT-X-KEY") line && contains (u "URI=") line)
    with (is_key_line line).
  destruct (is_key_line line).
  - unfold bind.
    destruct (item (split (u "URI=" ++ quote) line) 1) as [after|];
      [|reflexivity].
    cbn [index ret].
    destruct (item (split quote after) 0) as [uri|]; [|reflexivity].
    cbn [index ret]. intros Hk.
    destruct (urljoin lib url uri); [|reflexivity].
    cbn [or_ValueError ret segment_map_set snd SEGMENT_MAP].
    apply lookup_insert_ne. intros Heq. apply Hk.
    rewrite <- Heq. reflexivity.
  - destruct (startswith (u "https://") line); [|reflexivity].
    unfold bind.
    destruct (last_item (split (u "/") (strip line))) as [name|];
      [|reflexivity].
    cbn [index ret]. intros Hk.
    destruct (startswith _ _);
      cbn [segment_map_set ret snd SEGMENT_MAP];
      apply lookup_insert_ne; intros Heq; apply Hk;
      rewrite <- Heq; reflexivity.
Qed.

Lemma rewrite_lines_other_key (url k : str) (m3u8_lines : list str)
    (w : World) :
  Forall (fun line => written_key line <> Some k) m3u8_lines ->
  SEGMENT_MAP (snd (rewrite_lines lib url m3u8_lines w)) !! k
  = SEGMENT_MAP w !! k.
Proof.
  intros Hall. revert w.
  induction Hall as [|line rest Hline Hrest IH]; intros w; [reflexivity|].
  cbn [rewrite_lines]. unfold bind.
  pose proof (rewrite_line_other_key url line k w Hline) as H1.
  destruct (rewrite_line lib url line w) as [[l|e] w1]; cbn [snd] in H1;
    [|exact H1].
  specialize (IH w1).
  destruct (rewrite_lines lib url rest w1) as [[ls|e] w2]; cbn [snd] in IH;
    cbn [snd ret]; congruence.
Qed.

(** The lines before a line, the line, and the lines after it are
    rewritten one after the other. *)
Lemma rewrite_lines_middle (url line : str) (before after ls : list str)
    (w w' : World) :
  rewrite_lines lib url (before ++ line :: after) w = (Ok ls, w') ->
  exists ls1 l ls2 w1 w2,
    rewrite_lines lib url before w = (Ok ls1, w1)
    /\ rewrite_line lib url line w1 = (Ok l, w2)
    /\ rewrite_lines lib url after w2 = (Ok ls2, w')
    /\ ls = ls1 ++ l :: ls2
    /\ length ls1 = length before.
Proof.
  revert ls w. induction before as [|b before IH]; intros ls w.
  - cbn [app rewrite_lines]. unfold bind.
    destruct (rewrite_line lib url line w) as [[l|e] w2] eqn:E1;
      [|discriminate].
    destruct (rewrite_lines lib url after w2) as [[ls2|e] w3] eqn:E2;
      [|discriminate].
    intros [= <- <-]. exists [], l, ls2, w, w2. auto.
  - cbn [app rewrite_lines]. unfold bind at 1.
    destruct (rewrite_line lib url b w) as [[lb|e] wb] eqn:Eb;
      [|discriminate].
    unfold bind at 1.
    destruct (rewrite_lines lib url (before ++ line :: after) wb)
      as [[ls'|e] w3] eqn:E; [|discriminate].
    intros [= <- <-].
    destruct (IH ls' wb E) as (ls1 & l & ls2 & w1 & w2 & H1 & H2 & H3 & -> & Hlen).
    exists (lb :: ls1), l, ls2, w1, w2.
    split; [cbn [rewrite_lines]; unfold bind; rewrite Eb, H1; reflexivity|].
    cbn [length]. auto.
Qed.

(** The direct-URL line of C2 inside a manifest: when no later line
    writes [seg123.ts], the line comes out as [/seg123.ts] at its place and
    the entry of [seg123.ts] is its target at the end of the pass. *)
Lemma direct_url_line_in_manifest (url host : str)
    (before after ls : list str) (w w' : World) :
  let line := u "https://" ++ host ++ u "/seg123.js" in
  let direct_url := replace (u "https://corsproxy.io/?url=") [] line in
  rewrite_lines lib url (before ++ line :: after) w = (Ok ls, w') ->
  Forall (fun l => written_key l <> Some (u "seg123.ts")) after ->
  ls !! length before = Some (u "/seg123.ts")
  /\ SEGMENT_MAP w' !! u "seg123.ts"
     = Some (if startswith (u "https://flu.streamed.su") direct_url
             then direct_url else bucket_url (u "seg123.js")).
Proof.
  intros line direct_url Hrun Hafter.
  destruct (rewrite_lines_middle url line before after ls w w' Hrun)
    as (ls1 & l & ls2 & w1 & w2 & H1 & H2 & H3 & -> & Hlen).
  pose proof (direct_url_line_run lib url host w1) as Hl.
  cbv zeta in Hl. fold line direct_url in Hl. rewrite Hl in H2.
  assert (Hline : l = u "/seg123.ts") by congruence.
  pose proof (rewrite_lines_other_key url (u "seg123.ts") after w2 Hafter)
    as Hk.
  rewrite H3 in Hk. cbn [snd] in Hk.
  assert (Hw2 : SEGMENT_MAP w2 !! u "seg123.ts"
                = Some (if startswith (u "https://flu.streamed.su") direct_url
                        then direct_url else bucket_url (u "seg123.js"))).
  { assert (Hw : with_segment_map
                   (<[u "seg123.ts" :=
                        if startswith (u "https://flu.streamed.su") direct_url
                        then direct_url else bucket_url (u "seg123.js")]>
                      (SEGMENT_MAP w1)) w1 = w2) by congruence.
    rewrite <- Hw. apply lookup_insert_eq. }
  split.
  - rewrite <- Hlen, Hline. apply list_lookup_middle. reflexivity.
  - rewrite Hk. exact Hw2.
Qed.

End WholeManifest.

(** The manifest of the end-to-end example: one segment line. *)
Example get_playlist_end_to_end :
  get_playlist lib_simple
    (net_serving (ub "#EXTM3U" ++ [Byte.x0a] ++ ub "https://x/seg1.js"
                  ++ [Byte.x0a]))
    (u "https://x/live.m3u8") (unquote lib_simple (u "a%3D1")) initial
  = (Ok {| resp_content := BodyText (u "#EXTM3U" ++ [10] ++ u "/seg1.ts");
           resp_status := 200;
           media_type := u "application/vnd.apple.mpegurl";
           resp_headers := {[ u "Access-Control-Allow-Origin" := u "*" ]} |},
     {| SEGMENT_MAP := {[ u "seg1.ts" := bucket_url (u "seg1.js") ]};
        CACHED_COOKIES := None;
        sent := [mirror_request (u "https://x/live.m3u8") (u "a=1")] |}).
Proof. vm_compute. reflexivity. Qed.

(** Both lines of the served manifest are in the map afterwards. *)
Example world_after_manifest_map :
  SEGMENT_MAP world_after_manifest
  = <[u "seg1.ts" := bucket_url (u "seg1.js")]>
      {[ u "a/b/key.bin" := u "https://x/a/b/key.bin" ]}.
Proof. vm_compute. reflexivity. Qed.

(** * More of the program *)

(** ** The retry loops of the fetcher *)

Lemma bind_assoc {A B C} (c : M A) (f : A -> M B) (g : B -> M C)
    (w : World) :
  bind (bind c f) g w = bind c (fun x => bind (f x) g) w.
Proof. unfold bind. destruct (c w) as [[a|e] w1]; reflexivity. Qed.

Lemma bind_ext {A B} (c : M A) (f g : A -> M B) (w : World) :
  (forall a w', f a w' = g a w') -> bind c f w = bind c g w.
Proof.
  intros H. unfold bind.
  destruct (c w) as [[a|e] w1]; [apply H|reflexivity].
Qed.

Section OnePass.

Context (lib : Lib) (net : list OutRequest -> OutRequest -> NetResult).

(** The attempts on one candidate, followed by the later candidates, are
    the pass over the candidate repeated and then the later ones. *)
Lemma fetch_attempts_one_pass (source_url : str) (headers : gmap str str)
    (retries : nat) (rest : list str) (n a : nat) (w : World) :
  (a + n = S retries)%nat ->
  bind (fetch_attempts lib net source_url headers retries (seq a n))
    (fun r => match r with
              | Some result => ret (Some result)
              | None => try_each lib net headers rest
              end) w
  = try_each lib net headers (repeat source_url n ++ rest) w.
Proof.
  revert a w. induction n as [|n IH]; intros a w Han.
  - reflexivity.
  - cbn [seq fetch_attempts repeat app try_each].
    set (K := fun r : option (bytes * str) =>
                match r with
                | Some result => ret (Some result)
                | None => try_each lib net headers rest
                end) in *.
    assert (Hnext : forall w1,
      bind (if Nat.eqb a retries then ret None
            else fetch_attempts lib net source_url headers retries
                   (seq (S a) n)) K w1
      = try_each lib net headers (repeat source_url n ++ rest) w1).
    { intros w1. destruct (Nat.eqb_spec a retries) as [->|Hne].
      - assert (n = 0%nat) as -> by lia. reflexivity.
      - apply (IH (S a) w1). lia. }
    rewrite bind_assoc. apply bind_ext. intros r w1.
    destruct r as [| |response].
    + apply Hnext.
    + reflexivity.
    + destruct (raise_for_status lib (status_code response));
        [apply Hnext|reflexivity].
Qed.

Lemma fetch_sources_one_pass (sources : list str) (headers : gmap str str)
    (retries : nat) (w : World) :
  fetch_sources lib net sources headers retries w
  = try_each lib net headers
      (flat_map (fun source_url => repeat source_url retries) sources) w.
Proof.
  revert w. induction sources as [|source_url rest IH]; intros w;
    [reflexivity|].
  cbn [fetch_sources flat_map].
  rewrite <- (fetch_attempts_one_pass source_url headers retries _ retries 1)
    by lia.
  unfold bind.
  destruct (fetch_attempts _ _ _ _ _ _ w) as [[[result|]|e] w1];
    try reflexivity.
  apply IH.
Qed.

Lemma fetch_resource_one_pass (url cookies : str) (retries : nat)
    (w : World) :
  fetch_resource lib net url cookies retries w
  = try_each lib net (<[u "Cookie" := cookies]> HEADERS)
      (attempt_urls url retries) w.
Proof. apply fetch_sources_one_pass. Qed.

Context (headers : gmap str str).

Let req (source_url : str) : OutRequest :=
  {| out_method := GET; out_url := source_url; out_headers := headers;
     out_json := None |}.

(** While the attempts fail, the pass goes on to the next URL. *)
Lemma try_each_skip (urls : list str) (k : nat) (w : World) :
  (k <= length urls)%nat ->
  (forall i s, (i < k)%nat -> urls !! i = Some s ->
     attempt_fails lib (net (sent w ++ map req (take i urls)) (req s))
     = true) ->
  try_each lib net headers urls w
  = try_each lib net headers (drop k urls)
      (log w (map req (take k urls))).
Proof.
  revert k w. induction urls as [|s rest IH]; intros k w Hk Hfail.
  - destruct k; [|cbn in Hk; lia]. cbn. rewrite log_nil. reflexivity.
  - destruct k as [|k].
    + cbn [take drop map]. rewrite log_nil. reflexivity.
    + cbn [try_each take drop map]. unfold bind at 1.
      rewrite client_get_run. fold (req s).
      pose proof (Hfail 0%nat s ltac:(lia) eq_refl) as H0.
      cbn [take map] in H0. rewrite app_nil_r in H0.
      assert (Hrest : try_each lib net headers rest (log w [req s])
                      = try_each lib net headers (drop k rest)
                          (log w (req s :: map req (take k rest)))).
      { rewrite (IH k (log w [req s])).
        - rewrite log_log. reflexivity.
        - cbn in Hk. lia.
        - intros i s' Hi Hs'.
          pose proof (Hfail (S i) s' ltac:(lia) Hs') as Hi'.
          cbn [take map] in Hi'. cbn [log sent].
          rewrite <- app_assoc. exact Hi'. }
      destruct (net (sent w) (req s)) as [| |response]; cbn in H0.
      * exact Hrest.
      * discriminate.
      * rewrite H0. exact Hrest.
Qed.

(** The pass is decided by the answer to the first attempt that does not
    fail. *)
Lemma try_each_answer (urls : list str) (k : nat) (s : str) (w : World) :
  urls !! k = Some s ->
  (forall i s', (i < k)%nat -> urls !! i = Some s' ->
     attempt_fails lib (net (sent w ++ map req (take i urls)) (req s'))
     = true) ->
  try_each lib net headers urls w
  = match net (sent w ++ map req (take k urls)) (req s) with
    | NetOtherError =>
        (Raise ClientError, log w (map req (take (S k) urls)))
    | NetHTTPError =>
        try_each lib net headers (drop (S k) urls)
          (log w (map req (take (S k) urls)))
    | NetResponse response =>
        if raise_for_status lib (status_code response)
        then try_each lib net headers (drop (S k) urls)
               (log w (map req (take (S k) urls)))
        else (Ok (Some (content response,
                        resolved_content_type s response)),
              log w (map req (take (S k) urls)))
    end.
Proof.
  intros Hk Hfail.
  rewrite (try_each_skip urls k w);
    [|apply lookup_lt_Some in Hk; lia|exact Hfail].
  rewrite (drop_S _ _ _ Hk). cbn [try_each]. unfold bind.
  rewrite client_get_run. fold (req s). cbn [log sent].
  rewrite (take_S_r _ _ _ Hk), map_app. cbn [map].
  rewrite <- log_log.
  destruct (net _ (req s)) as [| |response]; try reflexivity.
  destruct (raise_for_status lib (status_code response)); reflexivity.
Qed.

Lemma try_each_bounded (urls : list str) (w : World) :
  exists n, (n <= length urls)%nat
    /\ snd (try_each lib net headers urls w)
       = log w (map req (take n urls)).
Proof.
  revert w. induction urls as [|s rest IH]; intros w.
  - exists 0%nat. cbn. rewrite log_nil. auto.
  - cbn [try_each]. unfold bind. rewrite client_get_run. fold (req s).
    destruct (IH (log w [req s])) as (n & Hn & Hlog).
    assert (Hnext : exists n0, (n0 <= length (s :: rest))%nat
              /\ snd (try_each lib net headers rest (log w [req s]))
                 = log w (map req (take n0 (s :: rest)))).
    { exists (S n). cbn [length take map]. rewrite Hlog, log_log.
      split; [lia|reflexivity]. }
    assert (Hone : exists n0, (n0 <= length (s :: rest))%nat
              /\ log w [req s] = log w (map req (take n0 (s :: rest)))).
    { exists 1%nat. cbn [length take map]. rewrite take_0.
      split; [lia|reflexivity]. }
    destruct (net (sent w) (req s)) as [| |response]; cbn [snd].
    + exact Hnext.
    + exact Hone.
    + destruct (raise_for_status lib (status_code response));
        [exact Hnext|exact Hone].
Qed.

End OnePass.

Lemma attempt_urls_length (url : str) (retries : nat) :
  length (attempt_urls url retries) = (3 * retries)%nat.
Proof.
  unfold attempt_urls, candidates. cbn [flat_map].
  rewrite !length_app, !repeat_length. cbn. lia.
Qed.

(** X1.  The first attempt that does not fail decides the fetch: when the
    attempts before the [k]-th fail and the [k]-th returns a response that
    passes [raise_for_status], [fetch_resource] returns that response's
    content with the resolved content type, having sent the first [k+1]
    requests of the candidate sequence and no other. *)
Theorem fetch_resource_first_success
    (lib : Lib) (net : list OutRequest -> OutRequest -> NetResult)
    (url cookies source_url : str) (retries k : nat) (w : World)
    (response : UpResponse) :
  attempt_urls url retries !! k = Some source_url ->
  (forall i s, (i < k)%nat -> attempt_urls url retries !! i = Some s ->
     attempt_fails lib
       (net (sent w ++ attempts_sent url cookies retries i)
          (mirror_request s cookies)) = true) ->
  net (sent w ++ attempts_sent url cookies retries k)
    (mirror_request source_url cookies) = NetResponse response ->
  raise_for_status lib (status_code response) = false ->
  fetch_resource lib net url cookies retries w
  = (Ok (Some (content response,
               resolved_content_type source_url response)),
     log w (attempts_sent url cookies retries (S k))).
Proof.
  intros Hk Hfail Hnet Hok. rewrite fetch_resource_one_pass.
  rewrite (try_each_answer lib net _ _ k source_url w Hk Hfail).
  unfold attempts_sent, mirror_request in Hnet. rewrite Hnet, Hok.
  reflexivity.
Qed.

Lemma fetch_resource_first_success_witness :
  fetch_resource lib_simple net_flu_only
    (u "https://rr.buytommy.top/seg1.js") (u "a=1") 3 initial
  = (Ok (Some (ub "payload", u "video/mp2t")),
     log initial
       (attempts_sent (u "https://rr.buytommy.top/seg1.js") (u "a=1") 3 7)).
Proof.
  apply (fetch_resource_first_success lib_simple net_flu_only
           (u "https://rr.buytommy.top/seg1.js") (u "a=1")
           (u "https://flu.streamed.su/seg1.js") 3 6 initial
           {| status_code := 200; up_headers := ∅;
              content := ub "payload"; text := [] |}).
  - reflexivity.
  - intros i s Hi Hs.
    do 6 (destruct i as [|i];
          [vm_compute in Hs; injection Hs as <-; reflexivity|]).
    lia.
  - reflexivity.
  - reflexivity.
Defined.

(** X2.  An exception of the client that is not an [httpx.HTTPError]
    escapes [fetch_resource]: raised at the [k]-th attempt after failed
    ones, it ends the fetch there, and no later candidate is tried. *)
Theorem fetch_resource_client_error
    (lib : Lib) (net : list OutRequest -> OutRequest -> NetResult)
    (url cookies source_url : str) (retries k : nat) (w : World) :
  attempt_urls url retries !! k = Some source_url ->
  (forall i s, (i < k)%nat -> attempt_urls url retries !! i = Some s ->
     attempt_fails lib
       (net (sent w ++ attempts_sent url cookies retries i)
          (mirror_request s cookies)) = true) ->
  net (sent w ++ attempts_sent url cookies retries k)
    (mirror_request source_url cookies) = NetOtherError ->
  fetch_resource lib net url cookies retries w
  = (Raise ClientError, log w (attempts_sent url cookies retries (S k))).
Proof.
  intros Hk Hfail Hnet. rewrite fetch_resource_one_pass.
  rewrite (try_each_answer lib net _ _ k source_url w Hk Hfail).
  unfold attempts_sent, mirror_request in Hnet. rewrite Hnet. reflexivity.
Qed.

Lemma fetch_resource_client_error_witness :
  fetch_resource lib_simple net_breaks_second
    (u "https://rr.buytommy.top/seg1.js") (u "a=1") 3 initial
  = (Raise ClientError,
     log initial
       (attempts_sent (u "https://rr.buytommy.top/seg1.js") (u "a=1") 3 2)).
Proof.
  apply (fetch_resource_client_error lib_simple net_breaks_second
           (u "https://rr.buytommy.top/seg1.js") (u "a=1")
           (u "https://rr.buytommy.top/seg1.js") 3 1 initial).
  - reflexivity.
  - intros i s Hi Hs.
    destruct i as [|i];
      [vm_compute in Hs; injection Hs as <-; reflexivity|lia].
  - reflexivity.
Defined.

(** X3.  Whatever the upstream does, the requests of one fetch are an
    initial part of the candidate sequence: at most three times [retries]
    of them, in candidate order, and the globals are untouched. *)
Theorem fetch_resource_attempts_bounded
    (lib : Lib) (net : list OutRequest -> OutRequest -> NetResult)
    (url cookies : str) (retries : nat) (w : World) :
  exists n, (n <= 3 * retries)%nat
    /\ snd (fetch_resource lib net url cookies retries w)
       = log w (attempts_sent url cookies retries n).
Proof.
  rewrite fetch_resource_one_pass.
  destruct (try_each_bounded lib net (<[u "Cookie" := cookies]> HEADERS)
              (attempt_urls url retries) w) as (n & Hn & Hlog).
  exists n. rewrite attempt_urls_length in Hn.
  split; [exact Hn|exact Hlog].
Qed.

(** ** The mirror candidates *)

Lemma replace_absent (old new s : str) :
  old <> [] -> contains old s = false -> replace old new s = s.
Proof.
  intros Hne Hc. unfold replace. destruct old; [congruence|].
  rewrite (split_no_sep _ _ Hc). reflexivity.
Qed.

Lemma relay_eq :
  u "rr.buytommy.top"
  = [114; 114; 46; 98; 117; 121; 116; 111; 109; 109; 121; 46; 116; 111; 112].
Proof. reflexivity. Qed.

Lemma replace_relay (new path : str) :
  contains (u "rr.buytommy.top") path = false ->
  replace (u "rr.buytommy.top") new (u "https://rr.buytommy.top" ++ path)
  = u "https://" ++ new ++ path.
Proof.
  intros Hc. unfold replace. rewrite relay_eq in *.
  rewrite split_unfold by discriminate.
  assert (Hp : partition
                 [114; 114; 46; 98; 117; 121; 116; 111; 109; 109; 121; 46;
                  116; 111; 112]
                 (u "https://rr.buytommy.top" ++ path)
               = Some (u "https://", path)) by reflexivity.
  rewrite Hp, (split_no_sep _ _ Hc). cbn [join]. reflexivity.
Qed.

(** X4.  A URL that does not name the relay host has three equal
    candidates: the fetch retries the same URL. *)
Theorem candidates_without_relay (url : str) :
  contains (u "rr.buytommy.top") url = false ->
  candidates url = [url; url; url].
Proof.
  intros Hc. unfold candidates.
  rewrite !replace_absent by (discriminate || assumption). reflexivity.
Qed.

Lemma candidates_without_relay_witness :
  candidates (u "https://other/x")
  = [u "https://other/x"; u "https://other/x"; u "https://other/x"].
Proof. apply candidates_without_relay. reflexivity. Defined.

(** X5.  The candidates of a URL on the relay host are the URL itself, then
    the same path on the panel host, then on the direct-media host. *)
Theorem candidates_of_relay_url (path : str) :
  contains (u "rr.buytommy.top") path = false ->
  candidates (u "https://rr.buytommy.top" ++ path)
  = [u "https://rr.buytommy.top" ++ path;
     u "https://p2-panel.streamed.su" ++ path;
     u "https://flu.streamed.su" ++ path].
Proof.
  intros Hc. unfold candidates. rewrite !replace_relay by assumption.
  reflexivity.
Qed.

Lemma candidates_of_relay_url_witness :
  candidates (u "https://rr.buytommy.top" ++ u "/x")
  = [u "https://rr.buytommy.top" ++ u "/x";
     u "https://p2-panel.streamed.su" ++ u "/x";
     u "https://flu.streamed.su" ++ u "/x"].
Proof. apply candidates_of_relay_url. reflexivity. Defined.

(** ** The cookie handshake *)

Lemma join_truthy (sep x : str) (l : list str) :
  truthy x = true -> truthy (join sep (x :: l)) = true.
Proof. destruct x; [discriminate|]. intros _. destruct l; reflexivity. Qed.

(** The formatted string is empty exactly when the handshake has set none
    of the required cookies. *)
Lemma format_cookies_truthy (cookie_dict : gmap str str) :
  truthy (format_cookies cookie_dict) = true
  <-> exists key, key ∈ required_cookies /\ is_Some (cookie_dict !! key).
Proof.
  unfold format_cookies.
  generalize required_cookies as keys.
  induction keys as [|key keys IH].
  - cbn. split; [discriminate|].
    intros (k & Hk & _). apply elem_of_nil in Hk. contradiction.
  - rewrite filter_cons.
    destruct (decide (is_Some (cookie_dict !! key))) as [Hs|Hn].
    + cbn [map]. split.
      * intros _. exists key. split; [left|exact Hs].
      * intros _. apply join_truthy. destruct key; reflexivity.
    + rewrite IH. split.
      * intros (k & Hk & Hs). exists k. split; [right; exact Hk|exact Hs].
      * intros (k & Hk & Hs).
        apply elem_of_cons in Hk as [->|Hk]; [contradiction|].
        exists k. auto.
Qed.

(** X6.  What [fetch_cookies] can do.  A returned string is non-empty and
    is what the cache holds afterwards: either it was cached and nothing
    happened, or the cache was empty, one handshake was sent and the string
    stored.  [None] and an escaping exception (only the client's own, not
    an [httpx.HTTPError]) come after exactly one handshake, with the cache
    left as it was. *)
Theorem fetch_cookies_outcome
    (net : list OutRequest -> OutRequest -> NetResult) (w : World) :
  match fetch_cookies net w with
  | (Ok (Some c), w') =>
      truthy c = true /\ CACHED_COOKIES w' = Some c
      /\ (CACHED_COOKIES w = Some c /\ w' = w
          \/ truthy_opt (CACHED_COOKIES w) = false
             /\ w' = cache_store c (log w [handshake]))
  | (Ok None, w') =>
      truthy_opt (CACHED_COOKIES w) = false /\ w' = log w [handshake]
  | (Raise e, w') =>
      e = ClientError /\ truthy_opt (CACHED_COOKIES w) = false
      /\ w' = log w [handshake]
  end.
Proof.
  unfold fetch_cookies, bind, cached_cookies_get.
  destruct (CACHED_COOKIES w) as [c|] eqn:Hc; cbn [truthy_opt].
  - destruct (truthy c) eqn:Ht.
    + cbn [ret]. auto.
    + unfold client_post, send. fold handshake.
      destruct (net (sent w) handshake) as [| |response];
        cbn [ret raise]; auto.
      destruct (up_headers response !! u "set-cookie") as [cookies|];
        cbn [ret]; auto.
      destruct (truthy cookies); cbn [negb ret]; auto.
      destruct (truthy (format_cookies _)) eqn:Hf;
        cbn [negb ret cached_cookies_set]; auto.
  - unfold client_post, send. fold handshake.
    destruct (net (sent w) handshake) as [| |response];
      cbn [ret raise]; auto.
    destruct (up_headers response !! u "set-cookie") as [cookies|];
      cbn [ret]; auto.
    destruct (truthy cookies); cbn [negb ret]; auto.
    destruct (truthy (format_cookies _)) eqn:Hf;
      cbn [negb ret cached_cookies_set]; auto.
Qed.

(** X7.  With an empty cache and a handshake response that carries a
    [set-cookie] header: when the header sets none of the four required
    cookies the function returns [None] and caches nothing; when it sets at
    least one, the function returns the formatted string and caches it. *)
Theorem fetch_cookies_handshake
    (net : list OutRequest -> OutRequest -> NetResult) (w : World)
    (response : UpResponse) (cookies : str) :
  truthy_opt (CACHED_COOKIES w) = false ->
  net (sent w) handshake = NetResponse response ->
  up_headers response !! u "set-cookie" = Some cookies ->
  let cookie_dict := foldl parse_cookie ∅ (split (u ",") cookies) in
  ((forall key, key ∈ required_cookies -> cookie_dict !! key = None) ->
   fetch_cookies net w = (Ok None, log w [handshake]))
  /\ ((exists key, key ∈ required_cookies /\ is_Some (cookie_dict !! key)) ->
      fetch_cookies net w
      = (Ok (Some (format_cookies cookie_dict)),
         cache_store (format_cookies cookie_dict) (log w [handshake]))).
Proof.
  intros Hc Hnet Hh cookie_dict.
  assert (Hrun : fetch_cookies net w
                 = if negb (truthy cookies) then (Ok None, log w [handshake])
                   else if negb (truthy (format_cookies cookie_dict))
                        then (Ok None, log w [handshake])
                        else (Ok (Some (format_cookies cookie_dict)),
                              cache_store (format_cookies cookie_dict)
                                (log w [handshake]))).
  { unfold fetch_cookies, bind, cached_cookies_get. rewrite Hc.
    unfold client_post, send. fold handshake. rewrite Hnet, Hh.
    destruct (truthy cookies); [|reflexivity]. cbn [negb].
    fold cookie_dict.
    destruct (truthy (format_cookies cookie_dict)); reflexivity. }
  rewrite Hrun. split.
  - intros Hnone. destruct (truthy cookies); [|reflexivity]. cbn [negb].
    destruct (truthy (format_cookies cookie_dict)) eqn:Hf; [|reflexivity].
    apply format_cookies_truthy in Hf as (key & Hk & Hs).
    rewrite (Hnone key Hk) in Hs. destruct Hs as [? [=]].
  - intros Hsome.
    pose proof (proj2 (format_cookies_truthy cookie_dict) Hsome) as Hf.
    rewrite Hf. cbn [negb].
    destruct (truthy cookies) eqn:Ht; [reflexivity|].
    destruct cookies; [|discriminate].
    destruct Hsome as (key & Hk & Hs). unfold cookie_dict in Hs.
    vm_compute in Hs. destruct Hs as [? [=]].
Qed.

Lemma fetch_cookies_handshake_witness :
  fetch_cookies net_handshake initial
  = (Ok (Some (u "ddg8_=abc")),
     cache_store (u "ddg8_=abc") (log initial [handshake])).
Proof.
  apply (proj2 (fetch_cookies_handshake net_handshake initial
                  {| status_code := 200;
                     up_headers :=
                       {[ u "set-cookie" := u "__ddg8_=abc; Path=/" ]};
                     content := [];
                     text := [] |}
                  (u "__ddg8_=abc; Path=/") eq_refl eq_refl eq_refl)).
  exists (u "ddg8_"). split; [left|vm_compute; eauto].
Defined.

Lemma fetch_cookies_cache_formatted
    (net : list OutRequest -> OutRequest -> NetResult) :
  preserves cache_formatted (fetch_cookies net).
Proof.
  intros w Hw.
  unfold fetch_cookies, bind, cached_cookies_get in *.
  destruct (truthy_opt (CACHED_COOKIES w)); [exact Hw|].
  unfold client_post, send in *.
  destruct (net _ _) as [| |response]; try exact Hw.
  destruct (up_headers response !! u "set-cookie") as [cookies|];
    [|exact Hw].
  destruct (truthy cookies); [|exact Hw]. cbn [negb] in *.
  destruct (truthy (format_cookies _)) eqn:Hf; [|exact Hw].
  intros c [= <-]. split; [exact Hf|]. eauto.
Qed.

(** X8.  In every state the process can reach, a value held by
    [CACHED_COOKIES] is a non-empty string of the form the handshake
    builds: the required cookies some dict holds, in the fixed order,
    as [key=value] joined by [; ]. *)
Theorem cached_cookies_formatted
    (lib : Lib) (net : list OutRequest -> OutRequest -> NetResult)
    (w : World) (c : str) :
  reachable lib net w ->
  CACHED_COOKIES w = Some c ->
  truthy c = true
  /\ exists cookie_dict : gmap str str,
       c = join (u "; ")
             (map (fun key =>
                     key ++ u "=" ++ default (u "None") (cookie_dict !! key))
                (filter (fun key => is_Some (cookie_dict !! key))
                   required_cookies)).
Proof.
  intros Hr. revert c.
  change (cache_formatted w).
  induction Hr as [|op w Hr IH].
  - intros c [=].
  - apply (preserves_run lib net cache_formatted); try assumption.
    + intros w' l Hw'. exact Hw'.
    + apply fetch_cookies_cache_formatted.
    + intros w' m Hw'. exact Hw'.
Qed.

Lemma cached_cookies_formatted_witness :
  truthy (u "ddg8_=abc") = true
  /\ exists cookie_dict : gmap str str,
       u "ddg8_=abc"
       = join (u "; ")
           (map (fun key =>
                   key ++ u "=" ++ default (u "None") (cookie_dict !! key))
              (filter (fun key => is_Some (cookie_dict !! key))
                 required_cookies)).
Proof.
  apply (cached_cookies_formatted lib_simple net_handshake
           world_with_cookies (u "ddg8_=abc")).
  - apply (reachable_run lib_simple net_handshake OpFetchCookies initial).
    apply reachable_initial.
  - reflexivity.
Defined.

Lemma contains1_app (c : N) (a t : str) :
  contains [c] (a ++ t) = contains [c] a || contains [c] t.
Proof.
  induction a as [|x a IH].
  - cbn [app]. destruct t; reflexivity.
  - cbn [app contains startswith]. rewrite IH.
    destruct (c =? x); reflexivity.
Qed.

Lemma lstrip_no_space (s : str) :
  Forall (fun c => isspace c = false) s -> lstrip s = s.
Proof. intros [|c s' Hc Hs]; [reflexivity|]. apply lstrip_nonspace, Hc. Qed.

Lemma strip_no_space (s : str) :
  Forall (fun c => isspace c = false) s -> strip s = s.
Proof.
  intros Hs. unfold strip, rstrip. rewrite (lstrip_no_space s Hs).
  rewrite lstrip_no_space; [apply rev_involutive|].
  apply List.Forall_rev, Hs.
Qed.

(** X9.  How one [set-cookie] item is read.  For a name and a value without
    whitespace, [=] and [;]: the item [name=value] sets the name, leading
    underscores stripped, to the value; attributes after a [;] are ignored;
    and an item whose first part has a second [=] sets nothing. *)
Theorem parse_cookie_pair (cookie_dict : gmap str str) (name value : str) :
  cookie_token name -> cookie_token value ->
  parse_cookie cookie_dict (name ++ u "=" ++ value)
  = <[lstrip_chars (u "_") name := value]> cookie_dict
  /\ (forall attributes,
        parse_cookie cookie_dict
          (name ++ u "=" ++ value ++ u ";" ++ attributes)
        = <[lstrip_chars (u "_") name := value]> cookie_dict)
  /\ (forall more,
        cookie_token more ->
        parse_cookie cookie_dict (name ++ u "=" ++ value ++ u "=" ++ more)
        = cookie_dict).
Proof.
  intros (Hns & Hne & Hnc) (Hvs & Hve & Hvc).
  assert (Heq : isspace 61 = false) by reflexivity.
  assert (Hn' : split [61] name = [name]) by exact (split_no_sep _ _ Hne).
  assert (Hv' : split [61] value = [value]) by exact (split_no_sep _ _ Hve).
  assert (Hs0 : Forall (fun c => isspace c = false) (name ++ 61 :: value)).
  { apply Forall_app. split; [exact Hns|]. constructor; assumption. }
  assert (Hc0 : contains [59] (name ++ 61 :: value) = false).
  { rewrite contains1_app.
    change (contains [59] name) with (contains (u ";") name).
    rewrite Hnc. cbn [orb contains startswith].
    change (contains [59] value) with (contains (u ";") value).
    rewrite Hvc. reflexivity. }
  assert (Hpair : forall d : gmap str str,
     match split (u "=") (strip (name ++ 61 :: value)) with
     | [n; v] => <[lstrip_chars (u "_") (strip n) := strip v]> d
     | _ => d
     end = <[lstrip_chars (u "_") name := value]> d).
  { intros d. rewrite (strip_no_space _ Hs0). change (u "=") with [61].
    rewrite split1_app, Hn', Hv'. cbn [app].
    rewrite (strip_no_space _ Hns), (strip_no_space _ Hvs). reflexivity. }
  split; [|split].
  - unfold parse_cookie. change (u ";") with [59].
    change (name ++ u "=" ++ value) with (name ++ 61 :: value).
    rewrite (split_no_sep _ _ Hc0). cbn [hd]. apply Hpair.
  - intros attributes. unfold parse_cookie. change (u ";") with [59].
    change (name ++ u "=" ++ value ++ [59] ++ attributes)
      with (name ++ 61 :: value ++ 59 :: attributes).
    replace (name ++ 61 :: value ++ 59 :: attributes)
      with ((name ++ 61 :: value) ++ 59 :: attributes)
      by (rewrite <- app_assoc; reflexivity).
    rewrite split1_app, (split_no_sep _ _ Hc0). cbn [app hd]. apply Hpair.
  - intros more (Hms & Hme & Hmc). unfold parse_cookie.
    change (u ";") with [59].
    change (name ++ u "=" ++ value ++ u "=" ++ more)
      with (name ++ 61 :: (value ++ 61 :: more)).
    assert (Hs1 : Forall (fun c => isspace c = false)
                    (name ++ 61 :: (value ++ 61 :: more))).
    { apply Forall_app. split; [exact Hns|]. constructor; [exact Heq|].
      apply Forall_app. split; [exact Hvs|]. constructor; assumption. }
    assert (Hc1 : contains [59] (name ++ 61 :: (value ++ 61 :: more))
                  = false).
    { rewrite contains1_app.
      change (contains [59] name) with (contains (u ";") name).
      rewrite Hnc. cbn [orb contains startswith].
      cbn [N.eqb Pos.eqb andb orb].
      rewrite contains1_app.
      change (contains [59] value) with (contains (u ";") value).
      rewrite Hvc.
      cbn [orb contains startswith N.eqb Pos.eqb andb].
      exact Hmc. }
    rewrite (split_no_sep _ _ Hc1). cbn [hd].
    rewrite (strip_no_space _ Hs1). change (u "=") with [61].
    rewrite !split1_app, Hn', Hv'.
    assert (Hm' : split [61] more = [more]) by exact (split_no_sep _ _ Hme).
    rewrite Hm'. reflexivity.
Qed.

Lemma parse_cookie_pair_witness :
  parse_cookie ∅ (u "__ddg8_" ++ u "=" ++ u "abc")
  = <[u "ddg8_" := u "abc"]> ∅.
Proof.
  apply (proj1 (parse_cookie_pair ∅ (u "__ddg8_") (u "abc")
                  ltac:(split; [repeat constructor|split; reflexivity])
                  ltac:(split; [repeat constructor|split; reflexivity]))).
Defined.

(** ** Which operation writes which global *)

(** X10.  Only the manifest route writes [SEGMENT_MAP], and only the
    manifest route and the cookie handshake write [CACHED_COOKIES]: every
    other operation, the resource route included, leaves them as they
    were, whatever the upstream answers. *)
Theorem globals_written_by_few
    (lib : Lib) (net : list OutRequest -> OutRequest -> NetResult)
    (op : Op) (w : World) :
  (forall url cookies, op <> OpGetPlaylist url cookies) ->
  SEGMENT_MAP (run lib net op w) = SEGMENT_MAP w
  /\ (op <> OpFetchCookies ->
      CACHED_COOKIES (run lib net op w) = CACHED_COOKIES w).
Proof.
  intros Hop.
  assert (Hlog : forall (w' : World) (l : list OutRequest),
             SEGMENT_MAP w' = SEGMENT_MAP w ->
             SEGMENT_MAP (log w' l) = SEGMENT_MAP w)
    by (intros w' l Hw'; exact Hw').
  assert (Hlog' : forall (w' : World) (l : list OutRequest),
             CACHED_COOKIES w' = CACHED_COOKIES w ->
             CACHED_COOKIES (log w' l) = CACHED_COOKIES w)
    by (intros w' l Hw'; exact Hw').
  destruct op; cbn [run].
  - split; reflexivity.
  - split; [|congruence].
    apply (fetch_cookies_keeps_segment_map net (SEGMENT_MAP w) w eq_refl).
  - split; [apply (preserves_fetch_m3u8_url lib net _ Hlog w eq_refl)|].
    intros _. apply (preserves_fetch_m3u8_url lib net _ Hlog' w eq_refl).
  - split;
      [apply (preserves_fetch_resource lib net _ Hlog _ _ _ w eq_refl)|].
    intros _.
    apply (preserves_fetch_resource lib net _ Hlog' _ _ _ w eq_refl).
  - exfalso. apply (Hop url cookies). reflexivity.
  - split; [apply (preserves_get_resource lib net _ Hlog _ _ w eq_refl)|].
    intros _. apply (preserves_get_resource lib net _ Hlog' _ _ w eq_refl).
Qed.

Lemma globals_written_by_few_witness :
  SEGMENT_MAP
    (run lib_simple (net_serving (ub "0123456789"))
       (OpGetResource (u "seg1.ts")
          {| query_cookies := Some (u "a=1"); header_range := None |})
       world_after_manifest)
  = SEGMENT_MAP world_after_manifest
  /\ CACHED_COOKIES
       (run lib_simple (net_serving (ub "0123456789"))
          (OpGetResource (u "seg1.ts")
             {| query_cookies := Some (u "a=1"); header_range := None |})
          world_after_manifest)
     = CACHED_COOKIES world_after_manifest.
Proof.
  destruct (globals_written_by_few lib_simple (net_serving (ub "0123456789"))
              (OpGetResource (u "seg1.ts")
                 {| query_cookies := Some (u "a=1"); header_range := None |})
              world_after_manifest ltac:(discriminate)) as [Hm Hc].
  split; [exact Hm|apply Hc; discriminate].
Defined.

(** ** The rewriter, line by line *)

Lemma https_not_key (line : str) :
  startswith (u "https://") line = true -> is_key_line line = false.
Proof.
  unfold is_key_line. destruct line as [|c line]; [discriminate|].
  cbn [startswith u]. intros H. apply andb_true_iff in H as [H _].
  apply N.eqb_eq in H. rewrite <- H. reflexivity.
Qed.

Lemma startswith_truthy (p s : str) :
  p <> [] -> startswith p s = true -> truthy s = true.
Proof. destruct p; [congruence|]. destruct s; [discriminate|reflexivity]. Qed.

Lemma resolve_mapped (m : gmap str str) (path target : str) :
  m !! path = Some target -> truthy target = true -> resolve m path = target.
Proof.
  intros Hm Ht. unfold resolve. rewrite Hm. cbn [truthy_opt]. rewrite Ht.
  reflexivity.
Qed.

Lemma resolve_unmapped (m : gmap str str) (path : str) :
  m !! path = None ->
  resolve m path
  = u "https://rr.buytommy.top/" ++ replace (u ".ts") (u ".js") path.
Proof. intros Hm. unfold resolve. rewrite Hm. reflexivity. Qed.

(** The upstream URL a segment line is mapped to. *)
Lemma segment_target_truthy (line path : str) :
  truthy
    (if startswith (u "https://flu.streamed.su")
          (replace (u "https://corsproxy.io/?url=") [] (strip line))
     then replace (u "https://corsproxy.io/?url=") [] (strip line)
     else bucket_url (replace (u ".ts") (u ".js") path)) = true.
Proof.
  destruct (startswith (u "https://flu.streamed.su") _) eqn:Hf.
  - apply (startswith_truthy (u "https://flu.streamed.su"));
      [discriminate|exact Hf].
  - reflexivity.
Qed.

Section Shape.

Context (lib : Lib).

Lemma rewrite_line_plain (url line : str) (w : World) :
  is_key_line line = false -> startswith (u "https://") line = false ->
  rewrite_line lib url line w = (Ok line, w).
Proof.
  intros Hk Hh. unfold rewrite_line.
  change (startswith (u "#EXT-X-KEY") line && contains (u "URI=") line)
    with (is_key_line line).
  rewrite Hk, Hh. reflexivity.
Qed.

Lemma rewrite_line_segment (url line : str) (w : World) :
  startswith (u "https://") line = true ->
  exists path,
    written_key line = Some path
    /\ rewrite_line lib url line w
       = (Ok (u "/" ++ path),
          with_segment_map
            (<[path :=
                 if startswith (u "https://flu.streamed.su")
                      (replace (u "https://corsproxy.io/?url=") []
                         (strip line))
                 then replace (u "https://corsproxy.io/?url=") []
                        (strip line)
                 else bucket_url (replace (u ".ts") (u ".js") path)]>
               (SEGMENT_MAP w)) w).
Proof.
  intros Hh. pose proof (https_not_key line Hh) as Hk.
  destruct (last_item_split (u "/") (strip line)) as [name Hn].
  exists (replace (u ".js") (u ".ts") name). split.
  - unfold written_key. rewrite Hk, Hh, Hn. reflexivity.
  - unfold rewrite_line.
    change (startswith (u "#EXT-X-KEY") line && contains (u "URI=") line)
      with (is_key_line line).
    rewrite Hk, Hh. unfold bind. rewrite Hn. cbn [index ret].
    destruct (startswith (u "https://flu.streamed.su") _); reflexivity.
Qed.

Lemma rewrite_line_keeps_keys (url line k : str) (w : World) :
  is_Some (SEGMENT_MAP w !! k) ->
  is_Some (SEGMENT_MAP (snd (rewrite_line lib url line w)) !! k).
Proof.
  intros Hk. unfold rewrite_line.
  destruct (startswith (u "#EXT-X-KEY") line && contains (u "URI=") line).
  - unfold bind.
    destruct (item (split (u "URI=" ++ quote) line) 1) as [after|];
      [|exact Hk].
    cbn [index ret].
    destruct (item (split quote after) 0) as [uri|]; [|exact Hk].
    cbn [index ret].
    destruct (urljoin lib url uri); [|exact Hk].
    cbn [or_ValueError ret segment_map_set snd SEGMENT_MAP].
    apply lookup_insert_is_Some'. auto.
  - destruct (startswith (u "https://") line); [|exact Hk].
    unfold bind.
    destruct (last_item (split (u "/") (strip line))) as [name|];
      [|exact Hk].
    cbn [index ret].
    destruct (startswith _ _); cbn [segment_map_set ret snd SEGMENT_MAP];
      apply lookup_insert_is_Some'; auto.
Qed.

Lemma rewrite_lines_keeps_keys (url k : str) (m3u8_lines : list str)
    (w : World) :
  is_Some (SEGMENT_MAP w !! k) ->
  is_Some (SEGMENT_MAP (snd (rewrite_lines lib url m3u8_lines w)) !! k).
Proof.
  revert w. induction m3u8_lines as [|line rest IH]; intros w Hk;
    [exact Hk|].
  cbn [rewrite_lines]. unfold bind.
  pose proof (rewrite_line_keeps_keys url line k w Hk) as H1.
  destruct (rewrite_line lib url line w) as [[l|e] w1]; cbn [snd] in H1;
    [|exact H1].
  specialize (IH w1 H1).
  destruct (rewrite_lines lib url rest w1) as [[ls|e] w2]; exact IH.
Qed.

End Shape.

(** X11.  A pass over a manifest whose lines pass the loop gives back as
    many lines as it was given: a line that is neither a key line nor an
    [https://] line is left as it is, and an [https://] line becomes the
    slash followed by the key it is filed under, a key that [SEGMENT_MAP]
    holds at the end of the pass. *)
Theorem rewrite_lines_shape (lib : Lib) (url : str)
    (m3u8_lines out : list str) (w w' : World) :
  rewrite_lines lib url m3u8_lines w = (Ok out, w') ->
  length out = length m3u8_lines
  /\ forall i line,
       m3u8_lines !! i = Some line ->
       (is_key_line line = false -> startswith (u "https://") line = false ->
        out !! i = Some line)
       /\ (startswith (u "https://") line = true ->
           exists path,
             written_key line = Some path
             /\ out !! i = Some (u "/" ++ path)
             /\ is_Some (SEGMENT_MAP w' !! path)).
Proof.
  revert out w. induction m3u8_lines as [|line0 rest IH]; intros out w Hrun.
  - cbn in Hrun. injection Hrun as <- <-. split; [reflexivity|].
    intros i line Hi. rewrite lookup_nil in Hi. discriminate.
  - cbn [rewrite_lines] in Hrun. unfold bind in Hrun.
    destruct (rewrite_line lib url line0 w) as [[l|e] w1] eqn:E1;
      [|discriminate].
    destruct (rewrite_lines lib url rest w1) as [[ls|e] w2] eqn:E2;
      [|discriminate].
    unfold ret in Hrun. injection Hrun as <- <-.
    destruct (IH ls w1 E2) as [Hlen Hall].
    split; [change (S (length ls) = S (length rest)); f_equal; exact Hlen|].
    intros [|i] line Hi.
    + cbn in Hi. assert (line = line0) by congruence. subst line. split.
      * intros Hk Hh. rewrite (rewrite_line_plain lib url line0 w Hk Hh) in E1.
        change (Some l = Some line0). congruence.
      * intros Hh.
        destruct (rewrite_line_segment lib url line0 w Hh) as (path & Hp & Hr).
        rewrite Hr in E1. exists path. split; [exact Hp|]. split.
        -- change (Some l = Some (u "/" ++ path)). congruence.
        -- pose proof (rewrite_lines_keeps_keys lib url path rest w1) as Hkeep.
           rewrite E2 in Hkeep. apply Hkeep.
           assert (Hw1 : SEGMENT_MAP w1
                         = SEGMENT_MAP
                             (with_segment_map
                                (<[path :=
                                     if startswith
                                          (u "https://flu.streamed.su")
                                          (replace
                                             (u "https://corsproxy.io/?url=")
                                             [] (strip line0))
                                     then replace
                                            (u "https://corsproxy.io/?url=")
                                            [] (strip line0)
                                     else bucket_url
                                            (replace (u ".ts") (u ".js")
                                               path)]>
                                   (SEGMENT_MAP w)) w)) by congruence.
           rewrite Hw1. cbn [with_segment_map SEGMENT_MAP].
           rewrite lookup_insert_eq. eauto.
    + cbn in Hi. apply (Hall i line Hi).
Qed.

Lemma rewrite_lines_shape_witness :
  length [u "#EXTM3U"; u "/seg2.ts"]
  = length [u "#EXTM3U"; u "https://flu.streamed.su/live/seg2.js"]
  /\ forall i line,
       [u "#EXTM3U"; u "https://flu.streamed.su/live/seg2.js"] !! i
       = Some line ->
       (is_key_line line = false -> startswith (u "https://") line = false ->
        [u "#EXTM3U"; u "/seg2.ts"] !! i = Some line)
       /\ (startswith (u "https://") line = true ->
           exists path,
             written_key line = Some path
             /\ [u "#EXTM3U"; u "/seg2.ts"] !! i = Some (u "/" ++ path)
             /\ is_Some
                  (SEGMENT_MAP
                     (snd (rewrite_lines lib_simple (u "https://x/live.m3u8")
                             [u "#EXTM3U";
                              u "https://flu.streamed.su/live/seg2.js"]
                             initial)) !! path)).
Proof.
  apply (rewrite_lines_shape lib_simple (u "https://x/live.m3u8")
           [u "#EXTM3U"; u "https://flu.streamed.su/live/seg2.js"]
           [u "#EXTM3U"; u "/seg2.ts"] initial).
  reflexivity.
Defined.


(** X12.  A pass starts from an empty map: whether it ends well or fails
    at some line, [SEGMENT_MAP] afterwards holds no key that no line of the
    new manifest writes.  The entries of the manifest served before are
    gone. *)
Theorem rewrite_discards_stale (lib : Lib) (url k : str) (body : bytes)
    (m3u8_content : str) (w : World) :
  decode_utf8 body = Some m3u8_content ->
  contains (u "#EXTM3U") m3u8_content = true ->
  Forall (fun line => written_key line <> Some k)
    (splitlines m3u8_content) ->
  SEGMENT_MAP (snd (rewrite lib url body w)) !! k = None.
Proof.
  intros Hd Hc Hk. unfold rewrite. rewrite Hd, Hc. cbn [negb].
  unfold bind at 1. cbn [segment_map_clear].
  unfold bind at 1.
  destruct (urlparse lib url) as [[scheme netloc]|];
    cbn [or_ValueError ret raise]; [|apply lookup_empty].
  unfold bind.
  pose proof (rewrite_lines_other_key lib url k (splitlines m3u8_content)
                {| SEGMENT_MAP := ∅; CACHED_COOKIES := CACHED_COOKIES w;
                   sent := sent w |} Hk) as Ho.
  destruct (rewrite_lines lib url (splitlines m3u8_content) _)
    as [[ls|e] w2];
    cbn [snd ret] in *; rewrite Ho; apply lookup_empty.
Qed.

Lemma rewrite_discards_stale_witness :
  is_Some (SEGMENT_MAP world_after_manifest !! u "seg1.ts")
  /\ SEGMENT_MAP
       (snd (rewrite lib_simple (u "https://x/live.m3u8")
               second_manifest_body world_after_manifest)) !! u "seg1.ts"
     = None.
Proof.
  split; [vm_compute; eauto|].
  apply (rewrite_discards_stale lib_simple (u "https://x/live.m3u8")
           (u "seg1.ts") second_manifest_body second_manifest_text
           world_after_manifest).
  - reflexivity.
  - reflexivity.
  - change (splitlines second_manifest_text)
      with [u "#EXTM3U"; u "#EXTINF:4.0,";
            u "https://flu.streamed.su/live/seg2.js"].
    repeat (apply Forall_cons; split; [vm_compute; discriminate|]).
    apply Forall_nil. exact I.
Defined.

(** X13.  Round trip of a segment line.  In a pass that ends well, an
    [https://] line comes out as the path [/name] at its place, and when no
    later line writes the same key, a request for that path resolves to
    the upstream the line stood for: the line's URL without the CORS-proxy
    prefix when that begins with the direct-media text, the fixed-bucket URL
    otherwise. *)
Theorem segment_line_round_trip (lib : Lib) (url line : str)
    (before after ls : list str) (w w' : World) :
  startswith (u "https://") line = true ->
  rewrite_lines lib url (before ++ line :: after) w = (Ok ls, w') ->
  exists path,
    written_key line = Some path
    /\ ls !! length before = Some (u "/" ++ path)
    /\ (Forall (fun l => written_key l <> Some path) after ->
        resolve (SEGMENT_MAP w') path
        = if startswith (u "https://flu.streamed.su")
               (replace (u "https://corsproxy.io/?url=") [] (strip line))
          then replace (u "https://corsproxy.io/?url=") [] (strip line)
          else bucket_url (replace (u ".ts") (u ".js") path)).
Proof.
  intros Hh Hrun.
  destruct (rewrite_lines_middle lib url line before after ls w w' Hrun)
    as (ls1 & l & ls2 & w1 & w2 & H1 & H2 & H3 & -> & Hlen).
  destruct (rewrite_line_segment lib url line w1 Hh) as (path & Hp & Hr).
  rewrite Hr in H2. exists path. split; [exact Hp|]. split.
  - assert (Hl : l = u "/" ++ path) by congruence.
    rewrite <- Hlen, Hl. apply list_lookup_middle. reflexivity.
  - intros Hafter.
    pose proof (rewrite_lines_other_key lib url path after w2 Hafter) as Hk.
    rewrite H3 in Hk. cbn [snd] in Hk.
    apply resolve_mapped; [|apply segment_target_truthy].
    rewrite Hk.
    assert (Hw2 : SEGMENT_MAP w2
                  = <[path :=
                        if startswith (u "https://flu.streamed.su")
                             (replace (u "https://corsproxy.io/?url=") []
                                (strip line))
                        then replace (u "https://corsproxy.io/?url=") []
                               (strip line)
                        else bucket_url (replace (u ".ts") (u ".js") path)]>
                      (SEGMENT_MAP w1)).
    { assert (Hw : with_segment_map
                     (<[path :=
                          if startswith (u "https://flu.streamed.su")
                               (replace (u "https://corsproxy.io/?url=") []
                                  (strip line))
                          then replace (u "https://corsproxy.io/?url=") []
                                 (strip line)
                          else bucket_url
                                 (replace (u ".ts") (u ".js") path)]>
                        (SEGMENT_MAP w1)) w1 = w2) by congruence.
      rewrite <- Hw. reflexivity. }
    rewrite Hw2. apply lookup_insert_eq.
Qed.

Lemma segment_line_round_trip_witness :
  exists path,
    written_key (u "https://corsproxy.io/?url=https://x/live/seg2.js")
    = Some path
    /\ [u "#EXTM3U"; u "/seg2.ts"] !! 1%nat = Some (u "/" ++ path)
    /\ (Forall (fun l => written_key l <> Some path) [] ->
        resolve
          (SEGMENT_MAP
             (snd (rewrite_lines lib_simple (u "https://x/live.m3u8")
                     [u "#EXTM3U";
                      u "https://corsproxy.io/?url=https://x/live/seg2.js"]
                     initial))) path
        = if startswith (u "https://flu.streamed.su")
               (replace (u "https://corsproxy.io/?url=") []
                  (strip
                     (u "https://corsproxy.io/?url=https://x/live/seg2.js")))
          then replace (u "https://corsproxy.io/?url=") []
                 (strip
                    (u "https://corsproxy.io/?url=https://x/live/seg2.js"))
          else bucket_url (replace (u ".ts") (u ".js") path)).
Proof.
  apply (segment_line_round_trip lib_simple (u "https://x/live.m3u8")
           (u "https://corsproxy.io/?url=https://x/live/seg2.js")
           [u "#EXTM3U"] [] [u "#EXTM3U"; u "/seg2.ts"] initial).
  - reflexivity.
  - reflexivity.
Defined.

(** ** The resource route's guess *)

(** X14.  A path that [SEGMENT_MAP] does not hold is looked for on the
    relay host under the path with [.ts] turned into [.js], then under the
    same path on the panel host, then on the direct-media host. *)
Theorem unmapped_path_candidates (segment_map : gmap str str) (path : str) :
  segment_map !! path = None ->
  contains (u "rr.buytommy.top") (replace (u ".ts") (u ".js") path) = false ->
  candidates (resolve segment_map path)
  = [u "https://rr.buytommy.top/" ++ replace (u ".ts") (u ".js") path;
     u "https://p2-panel.streamed.su/" ++ replace (u ".ts") (u ".js") path;
     u "https://flu.streamed.su/" ++ replace (u ".ts") (u ".js") path].
Proof.
  intros Hm Hc. rewrite (resolve_unmapped _ _ Hm).
  set (p := replace (u ".ts") (u ".js") path) in *.
  assert (Hc' : contains (u "rr.buytommy.top") (u "/" ++ p) = false).
  { rewrite relay_eq in *. cbn [u app]. cbn [contains startswith].
    destruct p; cbn [contains startswith] in *; exact Hc. }
  unfold candidates.
  change (u "https://rr.buytommy.top/" ++ p)
    with (u "https://rr.buytommy.top" ++ u "/" ++ p).
  rewrite !(replace_relay _ _ Hc'). reflexivity.
Qed.

Lemma unmapped_path_candidates_witness :
  candidates (resolve ∅ (u "live/seg9.ts"))
  = [u "https://rr.buytommy.top/live/seg9.js";
     u "https://p2-panel.streamed.su/live/seg9.js";
     u "https://flu.streamed.su/live/seg9.js"].
Proof.
  apply (unmapped_path_candidates ∅ (u "live/seg9.ts")); reflexivity.
Defined.

(** ** The cookie normalisation of the manifest route *)

(** X15.  A pair [name=value] is normalised to the name without its
    leading underscores, [=], and the value; whatever follows a second [=]
    is dropped, so a value that contains [=] is cut there. *)
Theorem normalize_pair_cuts_value (name value : str) (w : World) :
  contains (u "=") name = false ->
  contains (u "=") value = false ->
  normalize_pair (name ++ u "=" ++ value) w
  = (Ok (lstrip_chars (u "_") name ++ u "=" ++ value), w)
  /\ forall rest,
       normalize_pair (name ++ u "=" ++ value ++ u "=" ++ rest) w
       = (Ok (lstrip_chars (u "_") name ++ u "=" ++ value), w).
Proof.
  intros Hn Hv.
  assert (Hn' : split [61] name = [name]) by exact (split_no_sep _ _ Hn).
  assert (Hv' : split [61] value = [value]) by exact (split_no_sep _ _ Hv).
  assert (H1 : split (u "=") (name ++ u "=" ++ value) = [name; value]).
  { change (name ++ u "=" ++ value) with (name ++ 61 :: value).
    change (u "=") with [61].
    rewrite split1_app, Hn', Hv'. reflexivity. }
  assert (H2 : forall rest,
             split (u "=") (name ++ u "=" ++ value ++ u "=" ++ rest)
             = name :: value :: split (u "=") rest).
  { intros rest.
    change (name ++ u "=" ++ value ++ u "=" ++ rest)
      with (name ++ 61 :: (value ++ 61 :: rest)).
    change (u "=") with [61].
    rewrite !split1_app, Hn', Hv'. reflexivity. }
  split; [|intros rest]; unfold normalize_pair, bind;
    rewrite ?H1, ?H2; reflexivity.
Qed.

Lemma normalize_pair_cuts_value_witness :
  normalize_pair (u "__tok" ++ u "=" ++ u "YWJj" ++ u "=" ++ u "=") initial
  = (Ok (u "tok=YWJj"), initial).
Proof.
  apply (proj2 (normalize_pair_cuts_value (u "__tok") (u "YWJj") initial
                  eq_refl eq_refl) (u "=")).
Defined.

(** ** What the operations can raise *)

Lemma raises_only_ret {A} (S : Exc -> Prop) (a : A) : raises_only S (ret a).
Proof. intros w e w' [=]. Qed.

Lemma raises_only_raise {A} (S : Exc -> Prop) (e : Exc) :
  S e -> raises_only S (@raise A e).
Proof. intros He w e' w' [= <- _]. exact He. Qed.

Lemma raises_only_bind {A B} (S : Exc -> Prop) (c : M A) (k : A -> M B) :
  raises_only S c -> (forall a, raises_only S (k a)) ->
  raises_only S (bind c k).
Proof.
  intros Hc Hk w e w'. unfold bind.
  destruct (c w) as [[a|e0] w1] eqn:E.
  - apply Hk.
  - intros [= <- _]. apply (Hc w e0 w1 E).
Qed.

Lemma raises_only_weaken {A} (S T : Exc -> Prop) (c : M A) :
  (forall e, S e -> T e) -> raises_only S c -> raises_only T c.
Proof. intros HST Hc w e w' H. apply HST, (Hc w e w' H). Qed.

Create HintDb raises.

Ltac raises_step :=
  lazymatch goal with
  | |- raises_only _ (bind _ _) => apply raises_only_bind; [|intros ?]
  | |- raises_only _ (ret _) => apply raises_only_ret
  | |- raises_only _ (raise _) => apply raises_only_raise
  | |- raises_only _ (match ?x with _ => _ end) => destruct x
  | |- raises_only _ (let x := _ in _) => intros x
  | |- _ => solve [eauto with raises]
  end.

Ltac raises := repeat raises_step.

Section Raises.

Context (lib : Lib) (net : list OutRequest -> OutRequest -> NetResult).

Lemma raises_client_get (S : Exc -> Prop) url headers :
  raises_only S (client_get net url headers).
Proof. intros w e w' [=]. Qed.

Lemma raises_client_post (S : Exc -> Prop) url json headers :
  raises_only S (client_post net url json headers).
Proof. intros w e w' [=]. Qed.

Lemma raises_index {A} (S : Exc -> Prop) (o : option A) :
  S IndexError -> raises_only S (index o).
Proof.
  intros H. destruct o; [apply raises_only_ret|apply raises_only_raise, H].
Qed.

Lemma raises_or_ValueError {A} (S : Exc -> Prop) (o : option A) :
  S ValueError -> raises_only S (or_ValueError o).
Proof.
  intros H. destruct o; [apply raises_only_ret|apply raises_only_raise, H].
Qed.

#[local] Hint Resolve raises_client_get raises_client_post raises_index
  raises_or_ValueError : raises.

Lemma raises_fetch_attempts source_url headers retries attempts :
  raises_only (eq ClientError)
    (fetch_attempts lib net source_url headers retries attempts).
Proof.
  induction attempts as [|attempt rest IH]; cbn [fetch_attempts]; raises.
Qed.

#[local] Hint Resolve raises_fetch_attempts : raises.

Lemma raises_fetch_resource url cookies retries :
  raises_only (eq ClientError) (fetch_resource lib net url cookies retries).
Proof.
  unfold fetch_resource.
  generalize [url;
              replace (u "rr.buytommy.top") (u "p2-panel.streamed.su") url;
              replace (u "rr.buytommy.top") (u "flu.streamed.su") url]
    as sources.
  induction sources as [|s rest IH]; cbn [fetch_sources]; raises.
Qed.

Lemma raises_fetch_m3u8_url :
  raises_only (eq ClientError) (fetch_m3u8_url lib net).
Proof. unfold fetch_m3u8_url. raises. Qed.

Lemma raises_fetch_cookies :
  raises_only (eq ClientError) (fetch_cookies net).
Proof.
  unfold fetch_cookies. raises; intros w e w' [=].
Qed.

Lemma client_is_playlist_cause (e : Exc) :
  ClientError = e -> playlist_cause e.
Proof. intros <-. unfold playlist_cause. auto. Qed.

Lemma line_is_playlist_cause (e : Exc) : line_cause e -> playlist_cause e.
Proof. unfold line_cause, playlist_cause. intros [->| ->]; auto. Qed.

Lemma raises_normalize_cookies cookies :
  raises_only playlist_cause (normalize_cookies lib cookies).
Proof.
  unfold normalize_cookies.
  apply raises_only_bind; [|intros; apply raises_only_ret].
  generalize (split (u "; ") (decode_cookies lib cookies)) as pairs.
  induction pairs as [|p rest IH]; cbn [normalize_pairs].
  - apply raises_only_ret.
  - destruct (truthy p); [|exact IH].
    apply raises_only_bind.
    + unfold normalize_pair.
      repeat (apply raises_only_bind;
              [apply raises_index; unfold playlist_cause; auto|intros ?]).
      apply raises_only_ret.
    + intros q.
      apply raises_only_bind; [exact IH|intros; apply raises_only_ret].
Qed.

Lemma raises_rewrite_line url line :
  raises_only line_cause (rewrite_line lib url line).
Proof.
  assert (HI : line_cause IndexError) by (left; reflexivity).
  assert (HV : line_cause ValueError) by (right; reflexivity).
  unfold rewrite_line.
  destruct (startswith (u "#EXT-X-KEY") line && contains (u "URI=") line).
  - apply raises_only_bind; [apply raises_index, HI|intros after].
    apply raises_only_bind; [apply raises_index, HI|intros uri].
    apply raises_only_bind; [apply raises_or_ValueError, HV|intros full].
    apply raises_only_bind;
      [intros w e w' [=]|intros; apply raises_only_ret].
  - destruct (startswith (u "https://") line); [|apply raises_only_ret].
    apply raises_only_bind; [apply raises_index, HI|intros name].
    destruct (startswith _ _);
      (apply raises_only_bind;
       [intros w e w' [=]|intros; apply raises_only_ret]).
Qed.

Lemma raises_rewrite_lines url m3u8_lines :
  raises_only line_cause (rewrite_lines lib url m3u8_lines).
Proof.
  induction m3u8_lines as [|line rest IH]; cbn [rewrite_lines].
  - apply raises_only_ret.
  - apply raises_only_bind; [apply raises_rewrite_line|intros l].
    apply raises_only_bind; [exact IH|intros; apply raises_only_ret].
Qed.

Lemma raises_rewrite url body :
  raises_only playlist_cause (rewrite lib url body).
Proof.
  unfold rewrite.
  destruct (decode_utf8 body) as [m3u8_content|];
    [|apply raises_only_raise; unfold playlist_cause; auto].
  destruct (negb (contains (u "#EXTM3U") m3u8_content));
    [apply raises_only_raise; unfold playlist_cause; auto 6|].
  apply raises_only_bind; [intros w e w' [=]|intros _].
  apply raises_only_bind;
    [apply raises_or_ValueError; unfold playlist_cause; auto
    |intros base_url].
  apply raises_only_bind; [|intros; apply raises_only_ret].
  eapply raises_only_weaken;
    [apply line_is_playlist_cause|apply raises_rewrite_lines].
Qed.

Lemma raises_obtain_manifest url cookies :
  raises_only playlist_cause (obtain_manifest lib net url cookies).
Proof.
  assert (Hf : forall url cookies,
             raises_only playlist_cause
               (fetch_resource lib net url cookies 3)).
  { intros. eapply raises_only_weaken;
      [apply client_is_playlist_cause|apply raises_fetch_resource]. }
  unfold obtain_manifest.
  apply raises_only_bind; [apply raises_normalize_cookies|intros c].
  apply raises_only_bind; [apply Hf|intros [r|]]; [apply raises_only_ret|].
  apply raises_only_bind;
    [eapply raises_only_weaken;
       [apply client_is_playlist_cause|apply raises_fetch_m3u8_url]
    |intros m3u8_url].
  apply raises_only_bind;
    [eapply raises_only_weaken;
       [apply client_is_playlist_cause|apply raises_fetch_cookies]
    |intros c'].
  destruct m3u8_url as [m3u8_url|], c' as [c'|];
    try (apply raises_only_raise; unfold playlist_cause; auto 8).
  destruct (negb (truthy m3u8_url) || negb (truthy c'));
    [apply raises_only_raise; unfold playlist_cause; auto 8|].
  apply raises_only_bind; [apply Hf|intros [r|]];
    [apply raises_only_ret
    |apply raises_only_raise; unfold playlist_cause; auto 8].
Qed.

(** A key line without a quoted URI stops the loop body at the first
    index. *)
Lemma rewrite_line_unquoted (url line : str) (w : World) :
  is_key_line line = true ->
  contains (u "URI=" ++ quote) line = false ->
  rewrite_line lib url line w = (Raise IndexError, w).
Proof.
  intros Hk Hq. unfold rewrite_line.
  change (startswith (u "#EXT-X-KEY") line && contains (u "URI=") line)
    with (is_key_line line).
  rewrite Hk. unfold bind. rewrite (split_no_sep _ _ Hq). reflexivity.
Qed.

Lemma rewrite_lines_unquoted (url line : str) (before after : list str)
    (w : World) :
  is_key_line line = true ->
  contains (u "URI=" ++ quote) line = false ->
  exists e,
    fst (rewrite_lines lib url (before ++ line :: after) w) = Raise e
    /\ line_cause e.
Proof.
  intros Hk Hq. revert w. induction before as [|b before IH]; intros w.
  - cbn [app rewrite_lines]. unfold bind.
    rewrite (rewrite_line_unquoted url line w Hk Hq).
    exists IndexError. split; [reflexivity|left; reflexivity].
  - cbn [app rewrite_lines]. unfold bind at 1.
    pose proof (raises_rewrite_line url b w) as Hb.
    destruct (rewrite_line lib url b w) as [[l|e] w1].
    + unfold bind. destruct (IH w1) as (e & He & Hc).
      destruct (rewrite_lines lib url (before ++ line :: after) w1)
        as [[ls|e'] w2]; cbn [fst] in He; [discriminate|].
      exists e'. split; [reflexivity|]. congruence.
    + exists e. split; [reflexivity|]. apply (Hb e w1 eq_refl).
Qed.

(** The requests of [fetch_cookies]: the handshake, unless the cache is
    filled. *)
Lemma fetch_cookies_sent (w : World) :
  sent (snd (fetch_cookies net w))
  = sent w ++ (if truthy_opt (CACHED_COOKIES w) then [] else [handshake]).
Proof.
  unfold fetch_cookies, bind, cached_cookies_get.
  destruct (truthy_opt (CACHED_COOKIES w)); [symmetry; apply app_nil_r|].
  unfold client_post, send. fold handshake.
  destruct (net (sent w) handshake) as [| |response]; try reflexivity.
  destruct (up_headers response !! u "set-cookie") as [c|]; [|reflexivity].
  destruct (truthy c); [|reflexivity]. cbn [negb].
  destruct (truthy (format_cookies _)); reflexivity.
Qed.

Lemma fetch_resource_outage (url cookies : str) (w : World) :
  (forall h r, out_method r = GET -> attempt_fails lib (net h r) = true) ->
  fetch_resource lib net url cookies 3 w
  = (Ok None, log w (attempts_sent url cookies 3 9)).
Proof.
  intros Hfail. unfold fetch_resource.
  rewrite (fetch_sources_all_fail lib net _ 3 _ Hfail). reflexivity.
Qed.

Lemma normalize_pairs_pure (pairs : list str) (w : World) :
  snd (normalize_pairs pairs w) = w.
Proof.
  induction pairs as [|p rest IH]; [reflexivity|].
  cbn [normalize_pairs]. destruct (truthy p); [|exact IH].
  unfold bind, normalize_pair, bind.
  destruct (item (split (u "=") p) 0); cbn [index ret raise]; [|reflexivity].
  destruct (item (split (u "=") p) 1); cbn [index ret raise]; [|reflexivity].
  destruct (normalize_pairs rest w) as [[ps|e] w1]; cbn [snd] in *;
    exact IH.
Qed.

Lemma normalize_cookies_pure (cookies : str) (w : World) :
  snd (normalize_cookies lib cookies w) = w.
Proof.
  unfold normalize_cookies, bind.
  pose proof (normalize_pairs_pure
                (split (u "; ") (decode_cookies lib cookies)) w) as H.
  destruct (normalize_pairs _ w) as [[ps|e] w1]; exact H.
Qed.

End Raises.

Lemma attempt_urls_candidates (url s : str) (retries : nat) :
  s ∈ attempt_urls url retries -> s ∈ candidates url.
Proof.
  intros Hs. apply list_elem_of_In in Hs. unfold attempt_urls in Hs.
  apply in_flat_map in Hs as (c & Hc & Hr).
  apply repeat_spec in Hr. subst s. apply list_elem_of_In. exact Hc.
Qed.

(** X16.  The manifest route answers in one of two ways: with status 200,
    the HLS media type, the wildcard CORS header and a text body, or with
    an [HTTPException] of status 500 whose detail is the prefix followed
    by the cause, the cause being one of seven: an index, value or decoding
    error, an exception of the client, or one of the three failures the
    route raises itself. *)
Theorem get_playlist_outcome
    (lib : Lib) (net : list OutRequest -> OutRequest -> NetResult)
    (url cookies : str) (w : World) :
  match fst (get_playlist lib net url cookies w) with
  | Ok response =>
      resp_status response = 200%Z
      /\ media_type response = u "application/vnd.apple.mpegurl"
      /\ resp_headers response
         = {[ u "Access-Control-Allow-Origin" := u "*" ]}
      /\ exists m3u8_content, resp_content response = BodyText m3u8_content
  | Raise e =>
      exists cause,
        e = HTTPException 500 (MsgOf (u "Error fetching M3U8: ") cause)
        /\ playlist_cause cause
  end.
Proof.
  unfold get_playlist, try_except.
  match goal with
  | |- context [match ?c w with _ => _ end] =>
      assert (Hr : raises_only playlist_cause c);
      [|destruct (c w) as [[response|e] w1] eqn:E]
  end.
  - apply raises_only_bind; [apply raises_obtain_manifest|intros result].
    apply raises_only_bind;
      [apply raises_rewrite|intros; apply raises_only_ret].
  - cbn [fst]. unfold bind in E.
    destruct (obtain_manifest lib net url cookies w) as [[result|e] w2];
      [|discriminate].
    destruct (rewrite lib url (fst result) w2) as [[m3u8_content|e] w3];
      [|discriminate].
    unfold ret in E. injection E as <- _. cbn. eauto.
  - cbn [fst raise]. exists e. split; [reflexivity|]. apply (Hr w e w1 E).
Qed.

(** X17.  The resource route answers with the CORS and [Accept-Ranges]
    headers and, by the truthiness of the inbound Range value, either
    status 206 with a [Content-Range] header or status 200 without one; or
    it fails with status 500, the cause being an exception of the client
    or the route's own failure when every attempt has failed. *)
Theorem get_resource_outcome
    (lib : Lib) (net : list OutRequest -> OutRequest -> NetResult)
    (path : str) (request : Request) (w : World) :
  match fst (get_resource lib net path request w) with
  | Ok response =>
      resp_headers response !! u "Access-Control-Allow-Origin" = Some (u "*")
      /\ resp_headers response !! u "Accept-Ranges" = Some (u "bytes")
      /\ (if truthy_opt (header_range request)
          then resp_status response = 206%Z
               /\ is_Some (resp_headers response !! u "Content-Range")
          else resp_status response = 200%Z
               /\ resp_headers response !! u "Content-Range" = None)
  | Raise e =>
      exists cause,
        e = HTTPException 500 (MsgOf (u "Error fetching resource: ") cause)
        /\ resource_cause cause
  end.
Proof.
  unfold get_resource, try_except, bind, segment_map_read.
  pose proof (raises_fetch_resource lib net (resolve (SEGMENT_MAP w) path)
                (default [] (query_cookies request)) 3 w) as Hr.
  destruct (fetch_resource lib net (resolve (SEGMENT_MAP w) path)
              (default [] (query_cookies request)) 3 w)
    as [[[[content content_type]|]|e] w1].
  - destruct (truthy_opt (header_range request));
      cbn [fst ret resp_headers resp_status].
    + split; [|split; [|split]].
      * rewrite !lookup_insert_ne by discriminate. apply lookup_singleton_eq.
      * rewrite lookup_insert_ne by discriminate. apply lookup_insert_eq.
      * reflexivity.
      * rewrite lookup_insert_eq. eauto.
    + split; [|split; [|split]].
      * rewrite !lookup_insert_ne by discriminate. apply lookup_singleton_eq.
      * apply lookup_insert_eq.
      * reflexivity.
      * rewrite lookup_insert_ne by discriminate.
        apply lookup_singleton_ne. discriminate.
  - cbn [fst raise]. eexists. split; [reflexivity|]. right. reflexivity.
  - cbn [fst raise]. exists e. split; [reflexivity|].
    left. symmetry. apply (Hr e w1 eq_refl).
Qed.

(** X18.  The requests of the resource route: at most nine, each a GET to
    a mirror candidate of the resolved URL, in the fetcher's order, with
    the cookie string as the query gave it and no Range header; and the
    route writes neither global. *)
Theorem get_resource_requests
    (lib : Lib) (net : list OutRequest -> OutRequest -> NetResult)
    (path : str) (request : Request) (w : World) :
  let url := resolve (SEGMENT_MAP w) path in
  let cookies := default [] (query_cookies request) in
  exists n,
    (n <= 9)%nat
    /\ snd (get_resource lib net path request w)
       = log w (attempts_sent url cookies 3 n)
    /\ Forall (fun r =>
                 out_method r = GET
                 /\ out_url r ∈ candidates url
                 /\ out_headers r !! u "Cookie" = Some cookies
                 /\ out_headers r !! u "Range" = None)
         (attempts_sent url cookies 3 n).
Proof.
  intros url cookies.
  destruct (try_each_bounded lib net (<[u "Cookie" := cookies]> HEADERS)
              (attempt_urls url 3) w) as (n & Hn & Hlog).
  rewrite <- fetch_resource_one_pass in Hlog.
  rewrite attempt_urls_length in Hn.
  exists n. split; [exact Hn|]. split.
  - unfold get_resource, try_except, bind, segment_map_read.
    fold url cookies.
    destruct (fetch_resource lib net url cookies 3 w)
      as [[[[c ct]|]|e] w1]; cbn [snd] in Hlog; subst w1;
      try reflexivity.
    destruct (truthy_opt (header_range request)); reflexivity.
  - unfold attempts_sent. apply Forall_map. apply Forall_forall.
    intros s Hs. cbn [mirror_request out_method out_url out_headers].
    split; [reflexivity|]. split.
    + apply (attempt_urls_candidates url s 3).
      apply (subseteq_take n). exact Hs.
    + split; [apply lookup_insert_eq|apply HEADERS_no_Range].
Qed.

(** X19.  With every GET failing, the resource route sends the nine
    attempts for the resolved URL and fails with status 500, its own
    failure as the cause. *)
Theorem get_resource_outage
    (lib : Lib) (net : list OutRequest -> OutRequest -> NetResult)
    (path : str) (request : Request) (w : World) :
  (forall h r, out_method r = GET -> attempt_fails lib (net h r) = true) ->
  get_resource lib net path request w
  = (Raise (HTTPException 500
              (MsgOf (u "Error fetching resource: ")
                 (HTTPException 500 (Msg (u "Error fetching resource"))))),
     log w (attempts_sent (resolve (SEGMENT_MAP w) path)
              (default [] (query_cookies request)) 3 9)).
Proof.
  intros Hfail. unfold get_resource, try_except, bind, segment_map_read.
  rewrite (fetch_resource_outage lib net _ _ w Hfail). reflexivity.
Qed.

Lemma get_resource_outage_witness :
  get_resource lib_simple net_down (u "seg1.ts")
    {| query_cookies := Some (u "a=1"); header_range := None |}
    world_after_manifest
  = (Raise (HTTPException 500
              (MsgOf (u "Error fetching resource: ")
                 (HTTPException 500 (Msg (u "Error fetching resource"))))),
     log world_after_manifest
       (attempts_sent (resolve (SEGMENT_MAP world_after_manifest)
                         (u "seg1.ts"))
          (default []
             (query_cookies
                {| query_cookies := Some (u "a=1");
                   header_range := None |})) 3 9)).
Proof.
  apply (get_resource_outage lib_simple net_down (u "seg1.ts")
           {| query_cookies := Some (u "a=1"); header_range := None |}
           world_after_manifest).
  intros h r Hr. reflexivity.
Defined.

(** X20.  With every GET refused and cookies that normalise, the manifest
    route sends the nine attempts for the supplied URL, then the request
    for the landing page, then, when the cache holds no cookies, the
    handshake, although no manifest URL was found; it fails with status
    500 and leaves [SEGMENT_MAP] as it was. *)
Theorem get_playlist_outage
    (lib : Lib) (net : list OutRequest -> OutRequest -> NetResult)
    (url cookies normalized : str) (w : World) :
  (forall h r, out_method r = GET -> net h r = NetHTTPError) ->
  fst (normalize_cookies lib cookies w) = Ok normalized ->
  exists cause w',
    get_playlist lib net url cookies w
    = (Raise (HTTPException 500 (MsgOf (u "Error fetching M3U8: ") cause)),
       w')
    /\ (cause = HTTPException 500
                  (Msg (u "Could not fetch M3U8 URL or cookies"))
        \/ cause = ClientError)
    /\ SEGMENT_MAP w' = SEGMENT_MAP w
    /\ sent w'
       = sent w ++ attempts_sent url normalized 3 9 ++ [landing]
         ++ (if truthy_opt (CACHED_COOKIES w) then [] else [handshake]).
Proof.
  intros Hdown Hnorm.
  set (w1 := log w (attempts_sent url normalized 3 9 ++ [landing])).
  assert (Hfail : forall h r, out_method r = GET ->
                              attempt_fails lib (net h r) = true).
  { intros h r Hr. rewrite (Hdown h r Hr). reflexivity. }
  assert (Hn : normalize_cookies lib cookies w = (Ok normalized, w)).
  { pose proof (normalize_cookies_pure lib cookies w) as Hp.
    destruct (normalize_cookies lib cookies w) as [r w0]. cbn in *.
    congruence. }
  assert (Hm : fetch_m3u8_url lib net
                 (log w (attempts_sent url normalized 3 9))
               = (Ok None, w1)).
  { unfold fetch_m3u8_url, bind. rewrite client_get_run. fold landing.
    rewrite (Hdown _ landing eq_refl). unfold w1. rewrite log_log.
    reflexivity. }
  assert (Hrun : get_playlist lib net url cookies w
    = (Raise (HTTPException 500
                (MsgOf (u "Error fetching M3U8: ")
                   (match fst (fetch_cookies net w1) with
                    | Ok _ =>
                        HTTPException 500
                          (Msg (u "Could not fetch M3U8 URL or cookies"))
                    | Raise e => e
                    end))),
       snd (fetch_cookies net w1))).
  { unfold get_playlist, try_except, obtain_manifest.
    rewrite (bind_assoc _ _ _ w).
    rewrite (bind_ok _ _ w w normalized Hn).
    rewrite bind_assoc.
    rewrite (bind_ok _ _ _ _ None
               (fetch_resource_outage lib net url normalized w Hfail)).
    rewrite !bind_assoc. rewrite (bind_ok _ _ _ _ None Hm).
    unfold bind.
    destruct (fetch_cookies net w1) as [[[c|]|e] w2]; reflexivity. }
  eexists _, _. split; [exact Hrun|]. split; [|split].
  - pose proof (raises_fetch_cookies net w1) as Hr.
    destruct (fetch_cookies net w1) as [[c|e] w2]; cbn [fst];
      [left; reflexivity|].
    right. symmetry. apply (Hr e w2 eq_refl).
  - apply (fetch_cookies_keeps_segment_map net (SEGMENT_MAP w) w1).
    reflexivity.
  - rewrite fetch_cookies_sent. unfold w1. cbn [log sent CACHED_COOKIES].
    rewrite <- !app_assoc. reflexivity.
Qed.

Lemma get_playlist_outage_witness :
  exists cause w',
    get_playlist lib_simple net_down (u "https://x/live.m3u8") (u "a=1")
      initial
    = (Raise (HTTPException 500 (MsgOf (u "Error fetching M3U8: ") cause)),
       w')
    /\ (cause = HTTPException 500
                  (Msg (u "Could not fetch M3U8 URL or cookies"))
        \/ cause = ClientError)
    /\ SEGMENT_MAP w' = SEGMENT_MAP initial
    /\ sent w'
       = sent initial
         ++ attempts_sent (u "https://x/live.m3u8") (u "a=1") 3 9
         ++ [landing]
         ++ (if truthy_opt (CACHED_COOKIES initial) then []
             else [handshake]).
Proof.
  apply (get_playlist_outage lib_simple net_down (u "https://x/live.m3u8")
           (u "a=1") (u "a=1") initial).
  - intros h r Hr. reflexivity.
  - reflexivity.
Defined.

(** X21.  A manifest with a line that starts with [#EXT-X-KEY] and
    contains [URI=] but no quoted URI never passes the rewriter: the pass
    raises an index error at that line, unless an earlier step has raised
    an index or value error already. *)
Theorem rewrite_unquoted_key_line (lib : Lib) (url line : str)
    (body : bytes) (m3u8_content : str) (before after : list str)
    (w : World) :
  decode_utf8 body = Some m3u8_content ->
  contains (u "#EXTM3U") m3u8_content = true ->
  splitlines m3u8_content = before ++ line :: after ->
  is_key_line line = true ->
  contains (u "URI=" ++ quote) line = false ->
  exists e,
    fst (rewrite lib url body w) = Raise e
    /\ (e = IndexError \/ e = ValueError).
Proof.
  intros Hd Hc Hs Hk Hq. unfold rewrite. rewrite Hd, Hc, Hs. cbn [negb].
  unfold bind at 1. cbn [segment_map_clear]. unfold bind at 1.
  destruct (urlparse lib url) as [[scheme netloc]|];
    cbn [or_ValueError ret raise];
    [|exists ValueError; split; [reflexivity|right; reflexivity]].
  unfold bind.
  destruct (rewrite_lines_unquoted lib url line before after
              {| SEGMENT_MAP := ∅; CACHED_COOKIES := CACHED_COOKIES w;
                 sent := sent w |} Hk Hq) as (e & He & Hcause).
  destruct (rewrite_lines lib url (before ++ line :: after) _)
    as [[ls|e'] w2]; cbn [fst] in He; [discriminate|].
  exists e'. split; [reflexivity|].
  assert (e' = e) by congruence. subst e'. exact Hcause.
Qed.

Lemma rewrite_unquoted_key_line_witness :
  exists e,
    fst (rewrite lib_simple (u "https://x/live.m3u8") unquoted_key_body
           initial) = Raise e
    /\ (e = IndexError \/ e = ValueError).
Proof.
  apply (rewrite_unquoted_key_line lib_simple (u "https://x/live.m3u8")
           (u "#EXT-X-KEY:METHOD=AES-128,URI=key.bin") unquoted_key_body
           (u "#EXTM3U" ++ [10] ++ u "#EXT-X-KEY:METHOD=AES-128,URI=key.bin")
           [u "#EXTM3U"] [] initial); reflexivity.
Defined.

(** ** The two ways to a manifest *)

Lemma normalize_cookies_run (lib : Lib) (cookies normalized : str)
    (w : World) :
  fst (normalize_cookies lib cookies w) = Ok normalized ->
  normalize_cookies lib cookies w = (Ok normalized, w).
Proof.
  intros Hnorm. pose proof (normalize_cookies_pure lib cookies w) as Hp.
  destruct (normalize_cookies lib cookies w) as [r w0]. cbn in *.
  congruence.
Qed.

Lemma attempt_urls_first (url : str) :
  attempt_urls url 3 !! 0%nat = Some url.
Proof. reflexivity. Qed.

(** X22.  When the first request for the supplied URL is answered with a
    status that passes, the manifest route sends that one request, with the
    normalised cookies, and answers with the rewriting of the body it got:
    the rewritten text with status 200, or status 500 around the
    rewriter's exception. *)
Theorem get_playlist_first_attempt
    (lib : Lib) (net : list OutRequest -> OutRequest -> NetResult)
    (url cookies normalized : str) (response : UpResponse) (w : World) :
  fst (normalize_cookies lib cookies w) = Ok normalized ->
  net (sent w) (mirror_request url normalized) = NetResponse response ->
  raise_for_status lib (status_code response) = false ->
  get_playlist lib net url cookies w
  = match rewrite lib url (content response)
            (log w [mirror_request url normalized]) with
    | (Ok m3u8_content, w') =>
        (Ok {| resp_content := BodyText m3u8_content;
               resp_status := 200;
               media_type := u "application/vnd.apple.mpegurl";
               resp_headers :=
                 {[ u "Access-Control-Allow-Origin" := u "*" ]} |}, w')
    | (Raise e, w') =>
        (Raise (HTTPException 500 (MsgOf (u "Error fetching M3U8: ") e)), w')
    end.
Proof.
  intros Hnorm Hnet Hok.
  assert (Hf : fetch_resource lib net url normalized 3 w
               = (Ok (Some (content response,
                            resolved_content_type url response)),
                  log w [mirror_request url normalized])).
  { rewrite fetch_resource_one_pass.
    rewrite (try_each_answer lib net _ _ 0 url w (attempt_urls_first url))
      by (intros i s Hi; lia).
    cbn [take map]. rewrite app_nil_r.
    unfold mirror_request in Hnet. rewrite Hnet, Hok. reflexivity. }
  unfold get_playlist, try_except, obtain_manifest.
  rewrite (bind_assoc _ _ _ w).
  rewrite (bind_ok _ _ w w normalized
             (normalize_cookies_run lib cookies normalized w Hnorm)).
  rewrite bind_assoc. rewrite (bind_ok _ _ _ _ _ Hf).
  unfold bind, ret. cbn [fst].
  destruct (rewrite lib url (content response) _) as [[m3u8_content|e] w'];
    reflexivity.
Qed.

Lemma get_playlist_first_attempt_witness :
  get_playlist lib_simple (net_serving second_manifest_body)
    (u "https://x/live.m3u8") (u "a=1") initial
  = match rewrite lib_simple (u "https://x/live.m3u8")
            (content {| status_code := 200; up_headers := ∅;
                        content := second_manifest_body; text := [] |})
            (log initial
               [mirror_request (u "https://x/live.m3u8") (u "a=1")]) with
    | (Ok m3u8_content, w') =>
        (Ok {| resp_content := BodyText m3u8_content;
               resp_status := 200;
               media_type := u "application/vnd.apple.mpegurl";
               resp_headers :=
                 {[ u "Access-Control-Allow-Origin" := u "*" ]} |}, w')
    | (Raise e, w') =>
        (Raise (HTTPException 500 (MsgOf (u "Error fetching M3U8: ") e)), w')
    end.
Proof.
  apply (get_playlist_first_attempt lib_simple
           (net_serving second_manifest_body) (u "https://x/live.m3u8")
           (u "a=1") (u "a=1")
           {| status_code := 200; up_headers := ∅;
              content := second_manifest_body; text := [] |} initial);
    reflexivity.
Defined.

(** X23.  The fallback.  When the nine attempts for the supplied URL fail,
    the landing page names a manifest URL, the cache holds cookies and the
    first request for the named URL is answered with a status that passes,
    the route fetches the named URL with the cached cookies, not the
    supplied ones, and rewrites the body against the supplied URL, not the
    named one. *)
Theorem get_playlist_fallback
    (lib : Lib) (net : list OutRequest -> OutRequest -> NetResult)
    (url cookies normalized m3u8_url c : str) (page response : UpResponse)
    (w : World) :
  fst (normalize_cookies lib cookies w) = Ok normalized ->
  (forall i s, (i < 9)%nat -> attempt_urls url 3 !! i = Some s ->
     attempt_fails lib
       (net (sent w ++ attempts_sent url normalized 3 i)
          (mirror_request s normalized)) = true) ->
  net (sent w ++ attempts_sent url normalized 3 9) landing
  = NetResponse page ->
  search_m3u8 lib (text page) = Some m3u8_url ->
  truthy m3u8_url = true ->
  CACHED_COOKIES w = Some c ->
  truthy c = true ->
  net (sent w ++ attempts_sent url normalized 3 9 ++ [landing])
    (mirror_request m3u8_url c) = NetResponse response ->
  raise_for_status lib (status_code response) = false ->
  get_playlist lib net url cookies w
  = match rewrite lib url (content response)
            (log w (attempts_sent url normalized 3 9
                    ++ [landing; mirror_request m3u8_url c])) with
    | (Ok m3u8_content, w') =>
        (Ok {| resp_content := BodyText m3u8_content;
               resp_status := 200;
               media_type := u "application/vnd.apple.mpegurl";
               resp_headers :=
                 {[ u "Access-Control-Allow-Origin" := u "*" ]} |}, w')
    | (Raise e, w') =>
        (Raise (HTTPException 500 (MsgOf (u "Error fetching M3U8: ") e)), w')
    end.
Proof.
  intros Hnorm Hfail Hpage Hfound Hm Hc Hct Hnet Hok.
  set (w1 := log w (attempts_sent url normalized 3 9)).
  set (w2 := log w (attempts_sent url normalized 3 9 ++ [landing])).
  assert (Hf1 : fetch_resource lib net url normalized 3 w = (Ok None, w1)).
  { rewrite fetch_resource_one_pass.
    rewrite (try_each_skip lib net _ (attempt_urls url 3) 9 w).
    - reflexivity.
    - rewrite attempt_urls_length. lia.
    - exact Hfail. }
  assert (Hl : fetch_m3u8_url lib net w1 = (Ok (Some m3u8_url), w2)).
  { unfold fetch_m3u8_url, bind. rewrite client_get_run. fold landing.
    unfold w1 at 1. cbn [log sent]. rewrite Hpage, Hfound.
    unfold w1, w2. rewrite log_log. reflexivity. }
  assert (Hk : fetch_cookies net w2 = (Ok (Some c), w2)).
  { apply fetch_cookies_cached; [exact Hc|exact Hct]. }
  assert (Hf2 : fetch_resource lib net m3u8_url c 3 w2
                = (Ok (Some (content response,
                             resolved_content_type m3u8_url response)),
                   log w2 [mirror_request m3u8_url c])).
  { rewrite fetch_resource_one_pass.
    rewrite (try_each_answer lib net _ _ 0 m3u8_url w2
               (attempt_urls_first m3u8_url))
      by (intros i s Hi; lia).
    cbn [take map]. rewrite app_nil_r.
    unfold w2 at 1. cbn [log sent].
    unfold mirror_request in Hnet. rewrite Hnet, Hok.
    reflexivity. }
  unfold get_playlist, try_except, obtain_manifest.
  rewrite (bind_assoc _ _ _ w).
  rewrite (bind_ok _ _ w w normalized
             (normalize_cookies_run lib cookies normalized w Hnorm)).
  rewrite bind_assoc. rewrite (bind_ok _ _ _ _ None Hf1).
  rewrite !bind_assoc. rewrite (bind_ok _ _ _ _ _ Hl).
  rewrite bind_assoc. rewrite (bind_ok _ _ _ _ _ Hk).
  rewrite Hm, Hct. cbn [negb orb].
  rewrite bind_assoc. rewrite (bind_ok _ _ _ _ _ Hf2).
  unfold bind, ret. cbn [fst].
  replace (log w2 [mirror_request m3u8_url c])
    with (log w (attempts_sent url normalized 3 9
                 ++ [landing; mirror_request m3u8_url c]))
    by (unfold w2; rewrite log_log, <- app_assoc; reflexivity).
  destruct (rewrite lib url (content response) _) as [[m3u8_content|e] w'];
    reflexivity.
Qed.

Lemma get_playlist_fallback_witness :
  get_playlist lib_found net_fallback (u "https://x/live.m3u8") (u "a=1")
    world_with_cookies
  = match rewrite lib_found (u "https://x/live.m3u8")
            (content {| status_code := 200; up_headers := ∅;
                        content := second_manifest_body; text := [] |})
            (log world_with_cookies
               (attempts_sent (u "https://x/live.m3u8") (u "a=1") 3 9
                ++ [landing;
                    mirror_request (u "https://fresh/live.m3u8")
                      (u "ddg8_=abc")])) with
    | (Ok m3u8_content, w') =>
        (Ok {| resp_content := BodyText m3u8_content;
               resp_status := 200;
               media_type := u "application/vnd.apple.mpegurl";
               resp_headers :=
                 {[ u "Access-Control-Allow-Origin" := u "*" ]} |}, w')
    | (Raise e, w') =>
        (Raise (HTTPException 500 (MsgOf (u "Error fetching M3U8: ") e)), w')
    end.
Proof.
  apply (get_playlist_fallback lib_found net_fallback
           (u "https://x/live.m3u8") (u "a=1") (u "a=1")
           (u "https://fresh/live.m3u8") (u "ddg8_=abc")
           {| status_code := 200; up_headers := ∅;
              content := ub "<html>page</html>"; text := [] |}
           {| status_code := 200; up_headers := ∅;
              content := second_manifest_body; text := [] |}
           world_with_cookies).
  - reflexivity.
  - intros i s Hi Hs.
    do 9 (destruct i as [|i];
          [vm_compute in Hs; injection Hs as <-; reflexivity|]).
    lia.
  - reflexivity.
  - reflexivity.
  - reflexivity.
  - reflexivity.
  - reflexivity.
  - reflexivity.
  - reflexivity.
Defined.

(** ** The keys of the segment map *)

Lemma lstrip_chars_head (c : N) (s : str) :
  startswith [c] (lstrip_chars [c] s) = false.
Proof.
  induction s as [|x s IH]; [reflexivity|].
  cbn [lstrip_chars existsb]. rewrite orb_false_r.
  destruct (N.eqb_spec x c) as [->|Hne]; [exact IH|].
  cbn [startswith]. destruct (N.eqb_spec c x); [congruence|reflexivity].
Qed.

(** The last piece of a text cut at a character does not hold it. *)
Lemma last_split1_clean (c : N) (s name : str) :
  last_item (split [c] s) = Some name -> contains [c] name = false.
Proof.
  unfold last_item. revert name. induction s as [|x s IH]; intros name.
  - cbn. intros [= <-]. reflexivity.
  - destruct (N.eqb_spec x c) as [->|Hne].
    + rewrite split1_cons_eq.
      destruct (split [c] s) as [|a l] eqn:E;
        [exfalso; exact (split_nonempty _ _ E)|].
      cbn [last]. apply IH.
    + rewrite (split1_cons_ne c x s Hne).
      destruct (split [c] s) as [|a l] eqn:E;
        [exfalso; exact (split_nonempty _ _ E)|].
      destruct l as [|b l].
      * cbn [last]. intros [= <-]. cbn [contains startswith].
        destruct (N.eqb_spec c x); [congruence|]. cbn [andb orb].
        apply IH. reflexivity.
      * cbn [last]. intros H. apply IH. exact H.
Qed.

Lemma startswith1_contains (c : N) (s : str) :
  contains [c] s = false -> startswith [c] s = false.
Proof.
  destruct s as [|x s]; [reflexivity|]. cbn [contains].
  intros H. apply orb_false_iff in H as [H _]. exact H.
Qed.

(** Replacing [.js] leaves the first character, if it is no dot. *)
Lemma replace_js_head (name : str) :
  startswith (u "/") name = false ->
  startswith (u "/") (replace (u ".js") (u ".ts") name) = false.
Proof.
  intros Hn.
  change (replace (u ".js") (u ".ts") name)
    with (join (u ".ts") (split (u ".js") name)).
  rewrite split_unfold by discriminate.
  destruct (partition (u ".js") name) as [[a t]|] eqn:E.
  - apply partition_inv in E. subst name.
    rewrite join_cons by apply split_nonempty.
    destruct a as [|x a]; [reflexivity|].
    cbn [app startswith u] in *. exact Hn.
  - exact Hn.
Qed.

Section Keys.

Context (lib : Lib) (net : list OutRequest -> OutRequest -> NetResult).

Lemma keys_relative_set (k v : str) :
  startswith (u "/") k = false ->
  preserves keys_relative (segment_map_set k v).
Proof.
  intros Hk w Hw k' Hs. cbn [segment_map_set snd SEGMENT_MAP] in Hs.
  apply lookup_insert_is_Some in Hs as [<-|[_ Hs]]; [exact Hk|].
  apply (Hw k' Hs).
Qed.

Lemma keys_relative_rewrite_line (url line : str) :
  preserves keys_relative (rewrite_line lib url line).
Proof.
  unfold rewrite_line.
  destruct (startswith (u "#EXT-X-KEY") line && contains (u "URI=") line).
  - apply preserves_bind; [apply preserves_index|intros after].
    apply preserves_bind; [apply preserves_index|intros original_uri].
    apply preserves_bind; [apply preserves_or_ValueError|intros full].
    apply preserves_bind; [|intros; apply preserves_ret].
    apply keys_relative_set. apply (lstrip_chars_head 47).
  - destruct (startswith (u "https://") line); [|apply preserves_ret].
    intros w Hw. unfold bind at 1.
    destruct (last_item (split (u "/") (strip line))) as [name|] eqn:En;
      cbn [index ret raise]; [|exact Hw].
    assert (Hk : startswith (u "/") (replace (u ".js") (u ".ts") name)
                 = false).
    { apply replace_js_head. apply (startswith1_contains 47).
      apply (last_split1_clean 47 (strip line)). exact En. }
    destruct (startswith (u "https://flu.streamed.su") _);
      apply (keys_relative_set _ _ Hk w Hw).
Qed.

Lemma keys_relative_rewrite_lines (url : str) (m3u8_lines : list str) :
  preserves keys_relative (rewrite_lines lib url m3u8_lines).
Proof.
  induction m3u8_lines as [|line rest IH]; cbn [rewrite_lines].
  - apply preserves_ret.
  - apply preserves_bind; [apply keys_relative_rewrite_line|intros l].
    apply preserves_bind; [exact IH|intros; apply preserves_ret].
Qed.

Lemma keys_relative_rewrite (url : str) (body : bytes) :
  preserves keys_relative (rewrite lib url body).
Proof.
  unfold rewrite.
  destruct (decode_utf8 body) as [m3u8_content|]; [|apply preserves_raise].
  destruct (negb (contains (u "#EXTM3U") m3u8_content));
    [apply preserves_raise|].
  apply preserves_bind.
  - intros w _ k Hk. cbn [segment_map_clear snd SEGMENT_MAP] in Hk.
    rewrite lookup_empty in Hk. destruct Hk as [? [=]].
  - intros _.
    apply preserves_bind; [apply preserves_or_ValueError|intros base_url].
    apply preserves_bind;
      [apply keys_relative_rewrite_lines|intros; apply preserves_ret].
Qed.

Lemma keys_relative_log (w : World) (l : list OutRequest) :
  keys_relative w -> keys_relative (log w l).
Proof. intros Hw. exact Hw. Qed.

Lemma keys_relative_fetch_cookies :
  preserves keys_relative (fetch_cookies net).
Proof.
  intros w Hw k.
  rewrite (fetch_cookies_keeps_segment_map net (SEGMENT_MAP w) w eq_refl).
  apply Hw.
Qed.

Lemma keys_relative_run (op : Op) (w : World) :
  keys_relative w -> keys_relative (run lib net op w).
Proof.
  intros Hw. destruct op; cbn [run].
  - exact Hw.
  - apply keys_relative_fetch_cookies, Hw.
  - apply (preserves_fetch_m3u8_url lib net _ keys_relative_log), Hw.
  - apply (preserves_fetch_resource lib net _ keys_relative_log), Hw.
  - revert w Hw. change (preserves keys_relative
                           (get_playlist lib net url cookies)).
    unfold get_playlist.
    apply preserves_try_except; [|intros; apply preserves_raise].
    apply preserves_bind.
    + apply (preserves_obtain_manifest lib net _ keys_relative_log
               keys_relative_fetch_cookies).
    + intros result.
      apply preserves_bind;
        [apply keys_relative_rewrite|intros; apply preserves_ret].
  - apply (preserves_get_resource lib net _ keys_relative_log), Hw.
Qed.

End Keys.

(** X24.  In every state the process can reach, no key of [SEGMENT_MAP]
    begins with a slash: the keys have the form of the path the resource
    route is given. *)
Theorem segment_map_keys_relative
    (lib : Lib) (net : list OutRequest -> OutRequest -> NetResult)
    (w : World) (k : str) :
  reachable lib net w ->
  is_Some (SEGMENT_MAP w !! k) ->
  startswith (u "/") k = false.
Proof.
  intros Hr. revert k. change (keys_relative w).
  induction Hr as [|op w Hr IH].
  - intros k Hk. cbn in Hk. rewrite lookup_empty in Hk.
    destruct Hk as [? [=]].
  - apply keys_relative_run, IH.
Qed.

Lemma segment_map_keys_relative_witness :
  startswith (u "/") (u "a/b/key.bin") = false.
Proof.
  apply (segment_map_keys_relative lib_simple net_manifest_once
           world_after_manifest (u "a/b/key.bin")).
  - apply (reachable_run lib_simple net_manifest_once
             (OpGetPlaylist (u "https://x/live.m3u8") (u "a=1")) initial).
    apply reachable_initial.
  - vm_compute. eauto.
Defined.
